(** * Conversation memory and function-call reconciliation of the litechain
      example bots

    Shallow embedding of the Python code of the example notebooks
    - "Simple Bot with Weather Tool"                       ([WeatherBot]),
    - "Simple Bot with Weather Tool and Error Handling"    ([WeatherBotErrorHandling]),
    - "Serve with FastAPI for deploying"                   ([ServeWithFastAPI]),
    and the properties their specification states about them.

    Python objects are modelled by records, the global [memory] by an
    explicitly threaded state, exceptions by an error result that keeps the
    state (a Python exception does not roll mutations back), and the chains
    of the library by lazily consumed generators. *)

From Stdlib Require Import String Ascii List Bool Arith ZArith Lia DecimalString.
From stdpp Require Import base option list strings gmap.

Local Open Scope string_scope.
Local Open Scope list_scope.
Set Warnings "-register-all".

(** ** Python values *)

(** [OpenAIChatMessage(role, content, name=None)]. The role is kept as the
    string the code compares it with. *)
Record OpenAIChatMessage := mkMessage {
  msg_role : string;
  msg_content : string;
  msg_name : option string
}.

(** [OpenAIChatDelta(role, content, name=None)]; [role] is [None] on the
    chunks of a streamed message after its first one. *)
Record OpenAIChatDelta := mkDelta {
  delta_role : option string;
  delta_content : string;
  delta_name : option string
}.

#[global] Instance OpenAIChatMessage_eq_dec : EqDecision OpenAIChatMessage.
Proof. solve_decision. Defined.

#[global] Instance OpenAIChatDelta_eq_dec : EqDecision OpenAIChatDelta.
Proof. solve_decision. Defined.

(** The values [json.loads] returns. A [dict] keeps its items in insertion
    order; a [float] is identified by its text. *)
Inductive JsonValue :=
| JNone
| JBool (b : bool)
| JInt (n : Z)
| JFloat (text : string)
| JStr (s : string)
| JList (items : list JsonValue)
| JDict (items : list (string * JsonValue)).

(** [type(v).__name__] *)
Definition type_name (v : JsonValue) : string :=
  match v with
  | JNone => "NoneType"
  | JBool _ => "bool"
  | JInt _ => "int"
  | JFloat _ => "float"
  | JStr _ => "str"
  | JList _ => "list"
  | JDict _ => "dict"
  end.

(** [v == s] for a string literal [s]: only the equal [str] compares equal. *)
Definition py_eq_str (v : JsonValue) (s : string) : bool :=
  match v with
  | JStr t => bool_decide (t = s)
  | _ => false
  end.

(** ** Exceptions *)

(** The messages of [json.JSONDecodeError] (CPython's [json] package with
    its C scanner, the default). *)
Inductive JSONDecodeMsg :=
| ExpectingValue
| ExtraData
| ExpectingPropertyName
| ExpectingColonDelimiter
| ExpectingCommaDelimiter
| UnterminatedString
| InvalidControlCharacter
| InvalidEscape
| InvalidUnicodeEscape
| UnexpectedBOM.

Definition decode_msg_text (m : JSONDecodeMsg) : string :=
  match m with
  | ExpectingValue => "Expecting value"
  | ExtraData => "Extra data"
  | ExpectingPropertyName => "Expecting property name enclosed in double quotes"
  | ExpectingColonDelimiter => "Expecting ':' delimiter"
  | ExpectingCommaDelimiter => "Expecting ',' delimiter"
  | UnterminatedString => "Unterminated string starting at"
  | InvalidControlCharacter => "Invalid control character at"
  | InvalidEscape => "Invalid \escape"
  | InvalidUnicodeEscape => "Invalid \uXXXX escape"
  | UnexpectedBOM => "Unexpected UTF-8 BOM (decode using utf-8-sig)"
  end.

Record JSONDecodeError := mkJSONDecodeError {
  jde_msg : JSONDecodeMsg;
  jde_lineno : nat;
  jde_colno : nat;
  jde_pos : nat
}.

Definition nat_to_string (n : nat) : string :=
  NilEmpty.string_of_uint (Nat.to_uint n).

(** [JSONDecodeError.__str__]: ["%s: line %d column %d (char %d)"]. *)
Definition JSONDecodeError_str (e : JSONDecodeError) : string :=
  decode_msg_text (jde_msg e) +:+ ": line " +:+ nat_to_string (jde_lineno e)
    +:+ " column " +:+ nat_to_string (jde_colno e)
    +:+ " (char " +:+ nat_to_string (jde_pos e) +:+ ")".

Inductive PyExn :=
| IndexError (msg : string)
| TypeError (msg : string)
| JSONDecodeErr (e : JSONDecodeError)
| OtherException (cls : string) (msg : string).

(** [str(err)] *)
Definition str (err : PyExn) : string :=
  match err with
  | IndexError msg => msg
  | TypeError msg => msg
  | JSONDecodeErr e => JSONDecodeError_str e
  | OtherException _ msg => msg
  end.

(** [needle in hay] on strings. *)
Fixpoint contains (needle hay : string) : bool :=
  if String.prefix needle hay then true
  else match hay with
       | EmptyString => false
       | String _ rest => contains needle rest
       end.

(** ** The model collaborator and the state of a conversation *)

(** What one call of the chat model streams back: a finite sequence of
    deltas, after which the stream ends or fails (a transport error). *)
Record ModelStream := mkStream {
  chunks : list OpenAIChatDelta;
  failure : option PyExn
}.

(** The interaction with the model service, as seen by the bot. *)
Inductive Event :=
| ModelCall (chain : string) (messages : list OpenAIChatMessage)
| Chunk (chain : string) (delta : OpenAIChatDelta)
| StreamEnd (chain : string).

(** [memory["history"]] (in the FastAPI notebook: the [history] of the
    user's [Memory]), and the log of the interaction with the model. *)
Record World := mkWorld {
  history : list OpenAIChatMessage;
  trace : list Event
}.

Inductive Result (A : Type) :=
| Ok (a : A)
| Raise (err : PyExn).
Arguments Ok {A} a.
Arguments Raise {A} err.

(** A Python computation: it may change the state and raise; the state it
    leaves is kept in both cases. *)
Definition M (A : Type) : Type := World -> Result A * World.

Definition ret {A} (a : A) : M A := fun w => (Ok a, w).

Definition bind {A B} (c : M A) (k : A -> M B) : M B :=
  fun w => match c w with
           | (Ok a, w') => k a w'
           | (Raise e, w') => (Raise e, w')
           end.

Definition raise {A} (e : PyExn) : M A := fun w => (Raise e, w).

(** [try: c] with the outcome handed to the continuation. *)
Definition try {A} (c : M A) : M (Result A) :=
  fun w => let (r, w') := c w in (Ok r, w').

Definition get_history : M (list OpenAIChatMessage) :=
  fun w => (Ok (history w), w).

Definition set_history (h : list OpenAIChatMessage) : M unit :=
  fun w => (Ok tt, mkWorld h (trace w)).

Definition emit (ev : Event) : M unit :=
  fun w => (Ok tt, mkWorld (history w) (trace w ++ [ev])).

Declare Scope py_scope.
Delimit Scope py_scope with py.
Notation "x <- c ;; k" := (bind c (fun x => k))
  (at level 20, c at level 99, k at level 200, only parsing) : py_scope.
Notation "'exec' c ;; k" := (bind c (fun _ => k))
  (at level 20, c at level 99, k at level 200, only parsing) : py_scope.
Local Open Scope py_scope.

(** ** Asynchronous generators

    A chain, once called, is an asynchronous generator: the consumer pulls
    one output at a time, and the code between two [yield]s runs when the
    next output is asked for. [Do c k] runs the Python code [c] and goes on
    as [k] of its value. Generators are finite. *)
Inductive AsyncGen (A : Type) : Type :=
| Stop
| Fail (err : PyExn)
| Yield (a : A) (rest : AsyncGen A)
| Do {X : Type} (c : M X) (k : X -> AsyncGen A).
Arguments Stop {A}.
Arguments Fail {A} err.
Arguments Yield {A} a rest.
Arguments Do {A X} c k.

(** What draining a generator gives: the outputs it yielded, the exception
    that ended it if one did, and the state it left. *)
Record Outcome (A : Type) := mkOutcome {
  outputs : list A;
  raised : option PyExn;
  final : World
}.
Arguments mkOutcome {A} outputs raised final.
Arguments outputs {A} o.
Arguments raised {A} o.
Arguments final {A} o.

(** [[x async for x in g]], from the state [w]. *)
Fixpoint run {A} (g : AsyncGen A) (w : World) : Outcome A :=
  match g with
  | Stop => mkOutcome [] None w
  | Fail e => mkOutcome [] (Some e) w
  | Yield a rest =>
      let o := run rest w in mkOutcome (a :: outputs o) (raised o) (final o)
  | Do c k =>
      match c w with
      | (Ok x, w') => run (k x) w'
      | (Raise e, w') => mkOutcome [] (Some e) w'
      end
  end.

(** ** The chain library

    The notebooks compose their bots with the chain class of the library
    ([litechain.core.chain]) and its OpenAI wrapper, which are not among the
    notebooks' own code. *)

Definition Chain (I O : Type) : Type := I -> AsyncGen O.

Module Chain.

(** Modelled from the spec: [Chain.map] of the chain library. "For each
    chunk: fold into store ...; independently, attempt FunctionDispatcher":
    the function is applied to each output when it arrives, before the
    next one is asked for. *)
Fixpoint map_gen {A B} (fn : A -> M B) (g : AsyncGen A) : AsyncGen B :=
  match g with
  | Stop => Stop
  | Fail e => Fail e
  | Yield a rest => Do (fn a) (fun b => Yield b (map_gen fn rest))
  | Do c k => Do c (fun x => map_gen fn (k x))
  end.

Definition map {I A B} (self : Chain I A) (fn : A -> M B) : Chain I B :=
  fun input => map_gen fn (self input).

(** Modelled from the spec: [Chain.and_then] of the chain library. "After
    the full model stream is exhausted, inspect the role of the last
    produced unit": the outputs of the first chain are collected until it
    ends, then the next function gets them all, and its outputs are the
    outputs of the composition. An exception of the first chain ends the
    composition. *)
Fixpoint collect_then {A B} (g : AsyncGen A) (acc : list A)
    (next : list A -> AsyncGen B) : AsyncGen B :=
  match g with
  | Stop => next acc
  | Fail e => Fail e
  | Yield a rest => collect_then rest (acc ++ [a]) next
  | Do c k => Do c (fun x => collect_then (k x) acc next)
  end.

Definition and_then {I A B} (self : Chain I A)
    (next : list A -> AsyncGen B) : Chain I B :=
  fun input => collect_then (self input) [] next.

(** Modelled from the spec: [Chain.on_error] of the chain library. "If
    dispatch raises an invocation error: invoke the registered
    error-recovery strategy instead of propagating": an exception raised
    while the chain produces its outputs is given to the handler, whose
    outputs replace the rest of the chain; what the handler raises is not
    caught. *)
Fixpoint on_error_gen {A} (g : AsyncGen A) (handler : PyExn -> AsyncGen A)
    : AsyncGen A :=
  match g with
  | Stop => Stop
  | Fail e => handler e
  | Yield a rest => Yield a (on_error_gen rest handler)
  | Do c k =>
      Do (try c) (fun r => match r with
                           | Ok x => on_error_gen (k x) handler
                           | Raise e => handler e
                           end)
  end.

Definition on_error {I A} (self : Chain I A)
    (handler : PyExn -> AsyncGen A) : Chain I A :=
  fun input => on_error_gen (self input) handler.

(** Modelled from the spec: [Chain.pipe] of the chain library. The
    outputs are "a lazily-produced, single-consumer sequence": the function
    gets the generator of the chain itself and pulls from it. *)
Definition pipe {I A B} (self : Chain I A)
    (fn : AsyncGen A -> AsyncGen B) : Chain I B :=
  fun input => fn (self input).

End Chain.

(** Modelled from the spec: [debug] of the chain library, which prints the
    outputs of a chain and passes them on. *)
Definition debug {I O} (chain : Chain I O) : Chain I O := chain.

(** Modelled from the spec: [as_async_generator] of the chain library, the
    generator of the values it is given. *)
Fixpoint as_async_generator {A} (values : list A) : AsyncGen A :=
  match values with
  | [] => Stop
  | v :: rest => Yield v (as_async_generator rest)
  end.

(** [g1] followed by [g2] ([async for x in g1: yield x] and then the code
    after the loop). *)
Fixpoint then_gen {A} (g1 g2 : AsyncGen A) : AsyncGen A :=
  match g1 with
  | Stop => g2
  | Fail e => Fail e
  | Yield a rest => Yield a (then_gen rest g2)
  | Do c k => Do c (fun x => then_gen (k x) g2)
  end.

(** The chunks of one model call, as the consumer receives them. *)
Fixpoint stream_gen (name : string) (ds : list OpenAIChatDelta)
    (failure : option PyExn) : AsyncGen OpenAIChatDelta :=
  match ds with
  | [] => match failure with
          | None => Do (emit (StreamEnd name)) (fun _ => Stop)
          | Some e => Fail e
          end
  | d :: rest => Do (emit (Chunk name d)) (fun _ => Yield d (stream_gen name rest failure))
  end.

Section Library.

(** The chat model: what it streams back for the messages it is sent, per
    chain (the chains differ in the functions and parameters they declare). *)
Variable llm : string -> list OpenAIChatMessage -> ModelStream.

(** Modelled from the spec: [OpenAIChatChain(name, messages, ...)] of the
    chain library. "Invoke the model collaborator with the full ordered
    store contents as context; this yields a lazy, single-pass, finite
    sequence of Delta chunks": the messages function is evaluated on the
    input, the model is called with its result, and the deltas of the
    answer are the outputs. *)
Definition OpenAIChatChain {I} (name : string)
    (messages : I -> M (list OpenAIChatMessage)) : Chain I OpenAIChatDelta :=
  fun input =>
    Do (messages input) (fun msgs =>
    Do (emit (ModelCall name msgs)) (fun _ =>
    stream_gen name (chunks (llm name msgs)) (failure (llm name msgs)))).

End Library.

(** ** Code shared by the three notebooks *)

(** [memory["history"].append(message); return message] *)
Definition save_message_to_memory (message : OpenAIChatMessage)
    : M OpenAIChatMessage :=
  h <- get_history ;;
  exec set_history (h ++ [message]) ;;
  ret message.

(** [message.content += text] *)
Definition extend_content (text : string) (message : OpenAIChatMessage)
    : OpenAIChatMessage :=
  mkMessage (msg_role message) (msg_content message +:+ text) (msg_name message).

(** [update_delta_on_memory] ([Memory.update_delta] in the FastAPI notebook).
    [memory["history"][-1]] raises on an empty list. The test
    [history[-1].role != delta.role and delta.role is not None] holds exactly
    when [delta.role] is some role other than the one of the last message.
    The second notebook returns at once what is not an [OpenAIChatDelta];
    the argument is one here. *)
Definition update_delta_on_memory (delta : OpenAIChatDelta)
    : M OpenAIChatDelta :=
  h <- get_history ;;
  match last h with
  | None => raise (IndexError "list index out of range")
  | Some m =>
      match delta_role delta with
      | Some r =>
          if bool_decide (msg_role m <> r)
          then exec set_history
                 (h ++ [mkMessage r (delta_content delta) (delta_name delta)]) ;;
               ret delta
          else exec set_history
                 (removelast h ++ [extend_content (delta_content delta) m]) ;;
               ret delta
      | None =>
          exec set_history
            (removelast h ++ [extend_content (delta_content delta) m]) ;;
          ret delta
      end
  end.

Section Weather.

(** [json.loads] and [json.dumps] of Python's standard library. *)
Variable json_loads : string -> JsonValue + JSONDecodeError.
Variable json_dumps : JsonValue -> string.

Definition loads (s : string) : M JsonValue :=
  match json_loads s with
  | inl v => ret v
  | inr e => raise (JSONDecodeErr e)
  end.

(** The body of [get_current_weather(location, format="celsius")]. *)
Definition get_current_weather (location format : JsonValue)
    : OpenAIChatDelta :=
  let result :=
    JDict [("location", location);
           ("forecast", JStr "sunny");
           ("temperature",
            JStr (if py_eq_str format "celsius" then "25 C" else "77 F"))] in
  mkDelta (Some "function") (json_dumps result) (Some "get_current_weather").

Fixpoint lookup_item (key : string) (items : list (string * JsonValue))
    : option JsonValue :=
  match items with
  | [] => None
  | (k, v) :: rest => if bool_decide (k = key) then Some v else lookup_item key rest
  end.

(** The first keyword that is no parameter of [get_current_weather]. *)
Fixpoint unexpected_keyword (items : list (string * JsonValue))
    : option string :=
  match items with
  | [] => None
  | (k, _) :: rest =>
      if bool_decide (k = "location") || bool_decide (k = "format")
      then unexpected_keyword rest
      else Some k
  end.

(** [get_current_weather] called with the keyword arguments [kwargs]
    (the double-star call): the call raises [TypeError] when
    [kwargs] is no mapping, has a key that is no parameter, or lacks
    [location]; the annotations of the parameters are not checked. *)
Definition call_get_current_weather (kwargs : JsonValue)
    : M OpenAIChatDelta :=
  match kwargs with
  | JDict items =>
      match unexpected_keyword items with
      | Some k =>
          raise (TypeError
            ("get_current_weather() got an unexpected keyword argument '"
               +:+ k +:+ "'"))
      | None =>
          match lookup_item "location" items with
          | None =>
              raise (TypeError
                "get_current_weather() missing 1 required positional argument: 'location'")
          | Some location =>
              ret (get_current_weather location
                     (default (JStr "celsius") (lookup_item "format" items)))
          end
      end
  | _ =>
      raise (TypeError
        ("get_current_weather() argument after ** must be a mapping, not "
           +:+ type_name kwargs))
  end.

(** [delta.role == "function" and delta.name == "get_current_weather"] *)
Definition is_weather_call (delta : OpenAIChatDelta) : bool :=
  bool_decide (delta_role delta = Some "function")
  && bool_decide (delta_name delta = Some "get_current_weather").

End Weather.

(** ** Notebook "Simple Bot with Weather Tool" *)

Module WeatherBot.
Section Notebook.

Variable llm : string -> list OpenAIChatMessage -> ModelStream.
Variable json_loads : string -> JsonValue + JSONDecodeError.
Variable json_dumps : JsonValue -> string.

(** The function mapped first over the outputs of the model: "call the
    function if the model produced a function call by parsing the json
    arguments". *)
Definition dispatch (delta : OpenAIChatDelta) : M OpenAIChatDelta :=
  if is_weather_call delta
  then kwargs <- loads json_loads (delta_content delta) ;;
       call_get_current_weather json_dumps kwargs
  else ret delta.

(** [[*memory["history"], save_message_to_memory(OpenAIChatMessage(role="user", content=user_input))]] *)
Definition weather_messages (user_input : string)
    : M (list OpenAIChatMessage) :=
  h <- get_history ;;
  m <- save_message_to_memory (mkMessage "user" user_input None) ;;
  ret (h ++ [m]).

Definition weather_chain : Chain string OpenAIChatDelta :=
  Chain.map
    (Chain.map (debug (OpenAIChatChain llm "WeatherChain" weather_messages))
               dispatch)
    update_delta_on_memory.

Definition function_reply_chain : Chain unit OpenAIChatDelta :=
  Chain.map
    (debug (OpenAIChatChain llm "FunctionReplyChain" (fun _ => get_history)))
    update_delta_on_memory.

(** The function given to [and_then]: "reply based on function result if
    last output was a function output, otherwise just re-yield the
    outputs". [list(outputs)[-1]] raises on no output. *)
Definition reply (outputs : list OpenAIChatDelta) : AsyncGen OpenAIChatDelta :=
  match last outputs with
  | None => Fail (IndexError "list index out of range")
  | Some o =>
      if bool_decide (delta_role o = Some "function")
      then function_reply_chain tt
      else as_async_generator outputs
  end.

Definition weather_bot : Chain string OpenAIChatDelta :=
  Chain.and_then weather_chain reply.

End Notebook.
End WeatherBot.

(** ** Notebook "Simple Bot with Weather Tool and Error Handling" *)

Module WeatherBotErrorHandling.
Section Notebook.

Variable llm : string -> list OpenAIChatMessage -> ModelStream.
Variable json_loads : string -> JsonValue + JSONDecodeError.
Variable json_dumps : JsonValue -> string.

(** [[*memory["history"], save_message_to_memory(OpenAIChatMessage(role="user", content=str(name_and_err[1])))]] *)
Definition error_messages (name_and_err : string * PyExn)
    : M (list OpenAIChatMessage) :=
  h <- get_history ;;
  m <- save_message_to_memory (mkMessage "user" (str (snd name_and_err)) None) ;;
  ret (h ++ [m]).

Definition function_error_chain : Chain (string * PyExn) OpenAIChatDelta :=
  OpenAIChatChain llm "FunctionErrorChain" error_messages.

(** "Try to recover from the error if it happened on the function
    calling, otherwise just re-raise it." *)
Definition error_handler (err : PyExn) : AsyncGen OpenAIChatDelta :=
  if contains "get_current_weather" (str err)
  then function_error_chain ("get_current_weather", err)
  else Fail err.

(** The mapped function: "we store the function call that the LLM made
    with its arguments in memory, then we call the function, if it was
    called of course". The saved message is a true value, so [and] goes on
    to the call. *)
Definition dispatch (delta : OpenAIChatDelta) : M OpenAIChatDelta :=
  if is_weather_call delta
  then exec save_message_to_memory
         (mkMessage "function" (delta_content delta)
                    (Some "get_current_weather")) ;;
       kwargs <- loads json_loads (delta_content delta) ;;
       call_get_current_weather json_dumps kwargs
  else ret delta.

Definition system_message : OpenAIChatMessage :=
  mkMessage "system"
    "You are a chatbot that has access to real-time weather information"
    None.

Definition weather_messages (user_input : string)
    : M (list OpenAIChatMessage) :=
  h <- get_history ;;
  m <- save_message_to_memory (mkMessage "user" user_input None) ;;
  ret (system_message :: h ++ [m]).

Definition weather_chain : Chain string OpenAIChatDelta :=
  debug
    (Chain.map
       (Chain.on_error
          (Chain.map (OpenAIChatChain llm "WeatherChain" weather_messages)
                     dispatch)
          error_handler)
       update_delta_on_memory).

Definition function_reply_chain : Chain unit OpenAIChatDelta :=
  debug
    (Chain.map
       (OpenAIChatChain llm "FunctionReplyChain" (fun _ => get_history))
       update_delta_on_memory).

Definition reply (outputs : list OpenAIChatDelta) : AsyncGen OpenAIChatDelta :=
  match last outputs with
  | None => Fail (IndexError "list index out of range")
  | Some o =>
      if bool_decide (delta_role o = Some "function")
      then function_reply_chain tt
      else as_async_generator outputs
  end.

Definition weather_bot : Chain string OpenAIChatDelta :=
  Chain.and_then weather_chain reply.

End Notebook.
End WeatherBotErrorHandling.

(** ** Notebook "Serve with FastAPI for deploying"

    [weather_bot(memory)] builds the bot of one user over the [Memory] of
    that user, which is the [history] of the state here. *)

Module ServeWithFastAPI.

(** [Memory.__init__]: the history of a new [Memory]. *)
Definition Memory_init : list OpenAIChatMessage := [].

(** The state of the server: [in_memory_database], the [Memory] of each user
    that has written, by user id; and the log of the interaction with the
    model. *)
Record Server := mkServer {
  in_memory_database : gmap string (list OpenAIChatMessage);
  server_trace : list Event
}.

(** What the client of [chat] receives: the texts streamed to it, and the
    exception that cut the stream if one did. *)
Record Response := mkResponse {
  body : list string;
  error : option PyExn
}.

Section Notebook.

Variable llm : string -> list OpenAIChatMessage -> ModelStream.
Variable json_loads : string -> JsonValue + JSONDecodeError.
Variable json_dumps : JsonValue -> string.

(** [Memory.save_message] and [Memory.update_delta] *)
Definition save_message := save_message_to_memory.
Definition update_delta := update_delta_on_memory.

Definition dispatch (delta : OpenAIChatDelta) : M OpenAIChatDelta :=
  if is_weather_call delta
  then kwargs <- loads json_loads (delta_content delta) ;;
       call_get_current_weather json_dumps kwargs
  else ret delta.

Definition weather_messages (user_input : string)
    : M (list OpenAIChatMessage) :=
  h <- get_history ;;
  m <- save_message (mkMessage "user" user_input None) ;;
  ret (h ++ [m]).

Definition weather_chain : Chain string OpenAIChatDelta :=
  Chain.map
    (Chain.map (OpenAIChatChain llm "WeatherChain" weather_messages) dispatch)
    update_delta.

Definition function_reply_chain : Chain unit OpenAIChatDelta :=
  OpenAIChatChain llm "FunctionReplyChain" (fun _ => get_history).

(** [async for output in stream:] a function output is replaced by the
    outputs of [function_reply_chain(None)], any other output is yielded. *)
Fixpoint reply_function_call (stream : AsyncGen OpenAIChatDelta)
    : AsyncGen OpenAIChatDelta :=
  match stream with
  | Stop => Stop
  | Fail e => Fail e
  | Yield output rest =>
      if bool_decide (delta_role output = Some "function")
      then then_gen (function_reply_chain tt) (reply_function_call rest)
      else Yield output (reply_function_call rest)
  | Do c k => Do c (fun x => reply_function_call (k x))
  end.

Definition weather_bot : Chain string string :=
  Chain.map
    (Chain.map (Chain.pipe weather_chain reply_function_call) update_delta)
    (fun delta => ret (delta_content delta)).

(** The endpoint [chat], for a request whose [input] and [user_id] are
    strings, served until its response has been streamed to the end (the
    bot runs while the response is sent; requests are taken one at a time
    here). [in_memory_database[user_id] = Memory()] when the user is new;
    the bot then works on [in_memory_database[user_id]], which it changes
    in place. [filter_final_output] of the library keeps the outputs of the
    bot itself, which are the outputs of the generator here. *)
Definition chat (user_input user_id : string) (s : Server)
    : Response * Server :=
  let db := match in_memory_database s !! user_id with
            | Some _ => in_memory_database s
            | None => <[user_id := Memory_init]> (in_memory_database s)
            end in
  let memory := default Memory_init (db !! user_id) in
  let o := run (weather_bot user_input) (mkWorld memory (server_trace s)) in
  (mkResponse (outputs o) (raised o),
   mkServer (<[user_id := history (final o)]> db) (trace (final o))).

End Notebook.
End ServeWithFastAPI.

(** ** Python's [json] module

    [Json.loads] and [Json.dumps] follow [json.loads] and [json.dumps] of
    CPython (the decoder with its C scanner, default arguments). A text is
    the string of its UTF-8 bytes; positions in errors count bytes, which are
    the characters of an ASCII text. A number with a fraction or an exponent
    is carried as the float of that text, and written back as that text
    (Python writes the shortest text of the float). The interpreter's limit
    on the depth of nesting is not modelled. The notebooks' code is stated
    over any [json_loads] and [json_dumps]; these two are used to run it. *)

Module Json.

Definition PResult (A : Type) : Type := (A + JSONDecodeMsg * nat)%type.

Definition is_whitespace (c : ascii) : bool :=
  match N_of_ascii c with
  | 32%N | 9%N | 10%N | 13%N => true
  | _ => false
  end.

Fixpoint skip_whitespace (s : list ascii) (pos : nat) : list ascii * nat :=
  match s with
  | c :: rest => if is_whitespace c then skip_whitespace rest (S pos) else (s, pos)
  | [] => (s, pos)
  end.

Definition is_digit (c : ascii) : bool :=
  (48 <=? N_of_ascii c)%N && (N_of_ascii c <=? 57)%N.

Definition hex_value (c : ascii) : option N :=
  let n := N_of_ascii c in
  if (48 <=? n)%N && (n <=? 57)%N then Some (n - 48)%N
  else if (97 <=? n)%N && (n <=? 102)%N then Some (n - 87)%N
  else if (65 <=? n)%N && (n <=? 70)%N then Some (n - 55)%N
  else None.

Definition hex4_value (a b c d : ascii) : option N :=
  match hex_value a, hex_value b, hex_value c, hex_value d with
  | Some x, Some y, Some z, Some t => Some (((x * 16 + y) * 16 + z) * 16 + t)%N
  | _, _, _, _ => None
  end.

Definition byte (n : N) : ascii := ascii_of_N (n mod 256).

(** The UTF-8 bytes of a code point. *)
Definition utf8_encode (cp : N) : list ascii :=
  if (cp <? 128)%N then [byte cp]
  else if (cp <? 2048)%N then
    [byte (192 + cp / 64); byte (128 + cp mod 64)]
  else if (cp <? 65536)%N then
    [byte (224 + cp / 4096); byte (128 + (cp / 64) mod 64); byte (128 + cp mod 64)]
  else
    [byte (240 + cp / 262144); byte (128 + (cp / 4096) mod 64);
     byte (128 + (cp / 64) mod 64); byte (128 + cp mod 64)].

Definition is_high_surrogate (cp : N) : bool := (55296 <=? cp)%N && (cp <=? 56319)%N.
Definition is_low_surrogate (cp : N) : bool := (56320 <=? cp)%N && (cp <=? 57343)%N.
Definition join_surrogates (hi lo : N) : N :=
  (65536 + (hi - 55296) * 1024 + (lo - 56320))%N.

Definition simple_escape (c : ascii) : option ascii :=
  match N_of_ascii c with
  | 34%N => Some (ascii_of_N 34)
  | 92%N => Some (ascii_of_N 92)
  | 47%N => Some (ascii_of_N 47)
  | 98%N => Some (ascii_of_N 8)
  | 102%N => Some (ascii_of_N 12)
  | 110%N => Some (ascii_of_N 10)
  | 114%N => Some (ascii_of_N 13)
  | 116%N => Some (ascii_of_N 9)
  | _ => None
  end.

Definition is_char (n : N) (c : ascii) : bool := (N_of_ascii c =? n)%N.

(** [scanstring]: the text after the opening quote at [begin]; [acc] holds
    the characters read so far, last one first. *)
Fixpoint scanstring (begin : nat) (s : list ascii) (pos : nat)
    (acc : list ascii) : PResult (string * list ascii * nat) :=
  match s with
  | [] => inr (UnterminatedString, begin)
  | c :: rest =>
      if is_char 34 c then inl (string_of_list_ascii (rev acc), rest, S pos)
      else if is_char 92 c then
        match rest with
        | [] => inr (UnterminatedString, begin)
        | e :: rest1 =>
            if is_char 117 e then
              match rest1 with
              | h1 :: h2 :: h3 :: h4 :: rest5 =>
                  match hex4_value h1 h2 h3 h4 with
                  | None => inr (InvalidUnicodeEscape, S pos)
                  | Some cp =>
                      match rest5 with
                      | b :: u :: g1 :: g2 :: g3 :: g4 :: ((_ :: _) as rest11) =>
                          if is_high_surrogate cp && is_char 92 b && is_char 117 u
                          then match hex4_value g1 g2 g3 g4 with
                               | None => inr (InvalidUnicodeEscape, pos + 7)
                               | Some cp2 =>
                                   if is_low_surrogate cp2
                                   then scanstring begin rest11 (pos + 12)
                                          (rev (utf8_encode (join_surrogates cp cp2)) ++ acc)
                                   else scanstring begin rest5 (pos + 6)
                                          (rev (utf8_encode cp) ++ acc)
                               end
                          else scanstring begin rest5 (pos + 6)
                                 (rev (utf8_encode cp) ++ acc)
                      | _ => scanstring begin rest5 (pos + 6)
                               (rev (utf8_encode cp) ++ acc)
                      end
                  end
              | _ => inr (InvalidUnicodeEscape, S pos)
              end
            else
              match simple_escape e with
              | Some ch => scanstring begin rest1 (pos + 2) (ch :: acc)
              | None => inr (InvalidEscape, pos)
              end
        end
      else if (N_of_ascii c <=? 31)%N then inr (InvalidControlCharacter, pos)
      else scanstring begin rest (S pos) (c :: acc)
  end.

Fixpoint span_digits (s : list ascii) : list ascii * list ascii :=
  match s with
  | c :: rest =>
      if is_digit c then let (ds, r) := span_digits rest in (c :: ds, r)
      else ([], s)
  | [] => ([], [])
  end.

Fixpoint digits_value (ds : list ascii) (acc : Z) : Z :=
  match ds with
  | [] => acc
  | d :: rest => digits_value rest (acc * 10 + Z.of_N (N_of_ascii d - 48))%Z
  end.

(** The number at the head of the text: an optional minus sign, the
    integer part ([0], or digits that do not start with [0]), an optional
    fraction (a dot and digits), an optional exponent ([e] or [E], an
    optional sign, digits). *)
Definition match_number (s : list ascii) (pos : nat)
    : option (JsonValue * list ascii * nat) :=
  let '(sign, s1) :=
    match s with
    | c :: t => if is_char 45 c then ([c], t) else ([], s)
    | [] => ([], s)
    end in
  match s1 with
  | [] => None
  | d :: t =>
      if is_digit d then
        let '(int_part, r) :=
          if is_char 48 d then ([d], t)
          else let (ds, r) := span_digits t in (d :: ds, r) in
        let '(frac, r1) :=
          match r with
          | dot :: t1 =>
              if is_char 46 dot then
                match span_digits t1 with
                | ([], _) => ([], r)
                | (fs, r') => (dot :: fs, r')
                end
              else ([], r)
          | [] => ([], r)
          end in
        let '(expo, r2) :=
          match r1 with
          | e :: t2 =>
              if is_char 101 e || is_char 69 e then
                let '(esign, t3) :=
                  match t2 with
                  | sg :: t3 => if is_char 45 sg || is_char 43 sg then ([sg], t3) else ([], t2)
                  | [] => ([], t2)
                  end in
                match span_digits t3 with
                | ([], _) => ([], r1)
                | (es, r') => (e :: esign ++ es, r')
                end
              else ([], r1)
          | [] => ([], r1)
          end in
        let text := sign ++ int_part ++ frac ++ expo in
        let value :=
          match frac, expo with
          | [], [] =>
              JInt (match sign with
                    | [] => digits_value int_part 0
                    | _ => - digits_value int_part 0
                    end)
          | _, _ => JFloat (string_of_list_ascii text)
          end in
        Some (value, r2, pos + length text)
      else None
  end.

Fixpoint starts_with (p s : list ascii) : bool :=
  match p, s with
  | [], _ => true
  | a :: p', b :: s' => if bool_decide (a = b) then starts_with p' s' else false
  | _ :: _, [] => false
  end.

Definition constants : list (string * JsonValue) :=
  [("null", JNone); ("true", JBool true); ("false", JBool false);
   ("NaN", JFloat "nan"); ("Infinity", JFloat "inf"); ("-Infinity", JFloat "-inf")].

Fixpoint match_constant (cs : list (string * JsonValue)) (s : list ascii)
    (pos : nat) : option (JsonValue * list ascii * nat) :=
  match cs with
  | [] => None
  | (name, v) :: rest =>
      if starts_with (list_ascii_of_string name) s
      then Some (v, drop (String.length name) s, pos + String.length name)
      else match_constant rest s pos
  end.

(** [d[key] = value] on the items of a dict. *)
Fixpoint dict_set (key : string) (value : JsonValue)
    (items : list (string * JsonValue)) : list (string * JsonValue) :=
  match items with
  | [] => [(key, value)]
  | (k, v) :: rest =>
      if bool_decide (k = key) then (k, value) :: rest
      else (k, v) :: dict_set key value rest
  end.

(** [scan_once], [JSONObject] and [JSONArray] of the decoder. [fuel]
    bounds the depth of the calls; [loads] starts with two per character of
    the text, plus two. *)
Fixpoint scan_once (fuel : nat) (s : list ascii) (pos : nat)
    : PResult (JsonValue * list ascii * nat) :=
  match fuel with
  | 0 => inr (ExpectingValue, pos)
  | S fuel' =>
      match s with
      | [] => inr (ExpectingValue, pos)
      | c :: rest =>
          if is_char 34 c then
            match scanstring pos rest (S pos) [] with
            | inl (text, r, p) => inl (JStr text, r, p)
            | inr e => inr e
            end
          else if is_char 123 c then
            let (r, p) := skip_whitespace rest (S pos) in
            match r with
            | c' :: r' =>
                if is_char 125 c' then inl (JDict [], r', S p)
                else parse_members fuel' r p []
            | [] => parse_members fuel' r p []
            end
          else if is_char 91 c then
            let (r, p) := skip_whitespace rest (S pos) in
            match r with
            | c' :: r' =>
                if is_char 93 c' then inl (JList [], r', S p)
                else parse_elements fuel' r p []
            | [] => parse_elements fuel' r p []
            end
          else
            match match_constant constants s pos with
            | Some found => inl found
            | None =>
                match match_number s pos with
                | Some found => inl found
                | None => inr (ExpectingValue, pos)
                end
            end
      end
  end
with parse_members (fuel : nat) (s : list ascii) (pos : nat)
    (acc : list (string * JsonValue))
    : PResult (JsonValue * list ascii * nat) :=
  match fuel with
  | 0 => inr (ExpectingValue, pos)
  | S fuel' =>
      match s with
      | q :: rest =>
          if is_char 34 q then
            match scanstring pos rest (S pos) [] with
            | inr e => inr e
            | inl (key, r, p) =>
                let (r1, p1) := skip_whitespace r p in
                match r1 with
                | colon :: r2 =>
                    if is_char 58 colon then
                      let (r3, p3) := skip_whitespace r2 (S p1) in
                      match scan_once fuel' r3 p3 with
                      | inr e => inr e
                      | inl (v, r4, p4) =>
                          let (r5, p5) := skip_whitespace r4 p4 in
                          match r5 with
                          | sep :: r6 =>
                              if is_char 125 sep
                              then inl (JDict (dict_set key v acc), r6, S p5)
                              else if is_char 44 sep then
                                let (r7, p7) := skip_whitespace r6 (S p5) in
                                parse_members fuel' r7 p7 (dict_set key v acc)
                              else inr (ExpectingCommaDelimiter, p5)
                          | [] => inr (ExpectingCommaDelimiter, p5)
                          end
                      end
                    else inr (ExpectingColonDelimiter, p1)
                | [] => inr (ExpectingColonDelimiter, p1)
                end
            end
          else inr (ExpectingPropertyName, pos)
      | [] => inr (ExpectingPropertyName, pos)
      end
  end
with parse_elements (fuel : nat) (s : list ascii) (pos : nat)
    (acc : list JsonValue) : PResult (JsonValue * list ascii * nat) :=
  match fuel with
  | 0 => inr (ExpectingValue, pos)
  | S fuel' =>
      match scan_once fuel' s pos with
      | inr e => inr e
      | inl (v, r, p) =>
          let (r1, p1) := skip_whitespace r p in
          match r1 with
          | sep :: r2 =>
              if is_char 93 sep then inl (JList (acc ++ [v]), r2, S p1)
              else if is_char 44 sep then
                let (r3, p3) := skip_whitespace r2 (S p1) in
                parse_elements fuel' r3 p3 (acc ++ [v])
              else inr (ExpectingCommaDelimiter, p1)
          | [] => inr (ExpectingCommaDelimiter, p1)
          end
      end
  end.

Definition is_newline (c : ascii) : bool := is_char 10 c.

(** [doc.count("\n", 0, pos) + 1] *)
Definition lineno (doc : list ascii) (pos : nat) : nat :=
  length (filter (fun c => is_newline c = true) (take pos doc)) + 1.

(** [pos - doc.rindex("\n", 0, pos)], or [pos + 1] without a newline. *)
Fixpoint after_last_newline (s : list ascii) (n : nat) : nat :=
  match s with
  | [] => n
  | c :: rest => after_last_newline rest (if is_newline c then 0 else S n)
  end.

Definition colno (doc : list ascii) (pos : nat) : nat :=
  after_last_newline (take pos doc) 0 + 1.

Definition has_bom (s : list ascii) : bool :=
  starts_with [ascii_of_N 239; ascii_of_N 187; ascii_of_N 191] s.

(** [json.loads(text)] *)
Definition loads (text : string) : JsonValue + JSONDecodeError :=
  let doc := list_ascii_of_string text in
  let scanned : PResult JsonValue :=
    if has_bom doc then inr (UnexpectedBOM, 0)
    else
      let (s, p) := skip_whitespace doc 0 in
      match scan_once (2 * length doc + 2) s p with
      | inr e => inr e
      | inl (v, r, p1) =>
          match skip_whitespace r p1 with
          | ([], _) => inl v
          | (_ :: _, p2) => inr (ExtraData, p2)
          end
      end in
  match scanned with
  | inl v => inl v
  | inr (msg, pos) =>
      inr (mkJSONDecodeError msg (lineno doc pos) (colno doc pos) pos)
  end.

(** *** [json.dumps] *)

Definition hex_digit (n : N) : ascii :=
  if (n <? 10)%N then ascii_of_N (48 + n) else ascii_of_N (87 + n).

(** ["\\u{0:04x}"] *)
Definition u_escape (cp : N) : list ascii :=
  [ascii_of_N 92; ascii_of_N 117;
   hex_digit ((cp / 4096) mod 16); hex_digit ((cp / 256) mod 16);
   hex_digit ((cp / 16) mod 16); hex_digit (cp mod 16)].

(** The escape of a code point that is not written as it is. *)
Definition escape_code_point (cp : N) : list ascii :=
  if (cp <? 65536)%N then u_escape cp
  else u_escape (55296 + (cp - 65536) / 1024)
         ++ u_escape (56320 + (cp - 65536) mod 1024).

Definition is_continuation (c : ascii) : bool :=
  (128 <=? N_of_ascii c)%N && (N_of_ascii c <=? 191)%N.

Definition low6 (c : ascii) : N := (N_of_ascii c mod 64)%N.

(** [encode_basestring_ascii] without the quotes. *)
Fixpoint escape_ascii (s : list ascii) : list ascii :=
  match s with
  | [] => []
  | c :: rest =>
      let n := N_of_ascii c in
      if (n =? 34)%N then ascii_of_N 92 :: ascii_of_N 34 :: escape_ascii rest
      else if (n =? 92)%N then ascii_of_N 92 :: ascii_of_N 92 :: escape_ascii rest
      else if (n =? 10)%N then ascii_of_N 92 :: ascii_of_N 110 :: escape_ascii rest
      else if (n =? 13)%N then ascii_of_N 92 :: ascii_of_N 114 :: escape_ascii rest
      else if (n =? 9)%N then ascii_of_N 92 :: ascii_of_N 116 :: escape_ascii rest
      else if (n =? 12)%N then ascii_of_N 92 :: ascii_of_N 102 :: escape_ascii rest
      else if (n =? 8)%N then ascii_of_N 92 :: ascii_of_N 98 :: escape_ascii rest
      else if (32 <=? n)%N && (n <=? 126)%N then c :: escape_ascii rest
      else if (n <? 128)%N then u_escape n ++ escape_ascii rest
      else
        match rest with
        | c1 :: rest1 =>
            if (192 <=? n)%N && (n <? 224)%N && is_continuation c1 then
              escape_code_point ((n mod 32) * 64 + low6 c1) ++ escape_ascii rest1
            else
              match rest1 with
              | c2 :: rest2 =>
                  if (224 <=? n)%N && (n <? 240)%N && is_continuation c1
                     && is_continuation c2 then
                    escape_code_point (((n mod 16) * 64 + low6 c1) * 64 + low6 c2)
                      ++ escape_ascii rest2
                  else
                    match rest2 with
                    | c3 :: rest3 =>
                        if (240 <=? n)%N && (n <? 248)%N && is_continuation c1
                           && is_continuation c2 && is_continuation c3 then
                          escape_code_point
                            ((((n mod 8) * 64 + low6 c1) * 64 + low6 c2) * 64 + low6 c3)
                            ++ escape_ascii rest3
                        else u_escape n ++ escape_ascii rest
                    | [] => u_escape n ++ escape_ascii rest
                    end
              | [] => u_escape n ++ escape_ascii rest
              end
        | [] => u_escape n
        end
  end.

Definition encode_string (s : string) : string :=
  String (ascii_of_N 34)
    (string_of_list_ascii (escape_ascii (list_ascii_of_string s))
       +:+ String (ascii_of_N 34) EmptyString).

Definition int_text (n : Z) : string := NilEmpty.string_of_int (Z.to_int n).

Definition float_text (text : string) : string :=
  if bool_decide (text = "nan") then "NaN"
  else if bool_decide (text = "inf") then "Infinity"
  else if bool_decide (text = "-inf") then "-Infinity"
  else text.

Fixpoint join (sep : string) (parts : list string) : string :=
  match parts with
  | [] => EmptyString
  | [p] => p
  | p :: rest => p +:+ sep +:+ join sep rest
  end.

(** [json.dumps(obj)]: separators [", "] and [": "], ASCII only. *)
Fixpoint dumps (obj : JsonValue) : string :=
  match obj with
  | JNone => "null"
  | JBool true => "true"
  | JBool false => "false"
  | JInt n => int_text n
  | JFloat text => float_text text
  | JStr s => encode_string s
  | JList items => "[" +:+ join ", " (List.map dumps items) +:+ "]"
  | JDict items =>
      "{" +:+ join ", "
                (List.map (fun kv => encode_string (fst kv) +:+ ": " +:+ dumps (snd kv))
                          items)
          +:+ "}"
  end.

End Json.


(** ** Notions used to state the properties *)

(** *** The reducer and the stages as functions *)

(** The history that [update_delta_on_memory delta] leaves when it runs on
    the history [store]. *)
Definition fold_delta (store : list OpenAIChatMessage) (delta : OpenAIChatDelta)
    : list OpenAIChatMessage :=
  history (snd (update_delta_on_memory delta (mkWorld store []))).

(** The concatenation of the content fragments of deltas, in order. *)
Definition contents (ds : list OpenAIChatDelta) : string :=
  foldr (fun d acc => delta_content d +:+ acc) EmptyString ds.

(** [for delta in ds: update_delta_on_memory(delta)] *)
Definition fold_all (ds : list OpenAIChatDelta) (w : World)
    : Outcome OpenAIChatDelta :=
  run (Chain.map_gen update_delta_on_memory (as_async_generator ds)) w.

(** What the dispatch of a delta gives: the call of [get_current_weather]
    on the parsed content for a call of that function, the delta itself
    otherwise. It depends on the delta only. *)
Definition dispatch_result (json_loads : string -> JsonValue + JSONDecodeError)
    (json_dumps : JsonValue -> string) (delta : OpenAIChatDelta)
    : Result OpenAIChatDelta :=
  fst (WeatherBot.dispatch json_loads json_dumps delta (mkWorld [] [])).

(** The deltas of the model going through the dispatch and the reducer of
    the first notebook. *)
Definition first_stage_loop (json_loads : string -> JsonValue + JSONDecodeError)
    (json_dumps : JsonValue -> string)
    (ds : list OpenAIChatDelta) (failure : option PyExn)
    : AsyncGen OpenAIChatDelta :=
  Chain.map_gen update_delta_on_memory
    (Chain.map_gen (WeatherBot.dispatch json_loads json_dumps)
       (stream_gen "WeatherChain" ds failure)).

(** The deltas of the model going through the pipeline of the FastAPI
    notebook. *)
Definition serving_loop (llm : string -> list OpenAIChatMessage -> ModelStream)
    (json_loads : string -> JsonValue + JSONDecodeError)
    (json_dumps : JsonValue -> string)
    (ds : list OpenAIChatDelta) (failure : option PyExn) : AsyncGen string :=
  Chain.map_gen (fun delta => ret (delta_content delta))
    (Chain.map_gen update_delta_on_memory
       (ServeWithFastAPI.reply_function_call llm
          (first_stage_loop json_loads json_dumps ds failure))).

(** The contents of the messages of a history, one after the other. *)
Definition all_text (h : list OpenAIChatMessage) : string :=
  foldr (fun m acc => msg_content m +:+ acc) EmptyString h.

(** No two neighbours in the history have the same role. *)
Fixpoint alternating (h : list OpenAIChatMessage) : bool :=
  match h with
  | [] => true
  | a :: rest =>
      match rest with
      | [] => true
      | b :: _ => bool_decide (msg_role a <> msg_role b) && alternating rest
      end
  end.

(** The content of each delta twice, in the order of the deltas. *)
Definition contents_twice (ds : list OpenAIChatDelta) : string :=
  foldr (fun d acc => delta_content d +:+ delta_content d +:+ acc) EmptyString ds.

(** The history of a turn on the history [h]: the messages of [h], then the
    message of the user, whose content the reducer may have extended, then
    what the turn added. *)
Definition turn_history (h : list OpenAIChatMessage) (user_input : string)
    (h' : list OpenAIChatMessage) : Prop :=
  exists suffix added,
    h' = h ++ mkMessage "user" (user_input +:+ suffix) None :: added.

(** The log of a turn on the log [log]: the events of [log], then the call
    of the model that opens the turn, then the rest. *)
Definition turn_log (log : list Event) (context : list OpenAIChatMessage)
    (log' : list Event) : Prop :=
  exists events, log' = log ++ ModelCall "WeatherChain" context :: events.

(** *** The log of the interaction with the model *)

(** The model calls of a log, in the order they were issued. *)
Definition model_calls (log : list Event)
    : list (string * list OpenAIChatMessage) :=
  omap (fun ev => match ev with
                  | ModelCall chain msgs => Some (chain, msgs)
                  | _ => None
                  end) log.

(** The calls of one chain. *)
Definition calls_of (chain : string) (log : list Event)
    : list (list OpenAIChatMessage) :=
  omap (fun ev => match ev with
                  | ModelCall c msgs => if bool_decide (c = chain) then Some msgs else None
                  | _ => None
                  end) log.

(** The events that close the log of a stream: its end, or nothing when it
    failed. *)
Definition stream_end (name : string) (failure : option PyExn) : list Event :=
  match failure with
  | None => [StreamEnd name]
  | Some _ => []
  end.

(** The event is a call of the follow-up chain. *)
Definition is_follow_up (ev : Event) : bool :=
  match ev with
  | ModelCall chain _ => bool_decide (chain = "FunctionReplyChain")
  | _ => false
  end.

(** No follow-up call opens the log. *)
Definition opens_quietly (log : list Event) : Prop :=
  match log with
  | [] => True
  | ev :: _ => is_follow_up ev = false
  end.

(** Each follow-up call of the log comes right after an event with [P]. *)
Definition preceded (P : Event -> Prop) (log : list Event) : Prop :=
  forall pre msgs post,
    log = pre ++ ModelCall "FunctionReplyChain" msgs :: post ->
    exists pre' ev, pre = pre' ++ [ev] /\ P ev.

(** The consumption of a function delta of the first stream. *)
Definition function_chunk (ev : Event) : Prop :=
  exists d, ev = Chunk "WeatherChain" d /\ delta_role d = Some "function".

(** *** Invariants of generators *)

(** A generator keeps [I] when each piece of code it runs does. *)
Fixpoint keeps {A} (I : World -> Prop) (g : AsyncGen A) : Prop :=
  match g with
  | Stop => True
  | Fail _ => True
  | Yield _ rest => keeps I rest
  | Do c k => (forall w, I w -> I (snd (c w))) /\ (forall x, keeps I (k x))
  end.

(** A generator establishes [I] when the code it runs first leaves [I]
    from any state and what follows keeps it. *)
Definition establishes {A} (I : World -> Prop) (g : AsyncGen A) : Prop :=
  match g with
  | Do c k => (forall w, I (snd (c w))) /\ (forall x, keeps I (k x))
  | _ => False
  end.

(** Python code that does not look at the log of the interaction: what it
    returns or raises and the history it leaves are the same under any
    log. *)
Definition log_blind {X} (c : M X) : Prop :=
  forall h t t',
    fst (c (mkWorld h t)) = fst (c (mkWorld h t')) /\
    history (snd (c (mkWorld h t))) = history (snd (c (mkWorld h t'))).

(** A generator all of whose code is so. *)
Fixpoint blind {A} (g : AsyncGen A) : Prop :=
  match g with
  | Stop => True
  | Fail _ => True
  | Yield _ rest => blind rest
  | Do c k => log_blind c /\ (forall x, blind (k x))
  end.

(** The text has the character [_]. *)
Fixpoint has_underscore (s : string) : bool :=
  match s with
  | EmptyString => false
  | String c rest => (N_of_ascii c =? 95)%N || has_underscore rest
  end.

(** *** Scripted models and the scenario of Amsterdam *)

(** The double quote, and a text between double quotes. *)
Definition quote : string := String (ascii_of_N 34) EmptyString.

Definition quoted (s : string) : string := quote +:+ s +:+ quote.

(** The arguments of the call for Amsterdam, a JSON object with the one key
    [location]. *)
Definition amsterdam_arguments : string :=
  "{" +:+ quoted "location" +:+ ":" +:+ quoted "Amsterdam" +:+ "}".

(** The function delta of a call of [get_current_weather]. *)
Definition weather_call (arguments : string) : OpenAIChatDelta :=
  mkDelta (Some "function") arguments (Some "get_current_weather").

(** The result of the weather function for Amsterdam. *)
Definition amsterdam_result : JsonValue :=
  JDict [("location", JStr "Amsterdam");
         ("forecast", JStr "sunny");
         ("temperature", JStr "25 C")].

(** The text [json.dumps] writes for it. *)
Definition amsterdam_result_text : string :=
  "{" +:+ quoted "location" +:+ ": " +:+ quoted "Amsterdam" +:+ ", "
      +:+ quoted "forecast" +:+ ": " +:+ quoted "sunny" +:+ ", "
      +:+ quoted "temperature" +:+ ": " +:+ quoted "25 C" +:+ "}".

(** A model that answers each chain with a fixed stream. *)
Definition scripted (first reply recovery : list OpenAIChatDelta)
    : string -> list OpenAIChatMessage -> ModelStream :=
  fun chain _ =>
    if bool_decide (chain = "WeatherChain") then mkStream first None
    else if bool_decide (chain = "FunctionReplyChain") then mkStream reply None
    else mkStream recovery None.

(** * Properties *)

(** ** The reducer *)

#[local] Arguments String.append !s1 s2 : simpl nomatch.

Lemma append_empty (s : string) : s +:+ EmptyString = s.
Proof. induction s as [|c s IH]; simpl; [reflexivity | now rewrite IH]. Qed.

Lemma append_assoc (a b c : string) : (a +:+ b) +:+ c = a +:+ (b +:+ c).
Proof. induction a as [|x a IH]; simpl; [reflexivity | now rewrite IH]. Qed.

Lemma update_empty (delta : OpenAIChatDelta) (w : World) :
  history w = [] ->
  update_delta_on_memory delta w = (Raise (IndexError "list index out of range"), w).
Proof.
  intros Hw. unfold update_delta_on_memory, bind, get_history. now rewrite Hw.
Qed.

(** On a history that ends with [m], a delta of another role appends a
    message. *)
Lemma update_append (delta : OpenAIChatDelta) (w : World) init m r :
  history w = init ++ [m] ->
  delta_role delta = Some r ->
  msg_role m <> r ->
  update_delta_on_memory delta w =
    (Ok delta,
     mkWorld (history w ++ [mkMessage r (delta_content delta) (delta_name delta)])
             (trace w)).
Proof.
  intros Hw Hr Hne.
  unfold update_delta_on_memory, bind, get_history, set_history, ret.
  rewrite Hw, last_snoc, Hr.
  rewrite bool_decide_eq_true_2 by assumption. reflexivity.
Qed.

(** On a history that ends with [m], a delta without role or of the role of
    [m] extends the content of [m]. *)
Lemma update_extend (delta : OpenAIChatDelta) (w : World) init m :
  history w = init ++ [m] ->
  delta_role delta = None \/ delta_role delta = Some (msg_role m) ->
  update_delta_on_memory delta w =
    (Ok delta,
     mkWorld (init ++ [extend_content (delta_content delta) m]) (trace w)).
Proof.
  intros Hw Hr.
  unfold update_delta_on_memory, bind, get_history, set_history, ret.
  rewrite Hw, last_snoc, removelast_last.
  destruct Hr as [-> | ->]; [reflexivity |].
  rewrite bool_decide_eq_false_2 by (intros H; now apply H). reflexivity.
Qed.

Lemma snoc_cases {A} (l : list A) : l = [] \/ exists init x, l = init ++ [x].
Proof.
  destruct (last l) as [x|] eqn:E.
  - right. apply last_Some in E as [init ->]. eauto.
  - left. now apply last_None.
Qed.

(** On a non-empty history the reducer returns its argument and changes the
    history only. *)
Lemma update_ok (delta : OpenAIChatDelta) (w : World) :
  history w <> [] ->
  update_delta_on_memory delta w =
    (Ok delta, mkWorld (fold_delta (history w) delta) (trace w)).
Proof.
  intros Hne. unfold fold_delta.
  destruct (snoc_cases (history w)) as [? | (init & m & Hw)]; [contradiction |].
  destruct (delta_role delta) as [r|] eqn:Hr.
  - destruct (decide (msg_role m = r)) as [<- | Hmr].
    + rewrite (update_extend delta w init m), (update_extend delta (mkWorld _ _) init m);
        auto.
    + rewrite (update_append delta w init m r), (update_append delta (mkWorld _ _) init m r);
        auto.
  - rewrite (update_extend delta w init m), (update_extend delta (mkWorld _ _) init m);
      auto.
Qed.

Lemma fold_delta_append store init m delta r :
  store = init ++ [m] -> delta_role delta = Some r -> msg_role m <> r ->
  fold_delta store delta =
    store ++ [mkMessage r (delta_content delta) (delta_name delta)].
Proof.
  intros Hs Hr Hne. unfold fold_delta.
  now rewrite (update_append delta (mkWorld store []) init m r).
Qed.

Lemma fold_delta_extend store init m delta :
  store = init ++ [m] ->
  delta_role delta = None \/ delta_role delta = Some (msg_role m) ->
  fold_delta store delta = init ++ [extend_content (delta_content delta) m].
Proof.
  intros Hs Hr. unfold fold_delta.
  now rewrite (update_extend delta (mkWorld store []) init m).
Qed.

Lemma fold_delta_nonempty store delta : store <> [] -> fold_delta store delta <> [].
Proof.
  intros Hne.
  destruct (snoc_cases store) as [? | (init & m & Hs)]; [contradiction |].
  destruct (delta_role delta) as [r|] eqn:Hr.
  - destruct (decide (msg_role m = r)) as [<- | Hmr].
    + rewrite (fold_delta_extend store init m) by auto. now destruct init.
    + rewrite (fold_delta_append store init m delta r) by auto.
      now destruct store.
  - rewrite (fold_delta_extend store init m) by auto. now destruct init.
Qed.

Lemma extend_content_empty m : extend_content EmptyString m = m.
Proof. destruct m. unfold extend_content. simpl. now rewrite append_empty. Qed.

Lemma extend_content_twice a b m :
  extend_content b (extend_content a m) = extend_content (a +:+ b) m.
Proof. unfold extend_content. simpl. now rewrite append_assoc. Qed.

Lemma fold_all_nil w : fold_all [] w = mkOutcome [] None w.
Proof. reflexivity. Qed.

Lemma fold_all_cons d ds w :
  fold_all (d :: ds) w =
    match update_delta_on_memory d w with
    | (Ok d', w') =>
        let o := fold_all ds w' in
        mkOutcome (d' :: outputs o) (raised o) (final o)
    | (Raise e, w') => mkOutcome [] (Some e) w'
    end.
Proof.
  unfold fold_all. simpl. destruct (update_delta_on_memory d w) as [[d'|e] w']; reflexivity.
Qed.

(** Deltas without role, or of the role of the last message, all go into
    that message, in the order they come. *)
Lemma fold_all_same_message ds : forall w init m,
  history w = init ++ [m] ->
  Forall (fun d => delta_role d = None \/ delta_role d = Some (msg_role m)) ds ->
  fold_all ds w =
    mkOutcome ds None (mkWorld (init ++ [extend_content (contents ds) m]) (trace w)).
Proof.
  induction ds as [|d ds IH]; intros w init m Hw Hall.
  - rewrite fold_all_nil. simpl. rewrite extend_content_empty, <- Hw. now destruct w.
  - apply Forall_cons in Hall as [Hd Hds].
    rewrite fold_all_cons, (update_extend d w init m Hw Hd).
    rewrite (IH _ init (extend_content (delta_content d) m)); [| reflexivity | exact Hds].
    simpl. now rewrite extend_content_twice.
Qed.

(** C2. Role-change reduction: a delta whose role is set and differs from
    the role of the last message of a non-empty history appends exactly one
    message, with the role, name and content of the delta; the history grows
    by one and the messages it held stay as they were. *)
Theorem role_change_appends (d : OpenAIChatDelta) (w : World) m r :
  last (history w) = Some m ->
  delta_role d = Some r ->
  r <> msg_role m ->
  exists w',
    update_delta_on_memory d w = (Ok d, w') /\
    history w' = history w ++ [mkMessage r (delta_content d) (delta_name d)] /\
    length (history w') = S (length (history w)) /\
    (forall i x, history w !! i = Some x -> history w' !! i = Some x).
Proof.
  intros Hlast Hr Hne.
  apply last_Some in Hlast as [init Hw].
  eexists. split; [apply (update_append d w init m r); auto |].
  simpl. split; [reflexivity |]. split.
  - rewrite length_app. simpl. lia.
  - intros i x Hi. now apply lookup_app_l_Some.
Qed.

Lemma role_change_appends_witness :
  exists w',
    update_delta_on_memory (mkDelta (Some "assistant") "Hello!" None)
      (mkWorld [mkMessage "user" "hi there" None] []) = (Ok (mkDelta (Some "assistant") "Hello!" None), w') /\
    history w' = [mkMessage "user" "hi there" None; mkMessage "assistant" "Hello!" None].
Proof.
  destruct (role_change_appends (mkDelta (Some "assistant") "Hello!" None)
              (mkWorld [mkMessage "user" "hi there" None] [])
              (mkMessage "user" "hi there" None) "assistant")
    as (w' & Hrun & Hh & _); [reflexivity | reflexivity | discriminate |].
  exists w'. split; [exact Hrun | exact Hh].
Defined.

(** C3. Same-role concatenation: deltas that all carry one role [r], folded
    in the order they come into a history whose last message has another
    role, give exactly one new message; its content is the concatenation of
    the content fragments in that order, and the history has grown by one. *)
Theorem same_role_concatenation (d : OpenAIChatDelta) ds r (w : World) m :
  last (history w) = Some m ->
  msg_role m <> r ->
  Forall (fun x => delta_role x = Some r) (d :: ds) ->
  let o := fold_all (d :: ds) w in
  raised o = None /\
  outputs o = d :: ds /\
  history (final o) =
    history w ++ [mkMessage r (contents (d :: ds)) (delta_name d)] /\
  length (history (final o)) = S (length (history w)).
Proof.
  intros Hlast Hne Hall o. subst o.
  apply last_Some in Hlast as [init Hw].
  apply Forall_cons in Hall as [Hd Hds].
  rewrite fold_all_cons, (update_append d w init m r Hw Hd Hne).
  rewrite (fold_all_same_message ds _ (history w)
             (mkMessage r (delta_content d) (delta_name d))).
  - simpl. repeat split; try reflexivity. rewrite length_app. simpl. lia.
  - reflexivity.
  - simpl. eapply Forall_impl; [exact Hds |]. simpl. auto.
Qed.

Lemma same_role_concatenation_witness :
  let o := fold_all [mkDelta (Some "assistant") "Hel" None;
                     mkDelta (Some "assistant") "lo" None;
                     mkDelta (Some "assistant") "!" None]
                    (mkWorld [mkMessage "user" "hi there" None] []) in
  raised o = None /\
  history (final o) =
    [mkMessage "user" "hi there" None; mkMessage "assistant" "Hello!" None].
Proof.
  pose proof (same_role_concatenation
                (mkDelta (Some "assistant") "Hel" None)
                [mkDelta (Some "assistant") "lo" None;
                 mkDelta (Some "assistant") "!" None]
                "assistant"
                (mkWorld [mkMessage "user" "hi there" None] [])
                (mkMessage "user" "hi there" None)) as H.
  destruct H as (Hr & _ & Hh & _).
  - reflexivity.
  - discriminate.
  - repeat constructor.
  - split; [exact Hr | exact Hh].
Defined.

(** C8. Append-or-extend: on a non-empty history the reducer either appends
    one message at the end or extends the content of the last message by the
    content of the delta; every message before the last one is unchanged, no
    message is removed and the order is kept. *)
Theorem append_or_extend (d : OpenAIChatDelta) (w : World) :
  history w <> [] ->
  exists w' init m,
    update_delta_on_memory d w = (Ok d, w') /\
    history w = init ++ [m] /\
    ((exists new, history w' = history w ++ [new]) \/
     history w' = init ++ [extend_content (delta_content d) m]) /\
    (forall i, i < length init -> history w' !! i = history w !! i) /\
    (exists suffix, history w' !! length init = Some (extend_content suffix m)) /\
    length (history w) <= length (history w').
Proof.
  intros Hne.
  destruct (snoc_cases (history w)) as [? | (init & m & Hw)]; [contradiction |].
  assert (Hcases :
    (exists r, delta_role d = Some r /\ msg_role m <> r) \/
    (delta_role d = None \/ delta_role d = Some (msg_role m))).
  { destruct (delta_role d) as [r|]; [| auto].
    destruct (decide (msg_role m = r)) as [<- | Hmr]; [auto | left; eauto]. }
  destruct Hcases as [(r & Hr & Hmr) | Hsame].
  - eexists _, init, m. split; [apply (update_append d w init m r); auto |].
    simpl. split; [exact Hw |]. split; [left; eauto |]. rewrite Hw. repeat split.
    + intros i Hi. rewrite <- !app_assoc. now rewrite !lookup_app_l.
    + exists EmptyString. rewrite extend_content_empty, <- app_assoc.
      rewrite lookup_app_r by lia. now rewrite Nat.sub_diag.
    + rewrite !length_app. simpl. lia.
  - eexists _, init, m. split; [apply (update_extend d w init m); auto |].
    simpl. split; [exact Hw |]. split; [now right |]. rewrite Hw. repeat split.
    + intros i Hi. now rewrite !lookup_app_l.
    + exists (delta_content d). rewrite lookup_app_r by lia. now rewrite Nat.sub_diag.
    + rewrite !length_app. simpl. lia.
Qed.

Lemma append_or_extend_witness :
  exists w' init m,
    update_delta_on_memory (mkDelta None " there" None)
      (mkWorld [mkMessage "user" "hi" None; mkMessage "assistant" "Hello" None] [])
      = (Ok (mkDelta None " there" None), w') /\
    [mkMessage "user" "hi" None; mkMessage "assistant" "Hello" None] = init ++ [m] /\
    length [mkMessage "user" "hi" None; mkMessage "assistant" "Hello" None]
      <= length (history w').
Proof.
  destruct (append_or_extend (mkDelta None " there" None)
              (mkWorld [mkMessage "user" "hi" None; mkMessage "assistant" "Hello" None] []))
    as (w' & init & m & Hrun & Hw & _ & _ & _ & Hlen); [discriminate |].
  exists w', init, m. repeat split; assumption.
Defined.

(** ** Generators *)

Lemma run_keeps {A} (I : World -> Prop) (g : AsyncGen A) : forall w,
  keeps I g -> I w -> I (final (run g w)).
Proof.
  induction g as [| e | a rest IH | X c k IH]; intros w Hk Hw; simpl in *; auto.
  destruct Hk as [Hc Hk]. specialize (Hc w Hw).
  destruct (c w) as [[x|e] w']; simpl in *; auto.
Qed.

Lemma keeps_map_gen {A B} (I : World -> Prop) (f : A -> M B) (g : AsyncGen A) :
  (forall a w, I w -> I (snd (f a w))) ->
  keeps I g -> keeps I (Chain.map_gen f g).
Proof.
  intros Hf. induction g as [| e | a rest IH | X c k IH]; simpl; auto.
  intros [Hc Hk]. split; auto.
Qed.

Lemma keeps_on_error_gen {A} (I : World -> Prop) (g : AsyncGen A) h :
  (forall e, keeps I (h e)) ->
  keeps I g -> keeps I (Chain.on_error_gen g h).
Proof.
  intros Hh. induction g as [| e | a rest IH | X c k IH]; simpl; auto.
  intros [Hc Hk]. split.
  - intros w Hw. specialize (Hc w Hw). unfold try. now destruct (c w).
  - intros [x|e]; auto.
Qed.

Lemma keeps_then_gen {A} (I : World -> Prop) (g1 g2 : AsyncGen A) :
  keeps I g1 -> keeps I g2 -> keeps I (then_gen g1 g2).
Proof.
  intros H1 H2. induction g1 as [| e | a rest IH | X c k IH]; simpl in *; auto.
  destruct H1 as [Hc Hk]. split; auto.
Qed.

Lemma keeps_stream_gen (I : World -> Prop) name ds failure :
  (forall ev w, I w -> I (snd (emit ev w))) ->
  keeps I (stream_gen name ds failure).
Proof.
  intros He. induction ds as [|d ds IH]; simpl.
  - destruct failure; simpl; [exact Logic.I |].
    split; [intros w Hw; exact (He (StreamEnd name) w Hw) | auto].
  - split; [intros w Hw; exact (He (Chunk name d) w Hw) | intros _; exact IH].
Qed.

Lemma run_establishes {A} (I : World -> Prop) (g : AsyncGen A) w :
  establishes I g -> I (final (run g w)).
Proof.
  destruct g as [| e | a rest | X c k]; simpl; try contradiction.
  intros [Hc Hk]. specialize (Hc w).
  destruct (c w) as [[x|e] w']; simpl in *; [| exact Hc].
  now apply run_keeps.
Qed.

Lemma establishes_map_gen {A B} (I : World -> Prop) (f : A -> M B) (g : AsyncGen A) :
  (forall a w, I w -> I (snd (f a w))) ->
  establishes I g -> establishes I (Chain.map_gen f g).
Proof.
  intros Hf. destruct g as [| e | a rest | X c k]; simpl; try contradiction.
  intros [Hc Hk]. split; [exact Hc |]. intros x. now apply keeps_map_gen.
Qed.

Lemma establishes_on_error_gen {A} (I : World -> Prop) (g : AsyncGen A) h :
  (forall e, keeps I (h e)) ->
  establishes I g -> establishes I (Chain.on_error_gen g h).
Proof.
  intros Hh. destruct g as [| e | a rest | X c k]; simpl; try contradiction.
  intros [Hc Hk]. split.
  - intros w. specialize (Hc w). unfold try. now destruct (c w).
  - intros [x|e]; [now apply keeps_on_error_gen | apply Hh].
Qed.

(** [and_then]: the first generator is drained; if it ended without
    exception the next function runs on all its outputs, from the state it
    left. *)
Lemma run_collect_then {A B} (g : AsyncGen A) (next : list A -> AsyncGen B) :
  forall acc w,
    run (Chain.collect_then g acc next) w =
      match raised (run g w) with
      | None => run (next (acc ++ outputs (run g w))) (final (run g w))
      | Some e => mkOutcome [] (Some e) (final (run g w))
      end.
Proof.
  induction g as [| e | a rest IH | X c k IH]; intros acc w; simpl.
  - now rewrite app_nil_r.
  - reflexivity.
  - rewrite IH. now rewrite <- app_assoc.
  - destruct (c w) as [[x|e] w']; simpl; [apply IH | reflexivity].
Qed.

(** [on_error]: the outputs before an exception are kept and the handler
    goes on from the state the exception left. *)
Lemma run_on_error_gen {A} (g : AsyncGen A) (h : PyExn -> AsyncGen A) :
  forall w,
    run (Chain.on_error_gen g h) w =
      match raised (run g w) with
      | None => run g w
      | Some e =>
          let o := run (h e) (final (run g w)) in
          mkOutcome (outputs (run g w) ++ outputs o) (raised o) (final o)
      end.
Proof.
  induction g as [| e | a rest IH | X c k IH]; intros w; simpl.
  - reflexivity.
  - now destruct (run (h e) w).
  - rewrite IH. now destruct (run rest w) as [outs [e'|] wf].
  - unfold try. destruct (c w) as [[x|e] w']; simpl; [apply IH |].
    now destruct (run (h e) w').
Qed.

Lemma history_emit ev w : history (snd (emit ev w)) = history w.
Proof. reflexivity. Qed.

(** The deltas of a model call that go through the reducer only: they are
    all yielded and folded in order, whatever the stream ends with. *)
Lemma run_update_stream name ds failure : forall w,
  history w <> [] ->
  run (Chain.map_gen update_delta_on_memory (stream_gen name ds failure)) w =
    mkOutcome ds failure
      (mkWorld (foldl fold_delta (history w) ds)
               (trace w ++ List.map (Chunk name) ds ++ stream_end name failure)).
Proof.
  induction ds as [|d ds IH]; intros w Hw; simpl.
  - destruct failure; simpl; [| reflexivity].
    rewrite app_nil_r. now destruct w.
  - rewrite update_ok by exact Hw. simpl.
    rewrite IH by (simpl; now apply fold_delta_nonempty).
    simpl. now rewrite <- app_assoc.
Qed.

(** ** The dispatch *)

Section Dispatch.

Variable json_loads : string -> JsonValue + JSONDecodeError.
Variable json_dumps : JsonValue -> string.

Lemma call_get_current_weather_state kwargs w :
  call_get_current_weather json_dumps kwargs w =
    (fst (call_get_current_weather json_dumps kwargs (mkWorld [] [])), w).
Proof.
  unfold call_get_current_weather.
  destruct kwargs; try reflexivity.
  destruct (unexpected_keyword items); [reflexivity |].
  destruct (lookup_item "location" items); reflexivity.
Qed.

(** The dispatch of the first notebook leaves the state as it is. *)
Lemma dispatch_state d w :
  WeatherBot.dispatch json_loads json_dumps d w =
    (dispatch_result json_loads json_dumps d, w).
Proof.
  unfold dispatch_result, WeatherBot.dispatch.
  destruct (is_weather_call d); [| reflexivity].
  unfold bind, loads. destruct (json_loads (delta_content d)) as [v|e]; simpl.
  - now rewrite call_get_current_weather_state.
  - reflexivity.
Qed.

(** The dispatch of the second notebook saves the call first. *)
Lemma dispatch_saving_state d w :
  WeatherBotErrorHandling.dispatch json_loads json_dumps d w =
    (dispatch_result json_loads json_dumps d,
     if is_weather_call d
     then mkWorld (history w ++ [mkMessage "function" (delta_content d)
                                           (Some "get_current_weather")])
                  (trace w)
     else w).
Proof.
  unfold dispatch_result, WeatherBotErrorHandling.dispatch, WeatherBot.dispatch.
  destruct (is_weather_call d); [| reflexivity].
  unfold bind, loads, save_message_to_memory, bind, get_history, set_history, ret.
  destruct (json_loads (delta_content d)) as [v|e]; simpl.
  - now rewrite call_get_current_weather_state.
  - reflexivity.
Qed.

Lemma is_weather_call_function d :
  is_weather_call d = true ->
  delta_role d = Some "function" /\ delta_name d = Some "get_current_weather".
Proof.
  unfold is_weather_call. intros H. apply andb_true_iff in H as [H1 H2].
  split; eapply bool_decide_eq_true_1; eassumption.
Qed.

(** The errors of the call itself name the function. *)
Lemma call_error_names_function kwargs w e w' :
  call_get_current_weather json_dumps kwargs w = (Raise e, w') ->
  exists msg, e = TypeError msg /\ contains "get_current_weather" msg = true.
Proof.
  unfold call_get_current_weather.
  destruct kwargs;
    try (intros [= <- _]; eexists; split; [reflexivity | reflexivity]).
  destruct (unexpected_keyword items);
    [intros [= <- _]; eexists; split; reflexivity |].
  destruct (lookup_item "location" items); [discriminate |].
  intros [= <- _]; eexists; split; reflexivity.
Qed.

Lemma call_result_function kwargs w d w' :
  call_get_current_weather json_dumps kwargs w = (Ok d, w') ->
  delta_role d = Some "function" /\ delta_name d = Some "get_current_weather".
Proof.
  unfold call_get_current_weather.
  destruct kwargs; try discriminate.
  destruct (unexpected_keyword items); [discriminate |].
  destruct (lookup_item "location" items); [| discriminate].
  intros [= <- _]. split; reflexivity.
Qed.

(** A dispatched delta has the role of the delta of the model. *)
Lemma dispatch_result_role d d' :
  dispatch_result json_loads json_dumps d = Ok d' -> delta_role d' = delta_role d.
Proof.
  unfold dispatch_result, WeatherBot.dispatch.
  destruct (is_weather_call d) eqn:Hcall.
  - apply is_weather_call_function in Hcall as [-> _].
    unfold bind, loads. destruct (json_loads (delta_content d)) as [v|e]; simpl.
    + destruct (call_get_current_weather json_dumps v _) as [[x|e] w'] eqn:Hc;
        simpl; intros [= <-].
      now apply call_result_function in Hc as [-> _].
    + discriminate.
  - simpl. now intros [= <-].
Qed.

(** The dispatch raises what [json.loads] raises on the content, or the
    error of the call. *)
Lemma dispatch_result_error d e :
  dispatch_result json_loads json_dumps d = Raise e ->
  is_weather_call d = true /\
  ((exists je, json_loads (delta_content d) = inr je /\ e = JSONDecodeErr je) \/
   (exists msg, e = TypeError msg /\ contains "get_current_weather" msg = true)).
Proof.
  unfold dispatch_result, WeatherBot.dispatch.
  destruct (is_weather_call d) eqn:Hcall; [| discriminate].
  intros Hres. split; [reflexivity |].
  revert Hres. unfold bind, loads.
  destruct (json_loads (delta_content d)) as [v|je]; simpl.
  - destruct (call_get_current_weather json_dumps v _) as [[x|e'] w'] eqn:Hc;
      simpl; intros [= <-].
    right. eapply call_error_names_function; eassumption.
  - intros [= <-]. left. eauto.
Qed.

End Dispatch.

(** ** The first stage of the first notebook *)

Section FirstStage.

Variable llm : string -> list OpenAIChatMessage -> ModelStream.
Variable json_loads : string -> JsonValue + JSONDecodeError.
Variable json_dumps : JsonValue -> string.

#[local] Abbreviation dispatched :=
  (fun d d' => dispatch_result json_loads json_dumps d = Ok d').

Lemma first_stage_loop_cons d ds failure w :
  history w <> [] ->
  run ((first_stage_loop json_loads json_dumps) (d :: ds) failure) w =
    match dispatch_result json_loads json_dumps d with
    | Ok d' =>
        let o := run ((first_stage_loop json_loads json_dumps) ds failure)
                   (mkWorld (fold_delta (history w) d')
                            (trace w ++ [Chunk "WeatherChain" d])) in
        mkOutcome (d' :: outputs o) (raised o) (final o)
    | Raise e =>
        mkOutcome [] (Some e)
          (mkWorld (history w) (trace w ++ [Chunk "WeatherChain" d]))
    end.
Proof.
  intros Hw. unfold first_stage_loop.
  cbn [run Chain.map_gen stream_gen]. unfold emit at 1.
  rewrite dispatch_state.
  destruct (dispatch_result json_loads json_dumps d) as [d'|e]; [| reflexivity].
  cbn [run]. rewrite update_ok by exact Hw. reflexivity.
Qed.

Lemma first_stage_loop_nil failure w :
  run ((first_stage_loop json_loads json_dumps) [] failure) w =
    mkOutcome [] failure
      (mkWorld (history w) (trace w ++ stream_end "WeatherChain" failure)).
Proof.
  unfold first_stage_loop. destruct failure; simpl; [| reflexivity].
  rewrite app_nil_r. now destruct w.
Qed.

(** The first stage either consumes the whole stream, or stops at the first
    delta whose dispatch raises; the deltas before it were dispatched and
    folded in the order of the stream. *)
Lemma first_stage_loop_run ds failure : forall w,
  history w <> [] ->
  let o := run ((first_stage_loop json_loads json_dumps) ds failure) w in
  history (final o) = foldl fold_delta (history w) (outputs o) /\
  ((raised o = failure /\
    Forall2 dispatched ds (outputs o) /\
    trace (final o) =
      trace w ++ List.map (Chunk "WeatherChain") ds
        ++ stream_end "WeatherChain" failure)
   \/
   (exists e pre d post,
      raised o = Some e /\
      ds = pre ++ d :: post /\
      Forall2 dispatched pre (outputs o) /\
      dispatch_result json_loads json_dumps d = Raise e /\
      trace (final o) =
        trace w ++ List.map (Chunk "WeatherChain") (pre ++ [d]))).
Proof.
  induction ds as [|d ds IH]; intros w Hw o; subst o.
  - rewrite first_stage_loop_nil. simpl. split; [reflexivity |].
    left. repeat split; constructor.
  - rewrite first_stage_loop_cons by exact Hw.
    destruct (dispatch_result json_loads json_dumps d) as [d'|e] eqn:Hd.
    + specialize (IH (mkWorld (fold_delta (history w) d')
                              (trace w ++ [Chunk "WeatherChain" d]))).
      destruct IH as [Hh Hcases]; [simpl; now apply fold_delta_nonempty |].
      cbn [outputs raised final history trace] in *. split; [exact Hh |].
      destruct Hcases as [(Hr & Hall & Ht) | (e & pre & x & post & Hr & Hds & Hall & Hx & Ht)].
      * left. repeat split; [exact Hr | now constructor |].
        rewrite Ht. simpl. now rewrite <- app_assoc.
      * right. exists e, (d :: pre), x, post.
        split; [exact Hr |]. split; [now rewrite Hds |].
        split; [now constructor |]. split; [exact Hx |].
        rewrite Ht. simpl. now rewrite <- app_assoc.
    + simpl. split; [reflexivity |].
      right. exists e, [], d, ds. repeat split; auto.
Qed.

(** The run of the first stage: the user message is saved, the model is
    called with the history that ends with it, and its deltas go through the
    loop. *)
Lemma weather_chain_run user_input w :
  run (WeatherBot.weather_chain llm json_loads json_dumps user_input) w =
    let ctx := history w ++ [mkMessage "user" user_input None] in
    run ((first_stage_loop json_loads json_dumps) (chunks (llm "WeatherChain" ctx))
                          (failure (llm "WeatherChain" ctx)))
        (mkWorld ctx (trace w ++ [ModelCall "WeatherChain" ctx])).
Proof. reflexivity. Qed.

(** The follow-up stage: the model is called with the history, and its
    deltas are folded in order. *)
Lemma function_reply_chain_run w :
  history w <> [] ->
  run (WeatherBot.function_reply_chain llm tt) w =
    let s := llm "FunctionReplyChain" (history w) in
    mkOutcome (chunks s) (failure s)
      (mkWorld (foldl fold_delta (history w) (chunks s))
               (trace w ++ ModelCall "FunctionReplyChain" (history w)
                  :: List.map (Chunk "FunctionReplyChain") (chunks s)
                  ++ stream_end "FunctionReplyChain" (failure s))).
Proof.
  intros Hw. unfold WeatherBot.function_reply_chain, Chain.map, debug, OpenAIChatChain.
  cbn [run Chain.map_gen]. unfold get_history at 1. unfold emit at 1.
  rewrite run_update_stream by exact Hw. simpl. now rewrite <- app_assoc.
Qed.

End FirstStage.

(** ** Logs *)

Lemma model_calls_app l1 l2 : model_calls (l1 ++ l2) = model_calls l1 ++ model_calls l2.
Proof. unfold model_calls. apply omap_app. Qed.

Lemma model_calls_chunks name ds : model_calls (List.map (Chunk name) ds) = [].
Proof. induction ds; simpl; auto. Qed.

Lemma model_calls_stream_end name failure : model_calls (stream_end name failure) = [].
Proof. now destruct failure. Qed.

Lemma calls_of_app chain l1 l2 :
  calls_of chain (l1 ++ l2) = calls_of chain l1 ++ calls_of chain l2.
Proof. unfold calls_of. apply omap_app. Qed.

Lemma calls_of_chunks chain name ds : calls_of chain (List.map (Chunk name) ds) = [].
Proof. induction ds; simpl; auto. Qed.

Lemma calls_of_stream_end chain name failure : calls_of chain (stream_end name failure) = [].
Proof. now destruct failure. Qed.

Lemma not_in_chunks name c name' ds :
  ~ In (ModelCall name c) (List.map (Chunk name') ds).
Proof. intros H. apply in_map_iff in H as (d & Hd & _). discriminate. Qed.

Lemma not_in_stream_end name c name' failure :
  ~ In (ModelCall name c) (stream_end name' failure).
Proof. destruct failure; simpl; [tauto |]. intros [H | []]. discriminate. Qed.

(** A list splits in one way only around the one call of a chain it holds. *)
Lemma split_at_call name (A B : list Event) : forall pre post c c',
  (forall x, ~ In (ModelCall name x) A) ->
  (forall x, ~ In (ModelCall name x) B) ->
  A ++ ModelCall name c :: B = pre ++ ModelCall name c' :: post ->
  pre = A /\ c' = c /\ post = B.
Proof.
  induction A as [|a A IH]; intros pre post c c' HA HB Heq.
  - destruct pre as [|p pre]; simpl in Heq.
    + injection Heq as -> ->. auto.
    + injection Heq as <- ->. exfalso. apply (HB c').
      apply in_or_app. right. now left.
  - destruct pre as [|p pre]; simpl in Heq.
    + injection Heq as -> _. exfalso. apply (HA c'). now left.
    + injection Heq as <- Heq.
      destruct (IH pre post c c') as (-> & -> & ->); auto.
      intros x Hx. apply (HA x). now right.
Qed.

Lemma foldl_fold_delta_nonempty ds : forall h, h <> [] -> foldl fold_delta h ds <> [].
Proof.
  induction ds as [|d ds IH]; intros h Hh; simpl; [exact Hh |].
  apply IH. now apply fold_delta_nonempty.
Qed.

(** ** The bot of the first notebook *)

Section WeatherBotRun.

Variable llm : string -> list OpenAIChatMessage -> ModelStream.
Variable json_loads : string -> JsonValue + JSONDecodeError.
Variable json_dumps : JsonValue -> string.

#[local] Abbreviation weather_chain := (WeatherBot.weather_chain llm json_loads json_dumps).
#[local] Abbreviation weather_bot := (WeatherBot.weather_bot llm json_loads json_dumps).
#[local] Abbreviation dispatched :=
  (fun d d' => dispatch_result json_loads json_dumps d = Ok d').

Lemma weather_bot_run user_input w :
  run (weather_bot user_input) w =
    let o1 := run (weather_chain user_input) w in
    match raised o1 with
    | None => run (WeatherBot.reply llm (outputs o1)) (final o1)
    | Some e => mkOutcome [] (Some e) (final o1)
    end.
Proof.
  unfold WeatherBot.weather_bot, Chain.and_then. now rewrite run_collect_then.
Qed.

(** What the first stage leaves: see [first_stage_loop_run]. *)
Lemma weather_chain_spec user_input w :
  let ctx := history w ++ [mkMessage "user" user_input None] in
  let s := llm "WeatherChain" ctx in
  let o1 := run (weather_chain user_input) w in
  history (final o1) = foldl fold_delta ctx (outputs o1) /\
  history (final o1) <> [] /\
  ((raised o1 = failure s /\
    Forall2 dispatched (chunks s) (outputs o1) /\
    trace (final o1) =
      trace w ++ ModelCall "WeatherChain" ctx
        :: List.map (Chunk "WeatherChain") (chunks s)
        ++ stream_end "WeatherChain" (failure s))
   \/
   (exists e pre d post,
      raised o1 = Some e /\
      chunks s = pre ++ d :: post /\
      Forall2 dispatched pre (outputs o1) /\
      dispatch_result json_loads json_dumps d = Raise e /\
      trace (final o1) =
        trace w ++ ModelCall "WeatherChain" ctx
          :: List.map (Chunk "WeatherChain") (pre ++ [d]))).
Proof.
  intros ctx s o1. subst o1. rewrite weather_chain_run. fold ctx.
  cbv zeta. subst s.
  pose proof (first_stage_loop_run json_loads json_dumps
                (chunks (llm "WeatherChain" ctx)) (failure (llm "WeatherChain" ctx))
                (mkWorld ctx (trace w ++ [ModelCall "WeatherChain" ctx]))) as H.
  assert (Hctx : ctx <> []) by (subst ctx; now destruct (history w)).
  specialize (H Hctx). cbv zeta in H. cbn [history trace] in H.
  destruct H as [Hh Hcases]. split; [exact Hh |].
  split; [rewrite Hh; now apply foldl_fold_delta_nonempty |].
  destruct Hcases as [(Hr & Hall & Ht) | (e & pre & d & post & Hr & Hds & Hall & Hd & Ht)].
  - left. repeat split; [exact Hr | exact Hall |].
    rewrite Ht. now rewrite <- app_assoc.
  - right. exists e, pre, d, post. repeat split; try assumption.
    rewrite Ht. now rewrite <- app_assoc.
Qed.

End WeatherBotRun.

(** ** The bot of the second notebook *)

Section ErrorHandlingRun.

Variable llm : string -> list OpenAIChatMessage -> ModelStream.
Variable json_loads : string -> JsonValue + JSONDecodeError.
Variable json_dumps : JsonValue -> string.

#[local] Abbreviation nonempty := (fun w : World => history w <> []).

Lemma update_keeps_nonempty d w :
  history w <> [] -> history (snd (update_delta_on_memory d w)) <> [].
Proof.
  intros Hw. rewrite update_ok by exact Hw. simpl. now apply fold_delta_nonempty.
Qed.

Lemma dispatch_saving_keeps_nonempty d w :
  history w <> [] ->
  history (snd (WeatherBotErrorHandling.dispatch json_loads json_dumps d w)) <> [].
Proof.
  intros Hw. rewrite dispatch_saving_state. simpl.
  destruct (is_weather_call d); [| exact Hw]. simpl. now destruct (history w).
Qed.

Lemma error_handler_keeps_nonempty e :
  keeps nonempty (WeatherBotErrorHandling.error_handler llm e).
Proof.
  unfold WeatherBotErrorHandling.error_handler.
  destruct (contains _ _); [| exact Logic.I].
  unfold WeatherBotErrorHandling.function_error_chain, OpenAIChatChain. simpl.
  split; [intros w _; now destruct (history w) |].
  intros msgs. split; [auto |]. intros _.
  apply keeps_stream_gen. auto.
Qed.

(** The first stage of the second notebook leaves a non-empty history. *)
Lemma weather_chain_saving_nonempty user_input w :
  history (final (run (WeatherBotErrorHandling.weather_chain
                         llm json_loads json_dumps user_input) w)) <> [].
Proof.
  apply (run_establishes nonempty).
  unfold WeatherBotErrorHandling.weather_chain, debug, Chain.map, Chain.on_error.
  apply establishes_map_gen; [intros a w'; apply update_keeps_nonempty |].
  apply establishes_on_error_gen; [apply error_handler_keeps_nonempty |].
  apply establishes_map_gen; [intros a w'; apply dispatch_saving_keeps_nonempty |].
  unfold OpenAIChatChain. simpl. split.
  - intros w'. now destruct (history w').
  - intros msgs. split; [auto |]. intros _. apply keeps_stream_gen. auto.
Qed.

Lemma weather_bot_saving_run user_input w :
  run (WeatherBotErrorHandling.weather_bot llm json_loads json_dumps user_input) w =
    let o1 := run (WeatherBotErrorHandling.weather_chain
                     llm json_loads json_dumps user_input) w in
    match raised o1 with
    | None => run (WeatherBotErrorHandling.reply llm (outputs o1)) (final o1)
    | Some e => mkOutcome [] (Some e) (final o1)
    end.
Proof.
  unfold WeatherBotErrorHandling.weather_bot, Chain.and_then.
  now rewrite run_collect_then.
Qed.

End ErrorHandlingRun.

(** What the function given to [and_then] does with the outputs of the first
    stage, in both notebooks. *)
Lemma reply_run llm (outs : list OpenAIChatDelta) d w :
  history w <> [] ->
  last outs = Some d ->
  let o := run (WeatherBot.reply llm outs) w in
  WeatherBotErrorHandling.reply llm outs = WeatherBot.reply llm outs /\
  (delta_role d = Some "function" ->
   let s := llm "FunctionReplyChain" (history w) in
   outputs o = chunks s /\
   raised o = failure s /\
   history (final o) = foldl fold_delta (history w) (chunks s) /\
   trace (final o) =
     trace w ++ ModelCall "FunctionReplyChain" (history w)
       :: List.map (Chunk "FunctionReplyChain") (chunks s)
       ++ stream_end "FunctionReplyChain" (failure s)) /\
  (delta_role d <> Some "function" -> o = mkOutcome outs None w).
Proof.
  intros Hw Hlast o. subst o. split; [reflexivity |].
  unfold WeatherBot.reply. rewrite Hlast. split.
  - intros Hrole. rewrite bool_decide_eq_true_2 by exact Hrole.
    rewrite function_reply_chain_run by exact Hw. simpl. auto.
  - intros Hrole. rewrite bool_decide_eq_false_2 by exact Hrole.
    clear. revert w. induction outs as [|a outs IH]; intros w; simpl; [reflexivity |].
    now rewrite IH.
Qed.

Lemma Forall2_last {A B} (R : A -> B -> Prop) l l' y :
  Forall2 R l l' -> last l' = Some y -> exists x, last l = Some x /\ R x y.
Proof.
  intros H Hl. apply last_Some in Hl as [init' ->].
  apply Forall2_app_inv_r in H as (init & tl & _ & Htl & ->).
  apply Forall2_cons_inv_r in Htl as (x & tl' & Hx & Hnil & ->).
  apply Forall2_nil_inv_r in Hnil as ->.
  exists x. split; [apply last_snoc | exact Hx].
Qed.

(** ** The follow-up call *)

(** The follow-up call of the bots composed with [and_then], in the first
    and in the second notebook, when the first stage has ended without
    exception and has produced a last unit. *)
Lemma follow_up_after_first_stage llm json_loads json_dumps user_input w :
  (let o1 := run (WeatherBot.weather_chain llm json_loads json_dumps user_input) w in
   let o := run (WeatherBot.weather_bot llm json_loads json_dumps user_input) w in
   forall d, raised o1 = None -> last (outputs o1) = Some d ->
     (exists d0,
        last (chunks (llm "WeatherChain"
                        (history w ++ [mkMessage "user" user_input None]))) = Some d0 /\
        delta_role d0 = delta_role d) /\
     (delta_role d = Some "function" ->
        let s := llm "FunctionReplyChain" (history (final o1)) in
        outputs o = chunks s /\
        raised o = failure s /\
        history (final o) = foldl fold_delta (history (final o1)) (chunks s) /\
        model_calls (trace (final o)) =
          model_calls (trace (final o1))
            ++ [("FunctionReplyChain", history (final o1))]) /\
     (delta_role d <> Some "function" -> o = o1))
  /\
  (let o1 := run (WeatherBotErrorHandling.weather_chain
                    llm json_loads json_dumps user_input) w in
   let o := run (WeatherBotErrorHandling.weather_bot
                   llm json_loads json_dumps user_input) w in
   forall d, raised o1 = None -> last (outputs o1) = Some d ->
     (delta_role d = Some "function" ->
        let s := llm "FunctionReplyChain" (history (final o1)) in
        outputs o = chunks s /\
        raised o = failure s /\
        history (final o) = foldl fold_delta (history (final o1)) (chunks s) /\
        model_calls (trace (final o)) =
          model_calls (trace (final o1))
            ++ [("FunctionReplyChain", history (final o1))]) /\
     (delta_role d <> Some "function" -> o = o1)).
Proof.
  split.
  - intros o1 o d Hr Hlast.
    destruct (weather_chain_spec llm json_loads json_dumps user_input w)
      as (_ & Hne & Hcases).
    fold o1 in Hne, Hcases.
    destruct (reply_run llm (outputs o1) d (final o1) Hne Hlast) as (_ & Hf & Hn).
    assert (Ho : o = run (WeatherBot.reply llm (outputs o1)) (final o1)).
    { subst o. rewrite weather_bot_run. fold o1. cbv zeta. now rewrite Hr. }
    split; [| split].
    + destruct Hcases as [(_ & Hall & _) | (e & ? & ? & ? & He & _)];
        [| rewrite Hr in He; discriminate].
      destruct (Forall2_last _ _ _ _ Hall Hlast) as (d0 & Hd0 & Hdisp).
      exists d0. split; [exact Hd0 |].
      symmetry. eapply dispatch_result_role. exact Hdisp.
    + intros Hrole. destruct (Hf Hrole) as (Hout & Hrai & Hhist & Htr).
      rewrite Ho. repeat split; try assumption.
      rewrite Htr, model_calls_app. simpl.
      now rewrite model_calls_app, model_calls_chunks, model_calls_stream_end.
    + intros Hrole. rewrite Ho, (Hn Hrole). destruct o1 as [outs r wf].
      simpl in Hr. now subst r.
  - intros o1 o d Hr Hlast.
    pose proof (weather_chain_saving_nonempty llm json_loads json_dumps user_input w)
      as Hne.
    fold o1 in Hne.
    destruct (reply_run llm (outputs o1) d (final o1) Hne Hlast) as (Heq & Hf & Hn).
    assert (Ho : o = run (WeatherBot.reply llm (outputs o1)) (final o1)).
    { subst o. rewrite weather_bot_saving_run. fold o1. cbv zeta.
      now rewrite Hr, Heq. }
    split.
    + intros Hrole. destruct (Hf Hrole) as (Hout & Hrai & Hhist & Htr).
      rewrite Ho. repeat split; try assumption.
      rewrite Htr, model_calls_app. simpl.
      now rewrite model_calls_app, model_calls_chunks, model_calls_stream_end.
    + intros Hrole. rewrite Ho, (Hn Hrole). destruct o1 as [outs r wf].
      simpl in Hr. now subst r.
Qed.

(** ** The bot of the FastAPI notebook *)

Lemma preceded_quiet P log :
  Forall (fun ev => is_follow_up ev = false) log -> preceded P log.
Proof.
  intros Hall pre msgs post ->.
  apply Forall_app in Hall as [_ Hall]. apply Forall_cons in Hall as [H _].
  discriminate.
Qed.

Lemma preceded_app P A B :
  preceded P A -> preceded P B -> opens_quietly B -> preceded P (A ++ B).
Proof.
  intros HA HB Hq pre msgs post Heq.
  apply app_eq_app in Heq as [l [[-> Hl] | [-> Hl]]].
  - destruct l as [|x l]; simpl in Hl.
    + subst B. simpl in Hq. discriminate.
    + injection Hl as <- ->.
      apply (HA pre msgs l). reflexivity.
  - destruct (HB l msgs post Hl) as (pre' & ev & -> & Hev).
    exists (A ++ pre'), ev. split; [now rewrite app_assoc | exact Hev].
Qed.

Lemma preceded_call P ev msgs :
  P ev -> is_follow_up ev = false ->
  preceded P [ev; ModelCall "FunctionReplyChain" msgs].
Proof.
  intros Hev Hq pre msgs' post Heq.
  destruct pre as [|x pre]; simpl in Heq.
  - injection Heq as -> _. discriminate.
  - injection Heq as <- Heq. destruct pre as [|y pre]; simpl in Heq.
    + exists [], ev. auto.
    + injection Heq as _ Heq. now destruct pre.
Qed.

Lemma quiet_chunks name ds :
  Forall (fun ev => is_follow_up ev = false) (List.map (Chunk name) ds).
Proof. induction ds; simpl; constructor; auto. Qed.

Lemma quiet_stream_end name failure :
  Forall (fun ev => is_follow_up ev = false) (stream_end name failure).
Proof. destruct failure; simpl; repeat constructor. Qed.

Section Serving.

Variable llm : string -> list OpenAIChatMessage -> ModelStream.
Variable json_loads : string -> JsonValue + JSONDecodeError.
Variable json_dumps : JsonValue -> string.

#[local] Abbreviation content_of := (fun delta : OpenAIChatDelta => ret (delta_content delta)).

(** The chunks of a follow-up call inside the pipeline: each is folded and
    its content is yielded; the rest of the pipeline goes on when the
    follow-up stream has ended. *)
Lemma follow_up_inside cs failure G : forall w,
  history w <> [] ->
  run (Chain.map_gen content_of
         (Chain.map_gen update_delta_on_memory
            (then_gen (stream_gen "FunctionReplyChain" cs failure) G))) w =
    let w' := mkWorld (foldl fold_delta (history w) cs)
                (trace w ++ List.map (Chunk "FunctionReplyChain") cs
                   ++ stream_end "FunctionReplyChain" failure) in
    match failure with
    | Some e => mkOutcome (List.map delta_content cs) (Some e) w'
    | None =>
        let o := run (Chain.map_gen content_of
                        (Chain.map_gen update_delta_on_memory G)) w' in
        mkOutcome (List.map delta_content cs ++ outputs o) (raised o) (final o)
    end.
Proof.
  induction cs as [|c cs IH]; intros w Hw.
  - destruct failure as [e|]; simpl.
    + rewrite app_nil_r. now destruct w.
    + now destruct (run _ _).
  - cbn [then_gen stream_gen Chain.map_gen run]. unfold emit at 1.
    rewrite update_ok by exact Hw. cbn [run]. unfold ret at 1. cbn [run].
    rewrite IH by (simpl; now apply fold_delta_nonempty).
    cbn [history trace foldl List.map]. rewrite <- !app_assoc. simpl.
    now destruct failure.
Qed.

Lemma serving_loop_nil failure w :
  run ((serving_loop llm json_loads json_dumps) [] failure) w =
    mkOutcome [] failure
      (mkWorld (history w) (trace w ++ stream_end "WeatherChain" failure)).
Proof.
  unfold serving_loop, first_stage_loop.
  destruct failure; simpl; [| reflexivity].
  rewrite app_nil_r. now destruct w.
Qed.

(** One delta of the first stream in the pipeline of the FastAPI notebook. *)
Lemma serving_loop_cons d ds fail w :
  history w <> [] ->
  run ((serving_loop llm json_loads json_dumps) (d :: ds) fail) w =
    let w1 := mkWorld (history w) (trace w ++ [Chunk "WeatherChain" d]) in
    match dispatch_result json_loads json_dumps d with
    | Raise e => mkOutcome [] (Some e) w1
    | Ok d' =>
        let h2 := fold_delta (history w) d' in
        if bool_decide (delta_role d' = Some "function") then
          let s := llm "FunctionReplyChain" h2 in
          let w3 :=
            mkWorld (foldl fold_delta h2 (chunks s))
              (trace w1 ++ ModelCall "FunctionReplyChain" h2
                 :: List.map (Chunk "FunctionReplyChain") (chunks s)
                 ++ stream_end "FunctionReplyChain" (failure s)) in
          match failure s with
          | Some e => mkOutcome (List.map delta_content (chunks s)) (Some e) w3
          | None =>
              let o := run ((serving_loop llm json_loads json_dumps) ds fail) w3 in
              mkOutcome (List.map delta_content (chunks s) ++ outputs o)
                        (raised o) (final o)
          end
        else
          let o := run ((serving_loop llm json_loads json_dumps) ds fail)
                     (mkWorld (fold_delta h2 d') (trace w1)) in
          mkOutcome (delta_content d' :: outputs o) (raised o) (final o)
    end.
Proof.
  intros Hw. unfold serving_loop, first_stage_loop.
  cbn [stream_gen Chain.map_gen ServeWithFastAPI.reply_function_call run].
  unfold emit at 1. rewrite dispatch_state.
  destruct (dispatch_result json_loads json_dumps d) as [d'|e]; [| reflexivity].
  cbn [Chain.map_gen ServeWithFastAPI.reply_function_call run].
  rewrite update_ok by exact Hw.
  cbn [Chain.map_gen ServeWithFastAPI.reply_function_call run history trace].
  assert (Hh2 : fold_delta (history w) d' <> []) by now apply fold_delta_nonempty.
  destruct (bool_decide (delta_role d' = Some "function")).
  - unfold ServeWithFastAPI.function_reply_chain, OpenAIChatChain.
    cbn [then_gen Chain.map_gen run]. unfold get_history at 1. unfold emit at 1.
    rewrite follow_up_inside by exact Hh2.
    cbn [history trace]. rewrite <- !app_assoc. reflexivity.
  - cbn [Chain.map_gen run]. unfold ServeWithFastAPI.update_delta.
    rewrite update_ok by exact Hh2. cbn [run]. unfold ret at 1. reflexivity.
Qed.

Lemma serving_bot_run user_input w :
  run (ServeWithFastAPI.weather_bot llm json_loads json_dumps user_input) w =
    let ctx := history w ++ [mkMessage "user" user_input None] in
    run ((serving_loop llm json_loads json_dumps) (chunks (llm "WeatherChain" ctx))
                      (failure (llm "WeatherChain" ctx)))
        (mkWorld ctx (trace w ++ [ModelCall "WeatherChain" ctx])).
Proof. reflexivity. Qed.

End Serving.

Section ServingLog.

Variable llm : string -> list OpenAIChatMessage -> ModelStream.
Variable json_loads : string -> JsonValue + JSONDecodeError.
Variable json_dumps : JsonValue -> string.


Lemma opens_quietly_stream_end name fail : opens_quietly (stream_end name fail).
Proof. now destruct fail. Qed.

Lemma opens_quietly_chunks_end name cs fail (rest : list Event) :
  opens_quietly rest ->
  opens_quietly ((List.map (Chunk name) cs ++ stream_end name fail) ++ rest).
Proof. intros H. destruct cs; simpl; [destruct fail; simpl |]; auto. Qed.

(** The log of the pipeline of the FastAPI notebook: every follow-up call
    comes right after the consumption of a function delta of the first
    stream, and when the pipeline ends without exception there are as many
    follow-up calls as function deltas in the first stream. *)
Lemma serving_loop_log ds fail : forall w,
  history w <> [] ->
  let o := run ((serving_loop llm json_loads json_dumps) ds fail) w in
  exists added,
    trace (final o) = trace w ++ added /\
    opens_quietly added /\
    preceded function_chunk added /\
    (raised o = None ->
     length (calls_of "FunctionReplyChain" added) =
       length (filter (fun d => delta_role d = Some "function") ds)).
Proof.
  induction ds as [|d ds IH]; intros w Hw o; subst o.
  - rewrite serving_loop_nil. exists (stream_end "WeatherChain" fail).
    cbn [final trace raised]. split; [reflexivity |].
    split; [apply opens_quietly_stream_end |].
    split; [apply preceded_quiet, quiet_stream_end |].
    intros _. now rewrite calls_of_stream_end.
  - rewrite serving_loop_cons by exact Hw. cbv zeta.
    destruct (dispatch_result json_loads json_dumps d) as [d'|e] eqn:Hd.
    2:{ exists [Chunk "WeatherChain" d]. cbn [final trace raised].
        split; [reflexivity |]. split; [reflexivity |].
        split; [apply preceded_quiet; repeat constructor | discriminate]. }
    pose proof (dispatch_result_role _ _ _ _ Hd) as Hrole.
    assert (Hh2 : fold_delta (history w) d' <> []) by now apply fold_delta_nonempty.
    destruct (bool_decide (delta_role d' = Some "function")) eqn:Hfun.
    + apply bool_decide_eq_true_1 in Hfun. rewrite Hrole in Hfun.
      assert (Hcall : preceded function_chunk
                [Chunk "WeatherChain" d;
                 ModelCall "FunctionReplyChain" (fold_delta (history w) d')]).
      { apply preceded_call; [| reflexivity]. exists d. auto. }
      set (s := llm "FunctionReplyChain" (fold_delta (history w) d')) in *.
      assert (Hquiet : preceded function_chunk
                (List.map (Chunk "FunctionReplyChain") (chunks s)
                   ++ stream_end "FunctionReplyChain" (failure s))).
      { apply preceded_quiet, Forall_app. split;
          [apply quiet_chunks | apply quiet_stream_end]. }
      destruct (failure s) as [e|] eqn:Hfail.
      * exists ([Chunk "WeatherChain" d;
                 ModelCall "FunctionReplyChain" (fold_delta (history w) d')]
                ++ (List.map (Chunk "FunctionReplyChain") (chunks s)
                      ++ stream_end "FunctionReplyChain" (Some e))).
        cbn [final trace raised]. split; [now rewrite <- !app_assoc |].
        split; [reflexivity |]. split; [| discriminate].
        apply preceded_app; [exact Hcall | exact Hquiet |].
        destruct (chunks s); reflexivity.
      * match goal with
        | |- context [run ((serving_loop llm json_loads json_dumps) ds fail) ?w3] =>
            destruct (IH w3) as (added & Ht & Hopen & Hpre & Hcount);
              [cbn [history]; now apply foldl_fold_delta_nonempty |]
        end.
        exists ([Chunk "WeatherChain" d;
                 ModelCall "FunctionReplyChain" (fold_delta (history w) d')]
                ++ (List.map (Chunk "FunctionReplyChain") (chunks s)
                      ++ stream_end "FunctionReplyChain" None)
                ++ added).
        cbn [final trace raised] in *. split.
        { rewrite Ht. cbn [trace]. rewrite <- !app_assoc. simpl.
          now rewrite <- !app_assoc. }
        split; [reflexivity |]. split.
        { apply preceded_app; [exact Hcall | |].
          - apply preceded_app; [exact Hquiet | exact Hpre | exact Hopen].
          - now apply opens_quietly_chunks_end. }
        intros Hr. specialize (Hcount Hr).
        rewrite filter_cons_True by exact Hfun.
        rewrite !calls_of_app, calls_of_chunks. simpl. now rewrite Hcount.
    + apply bool_decide_eq_false_1 in Hfun. rewrite Hrole in Hfun.
      match goal with
      | |- context [run ((serving_loop llm json_loads json_dumps) ds fail) ?w3] =>
          destruct (IH w3) as (added & Ht & Hopen & Hpre & Hcount);
            [cbn [history]; now apply fold_delta_nonempty |]
      end.
      exists ([Chunk "WeatherChain" d] ++ added).
      cbn [final trace raised] in *. split.
      { rewrite Ht. cbn [trace]. now rewrite <- !app_assoc. }
      split; [reflexivity |]. split.
      { apply preceded_app; [| exact Hpre | exact Hopen].
        apply preceded_quiet. repeat constructor. }
      intros Hr. specialize (Hcount Hr).
      rewrite filter_cons_False by exact Hfun.
      rewrite calls_of_app. simpl. exact Hcount.
Qed.

End ServingLog.

(** ** Claims on the follow-up call *)

(** C1 (as amended). Follow-up trigger. In the bots composed with
    [and_then] (first and second notebook): when the first stage has ended
    without exception and has produced a last unit, a last unit of role
    "function" makes the bot issue exactly one follow-up call, whose messages
    are the history as the first stage left it (no new user message), and the
    chunks of that call are the outputs of the turn; with any other last role
    no further call is made and outputs and state are those of the first
    stage. In the first notebook the role of the last unit is that of the
    last delta of the first stream of the model. In the FastAPI notebook the
    trigger is per unit: a turn that ends without exception has issued as
    many follow-up calls as the first stream has function deltas. *)
Theorem follow_up_trigger llm json_loads json_dumps user_input w :
  (let o1 := run (WeatherBot.weather_chain llm json_loads json_dumps user_input) w in
   let o := run (WeatherBot.weather_bot llm json_loads json_dumps user_input) w in
   forall d, raised o1 = None -> last (outputs o1) = Some d ->
     (exists d0,
        last (chunks (llm "WeatherChain"
                        (history w ++ [mkMessage "user" user_input None]))) = Some d0 /\
        delta_role d0 = delta_role d) /\
     (delta_role d = Some "function" ->
        let s := llm "FunctionReplyChain" (history (final o1)) in
        outputs o = chunks s /\
        raised o = failure s /\
        history (final o) = foldl fold_delta (history (final o1)) (chunks s) /\
        model_calls (trace (final o)) =
          model_calls (trace (final o1))
            ++ [("FunctionReplyChain", history (final o1))]) /\
     (delta_role d <> Some "function" -> o = o1))
  /\
  (let o1 := run (WeatherBotErrorHandling.weather_chain
                    llm json_loads json_dumps user_input) w in
   let o := run (WeatherBotErrorHandling.weather_bot
                   llm json_loads json_dumps user_input) w in
   forall d, raised o1 = None -> last (outputs o1) = Some d ->
     (delta_role d = Some "function" ->
        let s := llm "FunctionReplyChain" (history (final o1)) in
        outputs o = chunks s /\
        raised o = failure s /\
        history (final o) = foldl fold_delta (history (final o1)) (chunks s) /\
        model_calls (trace (final o)) =
          model_calls (trace (final o1))
            ++ [("FunctionReplyChain", history (final o1))]) /\
     (delta_role d <> Some "function" -> o = o1))
  /\
  (let o := run (ServeWithFastAPI.weather_bot llm json_loads json_dumps user_input) w in
   let s := llm "WeatherChain" (history w ++ [mkMessage "user" user_input None]) in
   raised o = None ->
   exists added,
     trace (final o) = trace w ++ added /\
     length (calls_of "FunctionReplyChain" added) =
       length (filter (fun d => delta_role d = Some "function") (chunks s))).
Proof.
  destruct (follow_up_after_first_stage llm json_loads json_dumps user_input w)
    as [H1 H2].
  split; [exact H1 |]. split; [exact H2 |].
  intros o s Hr. subst o s. rewrite serving_bot_run in *. cbv zeta in *.
  match goal with
  | |- context [run (serving_loop _ _ _ ?ds ?fail) ?w1] =>
      destruct (serving_loop_log llm json_loads json_dumps ds fail w1)
        as (added & Ht & _ & _ & Hcount)
  end.
  { simpl. now destruct (history w). }
  eexists. split.
  - rewrite Ht. cbn [trace]. rewrite <- app_assoc. reflexivity.
  - rewrite calls_of_app. simpl. now apply Hcount.
Qed.

Lemma follow_up_trigger_witness :
  let llm := scripted [weather_call amsterdam_arguments]
               [mkDelta (Some "assistant") "It is sunny" None] [] in
  let o := run (WeatherBot.weather_bot llm Json.loads Json.dumps "weather in Amsterdam?")
             (mkWorld [] []) in
  outputs o = [mkDelta (Some "assistant") "It is sunny" None] /\
  length (model_calls (trace (final o))) = 2.
Proof.
  intros llm o.
  destruct (follow_up_trigger llm Json.loads Json.dumps "weather in Amsterdam?"
              (mkWorld [] [])) as (H & _ & _).
  cbv zeta in H.
  destruct (H (get_current_weather Json.dumps (JStr "Amsterdam") (JStr "celsius")))
    as (_ & Hf & _); [reflexivity | reflexivity |].
  destruct (Hf eq_refl) as (Hout & _ & _ & Hcalls).
  split; [exact Hout |]. subst o. now rewrite Hcalls.
Defined.

(** C1, counterexample: in the FastAPI notebook a first stream whose last
    delta has role "assistant", after a function delta, gets one follow-up
    call, and the outputs of the turn are not those of the first stream. *)
Lemma follow_up_trigger_counterexample :
  let llm := scripted [mkDelta (Some "function") "{}" (Some "lookup");
                       mkDelta (Some "assistant") "ok" None]
                      [mkDelta (Some "assistant") "reply" None] [] in
  let o := run (ServeWithFastAPI.weather_bot llm Json.loads Json.dumps "hi")
             (mkWorld [] []) in
  last (chunks (llm "WeatherChain" [mkMessage "user" "hi" None]))
    = Some (mkDelta (Some "assistant") "ok" None) /\
  raised o = None /\
  calls_of "FunctionReplyChain" (trace (final o))
    = [[mkMessage "user" "hi" None;
        mkMessage "function" "{}" (Some "lookup")]] /\
  outputs o = ["reply"; "ok"].
Proof. vm_compute. repeat split. Qed.

(** The log of a turn of the first notebook: either it holds no follow-up
    call, or the first stream was consumed to its end before the one
    follow-up call. *)
Lemma weather_bot_log llm json_loads json_dumps user_input w :
  let ctx := history w ++ [mkMessage "user" user_input None] in
  let s := llm "WeatherChain" ctx in
  let o := run (WeatherBot.weather_bot llm json_loads json_dumps user_input) w in
  exists added,
    trace (final o) = trace w ++ added /\
    ((forall x, ~ In (ModelCall "FunctionReplyChain" x) added) \/
     (exists msgs rest,
        added =
          (ModelCall "WeatherChain" ctx
             :: List.map (Chunk "WeatherChain") (chunks s)
             ++ [StreamEnd "WeatherChain"])
          ++ ModelCall "FunctionReplyChain" msgs :: rest /\
        (forall x, ~ In (ModelCall "FunctionReplyChain" x) rest))).
Proof.
  intros ctx s o. subst o. rewrite weather_bot_run. cbv zeta.
  destruct (weather_chain_spec llm json_loads json_dumps user_input w)
    as (_ & Hne & Hcases).
  fold ctx in Hcases. fold s in Hcases.
  set (o1 := run (WeatherBot.weather_chain llm json_loads json_dumps user_input) w) in *.
  assert (Hfirst : forall name msgs ds tl,
            (forall x, ~ In (ModelCall "FunctionReplyChain" x) tl) ->
            forall x, ~ In (ModelCall "FunctionReplyChain" x)
                        (ModelCall "WeatherChain" msgs
                           :: List.map (Chunk name) ds ++ tl)).
  { intros name msgs ds tl Htl x [Heq | Hin]; [discriminate |].
    apply in_app_or in Hin as [Hin | Hin];
      [now apply not_in_chunks in Hin | now apply Htl in Hin]. }
  destruct Hcases as [(Hr & _ & Ht) | (e & pre & d & post & Hr & _ & _ & _ & Ht)].
  - destruct (raised o1) as [e|] eqn:Hraised.
    + eexists. cbn [final]. split; [exact Ht |]. left.
      apply Hfirst. intros x. apply not_in_stream_end.
    + rewrite <- Hr in Ht. cbn [stream_end] in Ht.
      destruct (last (outputs o1)) as [d|] eqn:Hlast.
      * destruct (reply_run llm (outputs o1) d (final o1) Hne Hlast) as (_ & Hf & Hn).
        destruct (decide (delta_role d = Some "function")) as [Hrole | Hrole].
        -- destruct (Hf Hrole) as (_ & _ & _ & Htr).
           eexists. split.
           { rewrite Htr, Ht. rewrite <- app_assoc. reflexivity. }
           right. eexists _, _. split; [reflexivity |].
           intros x Hin. apply in_app_or in Hin as [Hin | Hin];
             [now apply not_in_chunks in Hin | now apply not_in_stream_end in Hin].
        -- rewrite (Hn Hrole). eexists. cbn [final]. split; [exact Ht |]. left.
           apply Hfirst. intros x [Heq | []]. discriminate.
      * unfold WeatherBot.reply. rewrite Hlast. cbn [run final].
        eexists. split; [exact Ht |]. left.
        apply Hfirst. intros x [Heq | []]. discriminate.
  - rewrite Hr. eexists. cbn [final]. split; [exact Ht |]. left.
    replace (List.map (Chunk "WeatherChain") (pre ++ [d]))
      with (List.map (Chunk "WeatherChain") (pre ++ [d]) ++ []) by apply app_nil_r.
    apply Hfirst. intros x [].
Qed.

(** C7 (as amended). Ordering. In the first notebook the deltas are folded
    into the history in the order of the first stream (the history after the
    first stage is the fold, in that order, of the dispatched deltas of a
    prefix of the stream), and whatever comes before a follow-up call in the
    log of the turn is the first call, every chunk of its stream and the end
    of that stream: no follow-up call starts while the first stream has
    chunks left. In the FastAPI notebook a follow-up call is issued when a
    function delta of the first stream is consumed: the event right before
    each follow-up call is the consumption of such a delta. *)
Theorem follow_up_after_drain llm json_loads json_dumps user_input w :
  let ctx := history w ++ [mkMessage "user" user_input None] in
  let s := llm "WeatherChain" ctx in
  (let o1 := run (WeatherBot.weather_chain llm json_loads json_dumps user_input) w in
   history (final o1) = foldl fold_delta ctx (outputs o1) /\
   exists pre post,
     chunks s = pre ++ post /\
     Forall2 (fun d d' => dispatch_result json_loads json_dumps d = Ok d')
             pre (outputs o1))
  /\
  (let o := run (WeatherBot.weather_bot llm json_loads json_dumps user_input) w in
   exists added,
     trace (final o) = trace w ++ added /\
     forall pre msgs post,
       added = pre ++ ModelCall "FunctionReplyChain" msgs :: post ->
       pre = ModelCall "WeatherChain" ctx
               :: List.map (Chunk "WeatherChain") (chunks s)
               ++ [StreamEnd "WeatherChain"])
  /\
  (let o := run (ServeWithFastAPI.weather_bot llm json_loads json_dumps user_input) w in
   exists added,
     trace (final o) = trace w ++ added /\
     preceded function_chunk added).
Proof.
  intros ctx s. split; [| split].
  - intros o1.
    destruct (weather_chain_spec llm json_loads json_dumps user_input w)
      as (Hh & _ & Hcases).
    fold ctx in Hh, Hcases. fold s in Hcases. fold o1 in Hh, Hcases.
    split; [exact Hh |].
    destruct Hcases as [(_ & Hall & _) | (e & pre & d & post & _ & Hds & Hall & _)].
    + exists (chunks s), []. split; [now rewrite app_nil_r | exact Hall].
    + exists pre, (d :: post). split; [exact Hds | exact Hall].
  - intros o.
    destruct (weather_bot_log llm json_loads json_dumps user_input w)
      as (added & Ht & Hshape).
    fold ctx in Hshape. fold s in Hshape.
    exists added. split; [exact Ht |].
    intros pre msgs post Heq.
    destruct Hshape as [Hnone | (msgs' & rest & Hadded & Hrest)].
    + exfalso. apply (Hnone msgs). rewrite Heq. apply in_or_app. right. now left.
    + rewrite Hadded in Heq.
      apply split_at_call in Heq as (<- & _ & _); [reflexivity | | exact Hrest].
      intros x [Hx | Hin]; [discriminate |].
      apply in_app_or in Hin as [Hin | [Hin | []]];
        [now apply not_in_chunks in Hin | discriminate].
  - intros o. subst o. rewrite serving_bot_run. cbv zeta.
    match goal with
    | |- context [run (serving_loop _ _ _ ?ds ?fail) ?w1] =>
        destruct (serving_loop_log llm json_loads json_dumps ds fail w1)
          as (added & Ht & Hopen & Hpre & _)
    end.
    { simpl. now destruct (history w). }
    exists ([ModelCall "WeatherChain" ctx] ++ added). split.
    + rewrite Ht. cbn [trace]. now rewrite <- app_assoc.
    + apply preceded_app; [| exact Hpre | exact Hopen].
      apply preceded_quiet. repeat constructor.
Qed.

(** C7, counterexample: in the FastAPI notebook, with a function delta
    followed by an assistant delta in the first stream, the follow-up call
    is issued before the second chunk of the first stream is consumed and
    before that stream has ended. *)
Lemma follow_up_after_drain_counterexample :
  let llm := scripted [mkDelta (Some "function") "{}" (Some "lookup");
                       mkDelta (Some "assistant") "ok" None]
                      [mkDelta (Some "assistant") "reply" None] [] in
  let o := run (ServeWithFastAPI.weather_bot llm Json.loads Json.dumps "hi")
             (mkWorld [] []) in
  trace (final o) =
    [ModelCall "WeatherChain" [mkMessage "user" "hi" None];
     Chunk "WeatherChain" (mkDelta (Some "function") "{}" (Some "lookup"));
     ModelCall "FunctionReplyChain"
       [mkMessage "user" "hi" None; mkMessage "function" "{}" (Some "lookup")];
     Chunk "FunctionReplyChain" (mkDelta (Some "assistant") "reply" None);
     StreamEnd "FunctionReplyChain";
     Chunk "WeatherChain" (mkDelta (Some "assistant") "ok" None);
     StreamEnd "WeatherChain"].
Proof. vm_compute. reflexivity. Qed.

Lemma follow_up_after_drain_witness :
  let llm := scripted [weather_call amsterdam_arguments]
               [mkDelta (Some "assistant") "It is sunny" None] [] in
  let o := run (WeatherBot.weather_bot llm Json.loads Json.dumps "weather?")
             (mkWorld [] []) in
  exists added,
    trace (final o) = added /\
    forall pre msgs post,
      added = pre ++ ModelCall "FunctionReplyChain" msgs :: post ->
      pre = [ModelCall "WeatherChain" [mkMessage "user" "weather?" None];
             Chunk "WeatherChain" (weather_call amsterdam_arguments);
             StreamEnd "WeatherChain"].
Proof.
  intros llm o.
  destruct (follow_up_after_drain llm Json.loads Json.dumps "weather?" (mkWorld [] []))
    as (_ & (added & Ht & Hpre) & _).
  exists added. split; [exact Ht | exact Hpre].
Defined.

(** ** The empty history *)

(** C10. Reduction into an empty history is an error: the reducer raises and
    leaves the history empty, whatever the delta, also one with a role. On a
    non-empty history it succeeds and leaves a non-empty history, and saving
    a message makes the history non-empty. A turn saves the user message
    before it folds any delta, so the error of the reducer cannot occur in
    it: what the first stage raises is the failure of the stream of the
    model or the error of a dispatch, and what the follow-up stage raises is
    the failure of its stream. *)
Theorem empty_store_reduction_fails :
  (forall d w, history w = [] ->
     update_delta_on_memory d w = (Raise (IndexError "list index out of range"), w))
  /\
  (forall d w, history w <> [] ->
     exists w', update_delta_on_memory d w = (Ok d, w') /\ history w' <> [])
  /\
  (forall m w, history (snd (save_message_to_memory m w)) <> [])
  /\
  (forall llm json_loads json_dumps user_input w e,
     raised (run (WeatherBot.weather_chain llm json_loads json_dumps user_input) w)
       = Some e ->
     let s := llm "WeatherChain" (history w ++ [mkMessage "user" user_input None]) in
     failure s = Some e \/
     exists d, In d (chunks s) /\ dispatch_result json_loads json_dumps d = Raise e)
  /\
  (forall llm w, history w <> [] ->
     raised (run (WeatherBot.function_reply_chain llm tt) w)
       = failure (llm "FunctionReplyChain" (history w))).
Proof.
  split; [exact update_empty |]. split; [| split; [| split]].
  - intros d w Hw. eexists. split; [apply update_ok; exact Hw |].
    simpl. now apply fold_delta_nonempty.
  - intros m w. simpl. now destruct (history w).
  - intros llm json_loads json_dumps user_input w e Hr s.
    destruct (weather_chain_spec llm json_loads json_dumps user_input w)
      as (_ & _ & Hcases).
    fold s in Hcases.
    destruct Hcases as [(Hf & _) | (e' & pre & d & post & He & Hds & _ & Hd & _)].
    + left. now rewrite <- Hf.
    + right. exists d. rewrite Hr in He. injection He as <-.
      split; [| exact Hd]. rewrite Hds. apply in_or_app. right. now left.
  - intros llm w Hw. now rewrite function_reply_chain_run.
Qed.

Lemma empty_store_reduction_fails_witness :
  update_delta_on_memory (mkDelta (Some "assistant") "Hello!" None) (mkWorld [] [])
    = (Raise (IndexError "list index out of range"), mkWorld [] []) /\
  exists w',
    update_delta_on_memory (mkDelta (Some "assistant") "Hello!" None)
      (mkWorld [mkMessage "user" "hi there" None] [])
      = (Ok (mkDelta (Some "assistant") "Hello!" None), w') /\
    history w' <> [].
Proof.
  destruct empty_store_reduction_fails as (Hempty & Hok & _).
  split.
  - apply Hempty. reflexivity.
  - apply Hok. discriminate.
Defined.

(** ** The dispatch and the history *)

(** C4 (as amended). Dispatch purity. In both notebooks the result of the
    dispatch depends on the delta only, not on the state. The dispatch of
    the first notebook (and of the FastAPI notebook) leaves the state as it
    is, for every delta. The dispatch of the second notebook leaves the
    state as it is for a delta that is no call of [get_current_weather], and
    for a call it appends one function message with the arguments as they
    came to the history, before the arguments are parsed. *)
Theorem dispatch_purity json_loads json_dumps d :
  (forall w1 w2,
     fst (WeatherBot.dispatch json_loads json_dumps d w1)
       = fst (WeatherBot.dispatch json_loads json_dumps d w2)) /\
  (forall w, snd (WeatherBot.dispatch json_loads json_dumps d w) = w) /\
  (forall w, ServeWithFastAPI.dispatch json_loads json_dumps d w
               = WeatherBot.dispatch json_loads json_dumps d w) /\
  (forall w1 w2,
     fst (WeatherBotErrorHandling.dispatch json_loads json_dumps d w1)
       = fst (WeatherBotErrorHandling.dispatch json_loads json_dumps d w2)) /\
  (forall w,
     fst (WeatherBotErrorHandling.dispatch json_loads json_dumps d w)
       = fst (WeatherBot.dispatch json_loads json_dumps d w)) /\
  (forall w,
     snd (WeatherBotErrorHandling.dispatch json_loads json_dumps d w) =
       if is_weather_call d
       then mkWorld (history w ++ [mkMessage "function" (delta_content d)
                                             (Some "get_current_weather")])
                    (trace w)
       else w).
Proof.
  repeat split; intros;
    rewrite ?dispatch_state, ?dispatch_saving_state; reflexivity.
Qed.

(** C4, counterexample: the dispatch of the second notebook changes the
    history when the delta is a call of [get_current_weather]. *)
Lemma dispatch_purity_counterexample :
  let w := mkWorld [mkMessage "user" "weather in Amsterdam?" None] [] in
  history (snd (WeatherBotErrorHandling.dispatch Json.loads Json.dumps
                  (weather_call amsterdam_arguments) w))
    = [mkMessage "user" "weather in Amsterdam?" None;
       mkMessage "function" amsterdam_arguments (Some "get_current_weather")]
  /\ history (snd (WeatherBotErrorHandling.dispatch Json.loads Json.dumps
                     (weather_call amsterdam_arguments) w)) <> history w.
Proof. vm_compute. split; [reflexivity | discriminate]. Qed.

(** ** Error recovery *)

Lemma run_stream_gen name ds fail w :
  run (stream_gen name ds fail) w =
    mkOutcome ds fail
      (mkWorld (history w)
               (trace w ++ List.map (Chunk name) ds ++ stream_end name fail)).
Proof.
  revert w. induction ds as [|d ds IH]; intros w; simpl.
  - destruct fail; simpl; [| reflexivity]. rewrite app_nil_r. now destruct w.
  - rewrite IH. simpl. now rewrite <- app_assoc.
Qed.

Lemma prefix_split p : forall s,
  String.prefix p s = true -> exists rest, s = p +:+ rest.
Proof.
  induction p as [|c p IH]; intros s H.
  - now exists s.
  - destruct s as [|c' s]; [discriminate |].
    unfold String.prefix in H; fold String.prefix in H.
    destruct (Ascii.ascii_dec c c') as [<- | ]; [| discriminate].
    destruct (IH s H) as [rest ->]. now exists rest.
Qed.

Lemma has_underscore_app a b :
  has_underscore (a +:+ b) = has_underscore a || has_underscore b.
Proof.
  induction a as [|c a IH]; simpl; [reflexivity |].
  now rewrite IH, orb_assoc.
Qed.

(** A text that mentions the function has an underscore. *)
Lemma contains_underscore s :
  contains "get_current_weather" s = true -> has_underscore s = true.
Proof.
  induction s as [|c s IH].
  - simpl. discriminate.
  - cbn [contains].
    destruct (String.prefix "get_current_weather" (String c s)) eqn:Hp.
    + intros _. apply prefix_split in Hp as [rest ->].
      now rewrite has_underscore_app.
    + intros H. cbn [has_underscore]. rewrite (IH H). apply orb_true_r.
Qed.

Lemma digits_no_underscore d :
  has_underscore (NilEmpty.string_of_uint d) = false.
Proof. induction d; simpl; auto. Qed.

(** The text of a decoding error of [json] never mentions the function. *)
Lemma decode_error_text je :
  contains "get_current_weather" (str (JSONDecodeErr je)) = false.
Proof.
  destruct (contains _ _) eqn:H; [| reflexivity].
  apply contains_underscore in H. simpl in H.
  unfold JSONDecodeError_str, nat_to_string in H.
  rewrite !has_underscore_app, !digits_no_underscore in H.
  destruct (jde_msg je); discriminate.
Qed.

(** C5 (as amended). Error recovery. The handler takes an error as
    attributable to the function dispatch when its text mentions
    [get_current_weather]. For such an error it appends exactly one user message, whose content is the text
    of the error, to the history, and issues exactly one model call, over the
    history so extended; the chunks of that call are its outputs. Any other
    error is raised again as it is, with the state untouched: no message is
    appended and no call is made. In the first stage of the second notebook
    the handler gets the error that the stream of the model or the dispatch
    raised, in the state the error left. *)
Theorem error_recovery_policy llm (err : PyExn) (w : World) :
  (contains "get_current_weather" (str err) = true ->
   let user := mkMessage "user" (str err) None in
   let s := llm "FunctionErrorChain" (history w ++ [user]) in
   let o := run (WeatherBotErrorHandling.error_handler llm err) w in
   outputs o = chunks s /\
   raised o = failure s /\
   history (final o) = history w ++ [user] /\
   model_calls (trace (final o)) =
     model_calls (trace w) ++ [("FunctionErrorChain", history w ++ [user])])
  /\
  (contains "get_current_weather" (str err) = false ->
   run (WeatherBotErrorHandling.error_handler llm err) w = mkOutcome [] (Some err) w)
  /\
  (forall json_loads json_dumps user_input,
     let inner :=
       Chain.map (OpenAIChatChain llm "WeatherChain"
                    WeatherBotErrorHandling.weather_messages)
                 (WeatherBotErrorHandling.dispatch json_loads json_dumps) in
     let o1 := run (inner user_input) w in
     raised o1 = Some err ->
     run (Chain.on_error inner (WeatherBotErrorHandling.error_handler llm) user_input) w =
       let o := run (WeatherBotErrorHandling.error_handler llm err) (final o1) in
       mkOutcome (outputs o1 ++ outputs o) (raised o) (final o)).
Proof.
  split; [| split].
  - intros Hc user s o.
    assert (Hrun : o =
      mkOutcome (chunks s) (failure s)
        (mkWorld (history w ++ [user])
           (trace w ++ ModelCall "FunctionErrorChain" (history w ++ [user])
              :: List.map (Chunk "FunctionErrorChain") (chunks s)
              ++ stream_end "FunctionErrorChain" (failure s)))).
    { subst o. unfold WeatherBotErrorHandling.error_handler. rewrite Hc.
      unfold WeatherBotErrorHandling.function_error_chain, OpenAIChatChain.
      cbn [run]. unfold WeatherBotErrorHandling.error_messages.
      unfold bind, get_history, save_message_to_memory, bind, get_history,
        set_history, ret. cbn iota beta. unfold emit at 1.
      cbn [fst snd history trace].
      rewrite run_stream_gen. cbn [history trace]. now rewrite <- app_assoc. }
    rewrite Hrun. cbn [outputs raised final history trace].
    repeat split.
    rewrite !model_calls_app. simpl.
    now rewrite model_calls_app, model_calls_chunks, model_calls_stream_end.
  - intros Hc. unfold WeatherBotErrorHandling.error_handler. now rewrite Hc.
  - intros json_loads json_dumps user_input inner o1 Hr.
    unfold Chain.on_error. rewrite run_on_error_gen. fold o1. now rewrite Hr.
Qed.

Lemma error_recovery_policy_witness :
  let err := TypeError
    "get_current_weather() missing 1 required positional argument: 'location'" in
  let llm := scripted [] [] [mkDelta (Some "assistant") "Where are you?" None] in
  let o := run (WeatherBotErrorHandling.error_handler llm err)
             (mkWorld [mkMessage "user" "it is hot today?" None] []) in
  outputs o = [mkDelta (Some "assistant") "Where are you?" None] /\
  history (final o) =
    [mkMessage "user" "it is hot today?" None; mkMessage "user" (str err) None].
Proof.
  intros err llm o.
  destruct (error_recovery_policy llm err
              (mkWorld [mkMessage "user" "it is hot today?" None] []))
    as (H & _ & _).
  destruct (H eq_refl) as (Hout & _ & Hh & _).
  split; [exact Hout | exact Hh].
Defined.

(** C5, counterexample: an error of the dispatch that is not recovered.
    The arguments of the call are cut short, [json.loads] rejects them, and
    the turn ends with the decoding error: no user message is synthesised
    and no recovery call is made. *)
Lemma error_recovery_policy_counterexample :
  let llm := scripted [weather_call "{"]
               [mkDelta (Some "assistant") "It is sunny" None]
               [mkDelta (Some "assistant") "Where are you?" None] in
  let o := run (WeatherBotErrorHandling.weather_bot llm Json.loads Json.dumps
                  "it is hot today?") (mkWorld [] []) in
  fst (WeatherBotErrorHandling.dispatch Json.loads Json.dumps (weather_call "{")
         (mkWorld [mkMessage "user" "it is hot today?" None] []))
    = Raise (JSONDecodeErr (mkJSONDecodeError ExpectingPropertyName 1 2 1)) /\
  raised o = Some (JSONDecodeErr (mkJSONDecodeError ExpectingPropertyName 1 2 1)) /\
  history (final o) =
    [mkMessage "user" "it is hot today?" None;
     mkMessage "function" "{" (Some "get_current_weather")] /\
  calls_of "FunctionErrorChain" (trace (final o)) = [].
Proof. vm_compute. repeat split. Qed.

(** C6 (as amended). Serialization errors are not recovered. When
    [json.loads] rejects the content of a call of [get_current_weather], the
    dispatch of the second notebook raises the decoding error (after it has
    saved the call). The text of a decoding error never mentions the
    function, so the handler raises it again and leaves the state as it is,
    and a first stage that raised a decoding error ends with that error
    under the handler too: no user message is synthesised and no further
    model call is made. The errors of the call itself (the binding errors)
    do mention the function, and are the ones recovered. *)
Theorem decode_error_propagates llm json_loads json_dumps :
  (forall d je w,
     is_weather_call d = true ->
     json_loads (delta_content d) = inr je ->
     WeatherBotErrorHandling.dispatch json_loads json_dumps d w =
       (Raise (JSONDecodeErr je),
        mkWorld (history w ++ [mkMessage "function" (delta_content d)
                                          (Some "get_current_weather")])
                (trace w)))
  /\
  (forall je w,
     run (WeatherBotErrorHandling.error_handler llm (JSONDecodeErr je)) w
       = mkOutcome [] (Some (JSONDecodeErr je)) w)
  /\
  (forall user_input je w,
     let inner :=
       Chain.map (OpenAIChatChain llm "WeatherChain"
                    WeatherBotErrorHandling.weather_messages)
                 (WeatherBotErrorHandling.dispatch json_loads json_dumps) in
     let o1 := run (inner user_input) w in
     raised o1 = Some (JSONDecodeErr je) ->
     run (Chain.on_error inner (WeatherBotErrorHandling.error_handler llm) user_input) w
       = o1)
  /\
  (forall kwargs w e w',
     call_get_current_weather json_dumps kwargs w = (Raise e, w') ->
     contains "get_current_weather" (str e) = true).
Proof.
  assert (Hhandler : forall je w,
            run (WeatherBotErrorHandling.error_handler llm (JSONDecodeErr je)) w
              = mkOutcome [] (Some (JSONDecodeErr je)) w).
  { intros je w. unfold WeatherBotErrorHandling.error_handler.
    now rewrite decode_error_text. }
  split; [| split; [exact Hhandler | split]].
  - intros d je w Hcall Hje. rewrite dispatch_saving_state, Hcall.
    unfold dispatch_result, WeatherBot.dispatch. rewrite Hcall.
    unfold bind, loads. now rewrite Hje.
  - intros user_input je w inner o1 Hr.
    unfold Chain.on_error. rewrite run_on_error_gen. fold o1. rewrite Hr.
    rewrite Hhandler. cbn [outputs raised final]. rewrite app_nil_r.
    destruct o1 as [outs r wf]. simpl in Hr. now subst r.
  - intros kwargs w e w' H.
    apply call_error_names_function in H as (msg & -> & Hmsg). exact Hmsg.
Qed.

Lemma decode_error_propagates_witness :
  WeatherBotErrorHandling.dispatch Json.loads Json.dumps (weather_call "{")
    (mkWorld [mkMessage "user" "hi" None] []) =
    (Raise (JSONDecodeErr (mkJSONDecodeError ExpectingPropertyName 1 2 1)),
     mkWorld [mkMessage "user" "hi" None;
              mkMessage "function" "{" (Some "get_current_weather")] []).
Proof.
  destruct (decode_error_propagates (scripted [] [] []) Json.loads Json.dumps)
    as (H & _).
  apply (H (weather_call "{") (mkJSONDecodeError ExpectingPropertyName 1 2 1)
           (mkWorld [mkMessage "user" "hi" None] [])); reflexivity.
Defined.

(** C6, counterexample: a call of [get_current_weather] whose content is
    the empty text, which is no JSON. The turn of the second notebook ends
    with the decoding error; the history holds the user message and the
    saved call, no synthetic user message, and the only model call is the
    first one. *)
Lemma decode_error_propagates_counterexample :
  let llm := scripted [weather_call EmptyString]
               [mkDelta (Some "assistant") "It is sunny" None]
               [mkDelta (Some "assistant") "Where are you?" None] in
  let o := run (WeatherBotErrorHandling.weather_bot llm Json.loads Json.dumps "hi")
             (mkWorld [] []) in
  raised o = Some (JSONDecodeErr (mkJSONDecodeError ExpectingValue 1 1 0)) /\
  outputs o = [] /\
  history (final o) =
    [mkMessage "user" "hi" None;
     mkMessage "function" EmptyString (Some "get_current_weather")] /\
  List.map fst (model_calls (trace (final o))) = ["WeatherChain"].
Proof. vm_compute. repeat split. Qed.

(** ** The weather scenario *)

Lemma foldl_fold_delta_same_message ds : forall init m,
  Forall (fun d => delta_role d = None \/ delta_role d = Some (msg_role m)) ds ->
  foldl fold_delta (init ++ [m]) ds = init ++ [extend_content (contents ds) m].
Proof.
  induction ds as [|d ds IH]; intros init m Hall; simpl.
  - now rewrite extend_content_empty.
  - apply Forall_cons in Hall as [Hd Hds].
    rewrite (fold_delta_extend _ init m d eq_refl Hd).
    rewrite (IH init (extend_content (delta_content d) m) Hds).
    now rewrite extend_content_twice.
Qed.

(** A streamed message: a first delta with the role, then deltas without
    role or with the same role. *)
Lemma foldl_fold_delta_message a rest r store m :
  last store = Some m -> msg_role m <> r ->
  delta_role a = Some r ->
  Forall (fun d => delta_role d = None \/ delta_role d = Some r) rest ->
  foldl fold_delta store (a :: rest) =
    store ++ [mkMessage r (contents (a :: rest)) (delta_name a)].
Proof.
  intros Hlast Hne Ha Hrest. apply last_Some in Hlast as [init Hs].
  cbn [foldl]. rewrite (fold_delta_append store init m a r Hs Ha Hne).
  rewrite (foldl_fold_delta_same_message rest store
             (mkMessage r (delta_content a) (delta_name a)) Hrest).
  reflexivity.
Qed.

Lemma amsterdam_dispatch :
  dispatch_result Json.loads Json.dumps (weather_call amsterdam_arguments)
    = Ok (mkDelta (Some "function") (Json.dumps amsterdam_result)
                  (Some "get_current_weather")).
Proof. vm_compute. reflexivity. Qed.

Lemma amsterdam_result_dumps : Json.dumps amsterdam_result = amsterdam_result_text.
Proof. vm_compute. reflexivity. Qed.

Section Scenario.

Variable llm : string -> list OpenAIChatMessage -> ModelStream.
Variable a : OpenAIChatDelta.
Variable rest : list OpenAIChatDelta.

Hypothesis first_stream :
  forall msgs, llm "WeatherChain" msgs = mkStream [weather_call amsterdam_arguments] None.
Hypothesis reply_stream :
  forall msgs, llm "FunctionReplyChain" msgs = mkStream (a :: rest) None.
Hypothesis reply_role : delta_role a = Some "assistant".
Hypothesis reply_rest :
  Forall (fun d => delta_role d = None \/ delta_role d = Some "assistant") rest.

Lemma scenario_first_notebook user_input w :
  run (WeatherBot.weather_bot llm Json.loads Json.dumps user_input) w =
    mkOutcome (a :: rest) None
      (mkWorld
         (history w ++
            [mkMessage "user" user_input None;
             mkMessage "function" (Json.dumps amsterdam_result)
                       (Some "get_current_weather");
             mkMessage "assistant" (contents (a :: rest)) (delta_name a)])
         (trace w ++
            [ModelCall "WeatherChain" (history w ++ [mkMessage "user" user_input None]);
             Chunk "WeatherChain" (weather_call amsterdam_arguments);
             StreamEnd "WeatherChain";
             ModelCall "FunctionReplyChain"
               (history w ++
                  [mkMessage "user" user_input None;
                   mkMessage "function" (Json.dumps amsterdam_result)
                             (Some "get_current_weather")])]
            ++ List.map (Chunk "FunctionReplyChain") (a :: rest)
            ++ [StreamEnd "FunctionReplyChain"])).
Proof.
  rewrite weather_bot_run, weather_chain_run. cbv zeta.
  rewrite first_stream. cbn [chunks failure].
  rewrite first_stage_loop_cons by (simpl; now destruct (history w)).
  rewrite amsterdam_dispatch. cbv zeta.
  rewrite first_stage_loop_nil. cbn [outputs raised final history trace].
  rewrite (fold_delta_append _ (history w) (mkMessage "user" user_input None)
             _ "function") by (reflexivity || discriminate).
  unfold WeatherBot.reply. cbn [last]. cbn [delta_role].
  rewrite bool_decide_eq_true_2 by reflexivity.
  rewrite function_reply_chain_run by (simpl; now destruct (history w)).
  cbv zeta. cbn [history trace]. rewrite reply_stream. cbn [chunks failure].
  cbn [delta_content delta_name stream_end].
  rewrite (foldl_fold_delta_message a rest "assistant" _
             (mkMessage "function" (Json.dumps amsterdam_result)
                        (Some "get_current_weather")));
    [| apply last_snoc | discriminate | exact reply_role | exact reply_rest].
  rewrite <- !app_assoc. simpl. rewrite <- ?app_assoc. reflexivity.
Qed.

End Scenario.

Section ScenarioSaving.

Variable llm : string -> list OpenAIChatMessage -> ModelStream.
Variable json_loads : string -> JsonValue + JSONDecodeError.
Variable json_dumps : JsonValue -> string.

(** The deltas of the model in the first stage of the second notebook. *)
#[local] Abbreviation guarded ds fail :=
  (Chain.map_gen update_delta_on_memory
     (Chain.on_error_gen
        (Chain.map_gen (WeatherBotErrorHandling.dispatch json_loads json_dumps)
           (stream_gen "WeatherChain" ds fail))
        (WeatherBotErrorHandling.error_handler llm))).

Lemma guarded_end w :
  run (guarded [] None) w =
    mkOutcome [] None (mkWorld (history w) (trace w ++ [StreamEnd "WeatherChain"])).
Proof. reflexivity. Qed.

(** A call of [get_current_weather] that succeeds: the call is saved, and the
    result, which has the role of the saved message, extends it. *)
Lemma guarded_call d d' ds fail w :
  is_weather_call d = true ->
  dispatch_result json_loads json_dumps d = Ok d' ->
  run (guarded (d :: ds) fail) w =
    let o := run (guarded ds fail)
               (mkWorld (history w ++
                           [mkMessage "function"
                              (delta_content d +:+ delta_content d')
                              (Some "get_current_weather")])
                        (trace w ++ [Chunk "WeatherChain" d])) in
    mkOutcome (d' :: outputs o) (raised o) (final o).
Proof.
  intros Hcall Hd.
  assert (Hrole : delta_role d' = Some "function").
  { rewrite (dispatch_result_role _ _ _ _ Hd).
    now apply is_weather_call_function in Hcall as [-> _]. }
  cbn [stream_gen Chain.map_gen Chain.on_error_gen run].
  unfold try at 1. unfold emit at 1. cbn [run Chain.map_gen Chain.on_error_gen].
  unfold try at 1. rewrite dispatch_saving_state, Hd, Hcall.
  cbn [run Chain.map_gen Chain.on_error_gen].
  rewrite (update_extend d' _ (history w)
             (mkMessage "function" (delta_content d) (Some "get_current_weather")));
    [reflexivity | reflexivity | right; exact Hrole].
Qed.

Lemma weather_chain_saving_run user_input w :
  run (WeatherBotErrorHandling.weather_chain llm json_loads json_dumps user_input) w =
    let user := mkMessage "user" user_input None in
    let msgs := WeatherBotErrorHandling.system_message :: history w ++ [user] in
    run (guarded (chunks (llm "WeatherChain" msgs)) (failure (llm "WeatherChain" msgs)))
        (mkWorld (history w ++ [user]) (trace w ++ [ModelCall "WeatherChain" msgs])).
Proof. reflexivity. Qed.

End ScenarioSaving.

Section ScenarioSecond.

Variable llm : string -> list OpenAIChatMessage -> ModelStream.
Variable a : OpenAIChatDelta.
Variable rest : list OpenAIChatDelta.

Hypothesis first_stream :
  forall msgs, llm "WeatherChain" msgs = mkStream [weather_call amsterdam_arguments] None.
Hypothesis reply_stream :
  forall msgs, llm "FunctionReplyChain" msgs = mkStream (a :: rest) None.
Hypothesis reply_role : delta_role a = Some "assistant".
Hypothesis reply_rest :
  Forall (fun d => delta_role d = None \/ delta_role d = Some "assistant") rest.

Lemma scenario_second_notebook user_input w :
  let o := run (WeatherBotErrorHandling.weather_bot llm Json.loads Json.dumps user_input) w in
  outputs o = a :: rest /\
  raised o = None /\
  history (final o) =
    history w ++
      [mkMessage "user" user_input None;
       mkMessage "function" (amsterdam_arguments +:+ Json.dumps amsterdam_result)
                 (Some "get_current_weather");
       mkMessage "assistant" (contents (a :: rest)) (delta_name a)] /\
  List.map fst (model_calls (trace (final o))) =
    List.map fst (model_calls (trace w)) ++ ["WeatherChain"; "FunctionReplyChain"].
Proof.
  intros o. subst o. rewrite weather_bot_saving_run, weather_chain_saving_run.
  cbv zeta. rewrite first_stream. cbn [chunks failure].
  rewrite (guarded_call llm Json.loads Json.dumps (weather_call amsterdam_arguments)
             _ _ _ _ eq_refl amsterdam_dispatch).
  cbv zeta. rewrite guarded_end. cbn [outputs raised final history trace delta_content].
  unfold WeatherBotErrorHandling.reply. cbn [last delta_role].
  rewrite bool_decide_eq_true_2 by reflexivity.
  change (WeatherBotErrorHandling.function_reply_chain llm tt)
    with (WeatherBot.function_reply_chain llm tt).
  rewrite function_reply_chain_run by (simpl; now destruct (history w)).
  cbv zeta. cbn [history trace outputs raised final].
  rewrite reply_stream. cbn [chunks failure].
  split; [reflexivity |]. split; [reflexivity |]. split.
  - change (weather_call amsterdam_arguments) with
      (mkDelta (Some "function") amsterdam_arguments (Some "get_current_weather")).
    cbn [delta_content].
    rewrite (foldl_fold_delta_message a rest "assistant" _
               (mkMessage "function" (amsterdam_arguments +:+ Json.dumps amsterdam_result)
                          (Some "get_current_weather")));
      [| apply last_snoc | discriminate | exact reply_role | exact reply_rest].
    now rewrite <- !app_assoc.
  - rewrite !model_calls_app, !map_app. simpl.
    rewrite model_calls_app, model_calls_chunks. simpl.
    now rewrite <- !app_assoc.
Qed.

End ScenarioSecond.

(** C9 (as amended). Weather scenario. When the model emits the function
    delta of name [get_current_weather] with the arguments of Amsterdam, the
    dispatch gives a function delta whose content is the JSON text of the
    result (location Amsterdam, forecast sunny, temperature 25 C); the last
    output has role "function", so one follow-up call is made, whose deltas
    (an assistant message) are the outputs of the turn. The turn adds exactly
    three messages to the history: the user message, one function message and
    the assistant message. In the first notebook the content of the function
    message is the JSON text of the result. *)
Theorem weather_scenario llm (a : OpenAIChatDelta) rest user_input w :
  (forall msgs,
     llm "WeatherChain" msgs = mkStream [weather_call amsterdam_arguments] None) ->
  (forall msgs, llm "FunctionReplyChain" msgs = mkStream (a :: rest) None) ->
  delta_role a = Some "assistant" ->
  Forall (fun d => delta_role d = None \/ delta_role d = Some "assistant") rest ->
  dispatch_result Json.loads Json.dumps (weather_call amsterdam_arguments)
    = Ok (mkDelta (Some "function") (Json.dumps amsterdam_result)
                  (Some "get_current_weather")) /\
  Json.dumps amsterdam_result = amsterdam_result_text /\
  (let o := run (WeatherBot.weather_bot llm Json.loads Json.dumps user_input) w in
   outputs o = a :: rest /\
   raised o = None /\
   history (final o) =
     history w ++
       [mkMessage "user" user_input None;
        mkMessage "function" (Json.dumps amsterdam_result) (Some "get_current_weather");
        mkMessage "assistant" (contents (a :: rest)) (delta_name a)] /\
   length (history (final o)) = length (history w) + 3 /\
   List.map fst (model_calls (trace (final o))) =
     List.map fst (model_calls (trace w)) ++ ["WeatherChain"; "FunctionReplyChain"])
  /\
  (let o := run (WeatherBotErrorHandling.weather_bot llm Json.loads Json.dumps
                   user_input) w in
   outputs o = a :: rest /\
   raised o = None /\
   (exists function_message,
      msg_role function_message = "function" /\
      history (final o) =
        history w ++
          [mkMessage "user" user_input None;
           function_message;
           mkMessage "assistant" (contents (a :: rest)) (delta_name a)]) /\
   length (history (final o)) = length (history w) + 3 /\
   List.map fst (model_calls (trace (final o))) =
     List.map fst (model_calls (trace w)) ++ ["WeatherChain"; "FunctionReplyChain"]).
Proof.
  intros Hfirst Hreply Hrole Hrest.
  split; [exact amsterdam_dispatch |]. split; [exact amsterdam_result_dumps |].
  split.
  - intros o. subst o.
    rewrite (scenario_first_notebook llm a rest Hfirst Hreply Hrole Hrest).
    cbn [outputs raised final history trace].
    repeat split.
    + rewrite length_app. reflexivity.
    + rewrite !model_calls_app, !map_app. simpl.
      now rewrite model_calls_chunks.
  - intros o.
    destruct (scenario_second_notebook llm a rest Hfirst Hreply Hrole Hrest
                user_input w) as (Hout & Hr & Hh & Hcalls).
    fold o in Hout, Hr, Hh, Hcalls.
    split; [exact Hout |]. split; [exact Hr |]. split; [| split].
    + eexists. split; [| exact Hh]. reflexivity.
    + rewrite Hh, length_app. reflexivity.
    + exact Hcalls.
Qed.

Lemma weather_scenario_witness :
  let llm := scripted [weather_call amsterdam_arguments]
               [mkDelta (Some "assistant") "It is " None; mkDelta None "25 C" None]
               [] in
  let o := run (WeatherBot.weather_bot llm Json.loads Json.dumps "weather in Amsterdam?")
             (mkWorld [] []) in
  history (final o) =
    [mkMessage "user" "weather in Amsterdam?" None;
     mkMessage "function" amsterdam_result_text (Some "get_current_weather");
     mkMessage "assistant" "It is 25 C" None].
Proof.
  intros llm o.
  destruct (weather_scenario llm (mkDelta (Some "assistant") "It is " None)
              [mkDelta None "25 C" None] "weather in Amsterdam?" (mkWorld [] []))
    as (_ & Htext & (_ & _ & Hh & _) & _).
  - reflexivity.
  - reflexivity.
  - reflexivity.
  - repeat constructor.
  - subst o. rewrite Hh. rewrite Htext. reflexivity.
Defined.

(** C9, counterexample: the turn of the scenario leaves three messages in
    an empty history, not four, in the first and in the second notebook. *)
Lemma weather_scenario_counterexample :
  let llm := scripted [weather_call amsterdam_arguments]
               [mkDelta (Some "assistant") "It is " None; mkDelta None "25 C" None]
               [] in
  let o1 := run (WeatherBot.weather_bot llm Json.loads Json.dumps "weather in Amsterdam?")
              (mkWorld [] []) in
  let o2 := run (WeatherBotErrorHandling.weather_bot llm Json.loads Json.dumps
                   "weather in Amsterdam?") (mkWorld [] []) in
  history (final o1) =
    [mkMessage "user" "weather in Amsterdam?" None;
     mkMessage "function" amsterdam_result_text (Some "get_current_weather");
     mkMessage "assistant" "It is 25 C" None] /\
  length (history (final o1)) = 3 /\
  length (history (final o2)) = 3 /\
  length (history (final o1)) <> 4 /\
  length (history (final o2)) <> 4.
Proof. vm_compute. repeat split; discriminate. Qed.

(** * Further properties of the notebooks' code *)

(** ** The reducer on a stream of deltas *)

Lemma fold_all_run ds : forall w,
  history w <> [] ->
  fold_all ds w =
    mkOutcome ds None (mkWorld (foldl fold_delta (history w) ds) (trace w)).
Proof.
  induction ds as [|d ds IH]; intros w Hw.
  - rewrite fold_all_nil. now destruct w.
  - rewrite fold_all_cons, (update_ok d w Hw).
    rewrite IH by (simpl; now apply fold_delta_nonempty).
    reflexivity.
Qed.

Lemma all_text_app h1 h2 : all_text (h1 ++ h2) = all_text h1 +:+ all_text h2.
Proof.
  induction h1 as [|m h1 IH]; simpl; [reflexivity |].
  now rewrite IH, append_assoc.
Qed.

Lemma all_text_fold_delta h d :
  h <> [] -> all_text (fold_delta h d) = all_text h +:+ delta_content d.
Proof.
  intros Hh. destruct (snoc_cases h) as [-> | (init & m & ->)]; [congruence |].
  assert (Hext : fold_delta (init ++ [m]) d =
                   init ++ [extend_content (delta_content d) m] ->
                 all_text (fold_delta (init ++ [m]) d) =
                   all_text (init ++ [m]) +:+ delta_content d).
  { intros ->. rewrite !all_text_app. simpl.
    now rewrite !append_empty, append_assoc. }
  destruct (delta_role d) as [r|] eqn:Hr.
  - destruct (decide (msg_role m = r)) as [Heq | Hne].
    + apply Hext. apply fold_delta_extend; [reflexivity | right; congruence].
    + rewrite (fold_delta_append _ init m d r eq_refl Hr Hne).
      rewrite (all_text_app (init ++ [m])). simpl. now rewrite append_empty.
  - apply Hext. apply fold_delta_extend; [reflexivity | now left].
Qed.

Lemma all_text_foldl ds : forall h,
  h <> [] -> all_text (foldl fold_delta h ds) = all_text h +:+ contents ds.
Proof.
  induction ds as [|d ds IH]; intros h Hh; simpl.
  - now rewrite append_empty.
  - rewrite IH by now apply fold_delta_nonempty.
    now rewrite all_text_fold_delta, append_assoc.
Qed.

(** X1. The reducer loses no text and adds none of its own. Folding any
    deltas (whatever their roles and names) into a history that is not empty
    never raises, passes the deltas on as they are, and leaves a history whose
    contents, read one after the other, are those of the history before
    followed by the contents of the deltas in their order. *)
Theorem reducer_conserves_text (ds : list OpenAIChatDelta) (w : World) :
  history w <> [] ->
  let o := fold_all ds w in
  raised o = None /\
  outputs o = ds /\
  trace (final o) = trace w /\
  all_text (history (final o)) = all_text (history w) +:+ contents ds.
Proof.
  intros Hw o. subst o. rewrite (fold_all_run ds w Hw).
  cbn [raised outputs final history trace].
  repeat split. now apply all_text_foldl.
Qed.

Lemma reducer_conserves_text_witness :
  let o := fold_all [mkDelta (Some "function") "{}" (Some "lookup");
                     mkDelta (Some "assistant") "Hel" None;
                     mkDelta None "lo" None;
                     mkDelta (Some "user") "!" None]
                    (mkWorld [mkMessage "user" "hi" None] []) in
  raised o = None /\
  all_text (history (final o)) = "hi{}Hello!".
Proof.
  intros o.
  destruct (reducer_conserves_text
              [mkDelta (Some "function") "{}" (Some "lookup");
               mkDelta (Some "assistant") "Hel" None;
               mkDelta None "lo" None;
               mkDelta (Some "user") "!" None]
              (mkWorld [mkMessage "user" "hi" None] []))
    as (Hr & _ & _ & Ht).
  - discriminate.
  - split; [exact Hr | exact Ht].
Defined.

Lemma alternating_cons a b rest :
  alternating (a :: b :: rest) =
    bool_decide (msg_role a <> msg_role b) && alternating (b :: rest).
Proof. reflexivity. Qed.

Lemma alternating_snoc init : forall m m',
  alternating (init ++ [m]) = true ->
  msg_role m <> msg_role m' ->
  alternating ((init ++ [m]) ++ [m']) = true.
Proof.
  induction init as [|a init IH]; intros m m' H Hne.
  - cbn [app]. rewrite alternating_cons.
    rewrite bool_decide_eq_true_2 by exact Hne. reflexivity.
  - destruct init as [|b init]; cbn [app] in H |- *;
      rewrite alternating_cons in H |- *;
      apply andb_true_iff in H as [H1 H2]; rewrite H1; cbn [andb].
    + exact (IH m m' H2 Hne).
    + exact (IH m m' H2 Hne).
Qed.

Lemma alternating_last init : forall m m',
  alternating (init ++ [m]) = true ->
  msg_role m' = msg_role m ->
  alternating (init ++ [m']) = true.
Proof.
  induction init as [|a init IH]; intros m m' H Heq.
  - reflexivity.
  - destruct init as [|b init]; cbn [app] in H |- *;
      rewrite alternating_cons in H |- *;
      apply andb_true_iff in H as [H1 H2].
    + rewrite Heq, H1. reflexivity.
    + rewrite H1. cbn [andb]. exact (IH m m' H2 Heq).
Qed.

Lemma alternating_fold_delta h d :
  h <> [] -> alternating h = true -> alternating (fold_delta h d) = true.
Proof.
  intros Hh Halt.
  destruct (snoc_cases h) as [-> | (init & m & ->)]; [congruence |].
  assert (Hext : fold_delta (init ++ [m]) d =
                   init ++ [extend_content (delta_content d) m] ->
                 alternating (fold_delta (init ++ [m]) d) = true).
  { intros ->. now apply (alternating_last init m). }
  destruct (delta_role d) as [r|] eqn:Hr.
  - destruct (decide (msg_role m = r)) as [Heq | Hne].
    + apply Hext. apply fold_delta_extend; [reflexivity | right; congruence].
    + rewrite (fold_delta_append _ init m d r eq_refl Hr Hne).
      now apply alternating_snoc.
  - apply Hext. apply fold_delta_extend; [reflexivity | now left].
Qed.

(** X2. The reducer never puts two messages of one role side by side. If no
    two neighbours of a history that is not empty have the same role, then
    after any deltas have been folded into it no two neighbours have: a
    delta of the role of the last message extends that message, whatever its
    name, and only a delta of another role starts a message. *)
Theorem reducer_keeps_alternation (ds : list OpenAIChatDelta) (w : World) :
  history w <> [] ->
  alternating (history w) = true ->
  alternating (history (final (fold_all ds w))) = true.
Proof.
  intros Hw Halt. rewrite (fold_all_run ds w Hw). cbn [final history].
  remember (history w) as h eqn:Hh. clear Hh w.
  revert h Hw Halt. induction ds as [|d ds IH]; intros h Hw Halt; simpl.
  - exact Halt.
  - apply IH; [now apply fold_delta_nonempty | now apply alternating_fold_delta].
Qed.

Lemma reducer_keeps_alternation_witness :
  alternating
    (history (final (fold_all
       [mkDelta (Some "function") "{}" (Some "get_current_weather");
        mkDelta (Some "function") "sunny" (Some "other");
        mkDelta (Some "assistant") "It is sunny" None]
       (mkWorld [mkMessage "user" "hi" None] [])))) = true.
Proof.
  apply (reducer_keeps_alternation
           [mkDelta (Some "function") "{}" (Some "get_current_weather");
            mkDelta (Some "function") "sunny" (Some "other");
            mkDelta (Some "assistant") "It is sunny" None]
           (mkWorld [mkMessage "user" "hi" None] [])).
  - discriminate.
  - reflexivity.
Defined.

(** ** The call of the weather function *)

Lemma unexpected_keyword_none items :
  unexpected_keyword items = None <->
  Forall (fun kv => fst kv = "location" \/ fst kv = "format") items.
Proof.
  induction items as [|[k v] items IH]; simpl.
  - split; [constructor | reflexivity].
  - destruct (decide (k = "location")) as [-> | Hl].
    + simpl. rewrite IH. split.
      * intros H. constructor; [now left | exact H].
      * intros H. now apply Forall_cons in H as [_ H].
    + rewrite (bool_decide_eq_false_2 _ Hl). simpl.
      destruct (decide (k = "format")) as [-> | Hf].
      * simpl. rewrite IH. split.
        -- intros H. constructor; [now right | exact H].
        -- intros H. now apply Forall_cons in H as [_ H].
      * rewrite (bool_decide_eq_false_2 _ Hf). split; [discriminate |].
        intros H. apply Forall_cons in H as [[H | H] _]; simpl in H; congruence.
Qed.

Lemma lookup_item_none key items :
  lookup_item key items = None <-> ~ In key (List.map fst items).
Proof.
  induction items as [|[k v] items IH]; simpl.
  - split; [tauto | reflexivity].
  - destruct (decide (k = key)) as [-> | Hne].
    + rewrite bool_decide_eq_true_2 by reflexivity.
      split; [discriminate | tauto].
    + rewrite (bool_decide_eq_false_2 _ Hne). rewrite IH. tauto.
Qed.

(** X3. When the call of [get_current_weather] on the parsed arguments
    binds. The call returns exactly when the arguments are a JSON object
    whose keys are all among [location] and [format] and that has the key
    [location]; it then leaves the state as it is and returns the delta the
    function builds from the value of [location], whatever its type, and the
    value of [format], or "celsius" when that key is missing. On any other
    value (a list, null, an object with another key or without [location])
    the call raises. *)
Theorem call_binds_iff (json_dumps : JsonValue -> string)
    (kwargs : JsonValue) (w w' : World) (d : OpenAIChatDelta) :
  call_get_current_weather json_dumps kwargs w = (Ok d, w') <->
  exists items location,
    kwargs = JDict items /\
    Forall (fun kv => fst kv = "location" \/ fst kv = "format") items /\
    lookup_item "location" items = Some location /\
    w' = w /\
    d = get_current_weather json_dumps location
          (default (JStr "celsius") (lookup_item "format" items)).
Proof.
  split.
  - intros H. destruct kwargs as [| | | | | |items]; try discriminate H.
    exists items. unfold call_get_current_weather in H.
    destruct (unexpected_keyword items) as [k|] eqn:Hk; [discriminate H |].
    destruct (lookup_item "location" items) as [location|] eqn:Hl;
      [| discriminate H].
    exists location. unfold ret in H. injection H as <- <-.
    repeat split. now apply unexpected_keyword_none.
  - intros (items & location & -> & Hkeys & Hl & -> & ->).
    unfold call_get_current_weather.
    apply unexpected_keyword_none in Hkeys. rewrite Hkeys, Hl. reflexivity.
Qed.

(** ** The test of the error handler *)

Lemma prefix_append p s : String.prefix p (p +:+ s) = true.
Proof.
  induction p as [|c p IH]; simpl.
  - now destruct s.
  - destruct (Ascii.ascii_dec c c); [exact IH | congruence].
Qed.

(** [contains] is the test [needle in hay] of Python: the text [hay] has
    [needle] somewhere inside. *)
Lemma contains_iff needle hay :
  contains needle hay = true <-> exists a b, hay = a +:+ needle +:+ b.
Proof.
  split.
  - induction hay as [|c hay IH]; cbn [contains].
    + destruct (String.prefix needle EmptyString) eqn:Hp; [| discriminate].
      intros _. apply prefix_split in Hp as [rest Hp].
      exists EmptyString, rest. exact Hp.
    + destruct (String.prefix needle (String c hay)) eqn:Hp.
      * intros _. apply prefix_split in Hp as [rest Hp].
        exists EmptyString, rest. exact Hp.
      * intros H. destruct (IH H) as (a & b & ->).
        exists (String c a), b. reflexivity.
  - intros (a & b & ->). induction a as [|c a IH].
    + change (EmptyString +:+ needle +:+ b) with (needle +:+ b).
      destruct (needle +:+ b) eqn:Heq; cbn [contains];
        rewrite <- Heq, prefix_append; reflexivity.
    + change (String c a +:+ needle +:+ b) with (String c (a +:+ needle +:+ b)).
      cbn [contains]. rewrite IH. now destruct (String.prefix _ _).
Qed.

Lemma error_handler_recovers llm err w :
  contains "get_current_weather" (str err) = true ->
  let user := mkMessage "user" (str err) None in
  let s := llm "FunctionErrorChain" (history w ++ [user]) in
  run (WeatherBotErrorHandling.error_handler llm err) w =
    mkOutcome (chunks s) (failure s)
      (mkWorld (history w ++ [user])
         (trace w ++ ModelCall "FunctionErrorChain" (history w ++ [user])
            :: List.map (Chunk "FunctionErrorChain") (chunks s)
            ++ stream_end "FunctionErrorChain" (failure s))).
Proof.
  intros Hc user s. unfold WeatherBotErrorHandling.error_handler. rewrite Hc.
  unfold WeatherBotErrorHandling.function_error_chain, OpenAIChatChain.
  cbn [run]. unfold WeatherBotErrorHandling.error_messages.
  unfold bind, get_history, save_message_to_memory, bind, get_history,
    set_history, ret. cbn iota beta. unfold emit at 1.
  cbn [fst snd history trace].
  rewrite run_stream_gen. cbn [history trace]. now rewrite <- app_assoc.
Qed.

(** X4. Which errors the handler of the second notebook gives back. The
    handler ends with the error it was given, in the state it was given,
    having yielded nothing (it raises the error again) exactly when the text
    of the error does not have [get_current_weather] somewhere inside; when
    the text has it, the handler does not end so: it saves a message. The
    class of the error plays no part. *)
Theorem error_handler_reraises_iff
    (llm : string -> list OpenAIChatMessage -> ModelStream)
    (err : PyExn) (w : World) :
  run (WeatherBotErrorHandling.error_handler llm err) w
    = mkOutcome [] (Some err) w
  <->
  ~ exists a b, str err = a +:+ "get_current_weather" +:+ b.
Proof.
  destruct (contains "get_current_weather" (str err)) eqn:Hc.
  - split.
    + intros Hrun. exfalso.
      rewrite (error_handler_recovers llm err w Hc) in Hrun.
      apply (f_equal (fun o => length (history (final o)))) in Hrun.
      cbn [final history] in Hrun. rewrite length_app in Hrun. simpl in Hrun. lia.
    + intros Hno. exfalso. apply Hno. now apply contains_iff.
  - split.
    + intros _ Hex. apply contains_iff in Hex. congruence.
    + intros _. unfold WeatherBotErrorHandling.error_handler. now rewrite Hc.
Qed.

(** ** What every turn keeps *)

Lemma fold_delta_cases h d :
  h <> [] ->
  exists init m,
    h = init ++ [m] /\
    ((exists new, fold_delta h d = h ++ [new]) \/
     fold_delta h d = init ++ [extend_content (delta_content d) m]).
Proof.
  intros Hh. destruct (snoc_cases h) as [-> | (init & m & ->)]; [congruence |].
  exists init, m. split; [reflexivity |].
  destruct (delta_role d) as [r|] eqn:Hr.
  - destruct (decide (msg_role m = r)) as [Heq | Hne].
    + right. apply fold_delta_extend; [reflexivity | right; congruence].
    + left. eexists. exact (fold_delta_append _ init m d r eq_refl Hr Hne).
  - right. apply fold_delta_extend; [reflexivity | now left].
Qed.

Lemma turn_history_start h user_input :
  turn_history h user_input (h ++ [mkMessage "user" user_input None]).
Proof. exists EmptyString, []. now rewrite append_empty. Qed.

Lemma turn_history_nonempty h user_input h' :
  turn_history h user_input h' -> h' <> [].
Proof. intros (suffix & added & ->). now destruct h. Qed.

Lemma turn_history_append h user_input h' m :
  turn_history h user_input h' -> turn_history h user_input (h' ++ [m]).
Proof.
  intros (suffix & added & ->). exists suffix, (added ++ [m]).
  now rewrite <- app_assoc.
Qed.

Lemma turn_history_fold_delta h user_input h' d :
  turn_history h user_input h' -> turn_history h user_input (fold_delta h' d).
Proof.
  intros Hturn.
  destruct (fold_delta_cases h' d (turn_history_nonempty _ _ _ Hturn))
    as (init & m & Hh' & [[new ->] | ->]).
  - now apply turn_history_append.
  - destruct Hturn as (suffix & added & Heq). rewrite Hh' in Heq.
    destruct (snoc_cases added) as [-> | (added' & x & ->)].
    + apply (app_inj_tail init h) in Heq as [-> ->].
      exists (suffix +:+ delta_content d), [].
      unfold extend_content. simpl. now rewrite append_assoc.
    + change (h ++ mkMessage "user" (user_input +:+ suffix) None :: added' ++ [x])
        with (h ++ (mkMessage "user" (user_input +:+ suffix) None :: added') ++ [x])
        in Heq.
      rewrite app_assoc in Heq. apply app_inj_tail in Heq as [-> ->].
      exists suffix, (added' ++ [extend_content (delta_content d) x]).
      now rewrite <- app_assoc.
Qed.

Section TurnInvariant.

Variable llm : string -> list OpenAIChatMessage -> ModelStream.
Variable json_loads : string -> JsonValue + JSONDecodeError.
Variable json_dumps : JsonValue -> string.

(** A property of the state that the reducer, the saving of a message and
    the log keep. *)
Variable I : World -> Prop.
Hypothesis I_update : forall d w, I w -> I (snd (update_delta_on_memory d w)).
Hypothesis I_save : forall m w, I w -> I (snd (save_message_to_memory m w)).
Hypothesis I_emit : forall ev w, I w -> I (snd (emit ev w)).

Lemma keeps_as_async_generator {A} (values : list A) :
  keeps I (as_async_generator values).
Proof. induction values; simpl; auto. Qed.

Lemma keeps_collect_then {A B} (g : AsyncGen A) (next : list A -> AsyncGen B) :
  forall acc,
    keeps I g -> (forall outs, keeps I (next outs)) ->
    keeps I (Chain.collect_then g acc next).
Proof.
  induction g as [| e | a rest IH | X c k IH]; intros acc Hg Hnext; simpl; auto.
  destruct Hg as [Hc Hk]. split; [exact Hc |]. intros x. now apply IH.
Qed.

Lemma keeps_model_call name msgs :
  keeps I (Do (emit (ModelCall name msgs)) (fun _ =>
           stream_gen name (chunks (llm name msgs)) (failure (llm name msgs)))).
Proof.
  split; [intros w; apply I_emit |]. intros _. now apply keeps_stream_gen.
Qed.

Lemma keeps_follow_up :
  keeps I (ServeWithFastAPI.function_reply_chain llm tt).
Proof.
  unfold ServeWithFastAPI.function_reply_chain, OpenAIChatChain.
  split; [intros w Hw; exact Hw |]. intros msgs. apply keeps_model_call.
Qed.

Lemma keeps_reply outs : keeps I (WeatherBot.reply llm outs).
Proof.
  unfold WeatherBot.reply. destruct (last outs) as [o|]; [| exact Logic.I].
  destruct (bool_decide _); [| apply keeps_as_async_generator].
  unfold WeatherBot.function_reply_chain, debug, Chain.map.
  apply keeps_map_gen; [intros a w; apply I_update |].
  apply keeps_follow_up.
Qed.

Lemma keeps_dispatch d w :
  I w -> I (snd (WeatherBot.dispatch json_loads json_dumps d w)).
Proof. intros Hw. now rewrite dispatch_state. Qed.

Lemma keeps_dispatch_saving d w :
  I w -> I (snd (WeatherBotErrorHandling.dispatch json_loads json_dumps d w)).
Proof.
  intros Hw. rewrite dispatch_saving_state. cbn [snd].
  destruct (is_weather_call d); [| exact Hw].
  exact (I_save (mkMessage "function" (delta_content d)
                   (Some "get_current_weather")) w Hw).
Qed.

Lemma keeps_first_stage_loop ds fail :
  keeps I (first_stage_loop json_loads json_dumps ds fail).
Proof.
  unfold first_stage_loop.
  apply keeps_map_gen; [intros a w; apply I_update |].
  apply keeps_map_gen; [intros a w; apply keeps_dispatch |].
  now apply keeps_stream_gen.
Qed.

Lemma keeps_error_handler e :
  keeps I (WeatherBotErrorHandling.error_handler llm e).
Proof.
  unfold WeatherBotErrorHandling.error_handler.
  destruct (contains _ _); [| exact Logic.I].
  unfold WeatherBotErrorHandling.function_error_chain, OpenAIChatChain.
  split.
  - intros w Hw.
    exact (I_save (mkMessage "user" (str (snd ("get_current_weather", e))) None)
             w Hw).
  - intros msgs. apply keeps_model_call.
Qed.

Lemma keeps_guarded ds fail :
  keeps I
    (Chain.map_gen update_delta_on_memory
       (Chain.on_error_gen
          (Chain.map_gen (WeatherBotErrorHandling.dispatch json_loads json_dumps)
             (stream_gen "WeatherChain" ds fail))
          (WeatherBotErrorHandling.error_handler llm))).
Proof.
  apply keeps_map_gen; [intros a w; apply I_update |].
  apply keeps_on_error_gen; [apply keeps_error_handler |].
  apply keeps_map_gen; [intros a w; apply keeps_dispatch_saving |].
  now apply keeps_stream_gen.
Qed.

Lemma keeps_reply_function_call g :
  keeps I g -> keeps I (ServeWithFastAPI.reply_function_call llm g).
Proof.
  induction g as [| e | a rest IH | X c k IH]; intros Hg;
    cbn [ServeWithFastAPI.reply_function_call].
  - exact Logic.I.
  - exact Logic.I.
  - destruct (bool_decide _).
    + apply keeps_then_gen; [apply keeps_follow_up | now apply IH].
    + apply IH. exact Hg.
  - destruct Hg as [Hc Hk]. split; [exact Hc |]. intros x. now apply IH.
Qed.

Lemma keeps_serving_loop ds fail :
  keeps I (serving_loop llm json_loads json_dumps ds fail).
Proof.
  unfold serving_loop.
  apply keeps_map_gen; [intros a w Hw; exact Hw |].
  apply keeps_map_gen; [intros a w; apply I_update |].
  apply keeps_reply_function_call, keeps_first_stage_loop.
Qed.

End TurnInvariant.

Lemma turn_update h user_input log context d w :
  turn_history h user_input (history w) /\ turn_log log context (trace w) ->
  turn_history h user_input (history (snd (update_delta_on_memory d w))) /\
  turn_log log context (trace (snd (update_delta_on_memory d w))).
Proof.
  intros [Hh Hl].
  rewrite (update_ok d w (turn_history_nonempty _ _ _ Hh)). cbn [snd history trace].
  split; [now apply turn_history_fold_delta | exact Hl].
Qed.

Lemma turn_save h user_input log context m w :
  turn_history h user_input (history w) /\ turn_log log context (trace w) ->
  turn_history h user_input (history (snd (save_message_to_memory m w))) /\
  turn_log log context (trace (snd (save_message_to_memory m w))).
Proof.
  intros [Hh Hl]. split; [| exact Hl].
  exact (turn_history_append _ _ _ m Hh).
Qed.

Lemma turn_emit h user_input log context ev w :
  turn_history h user_input (history w) /\ turn_log log context (trace w) ->
  turn_history h user_input (history (snd (emit ev w))) /\
  turn_log log context (trace (snd (emit ev w))).
Proof.
  intros [Hh (events & Hl)]. split; [exact Hh |].
  exists (events ++ [ev]). cbn [emit snd trace]. rewrite Hl.
  now rewrite <- app_assoc.
Qed.

Lemma turn_log_start log context : turn_log log context (log ++ [ModelCall "WeatherChain" context]).
Proof. now exists []. Qed.

(** X5. A turn of the bot of the first notebook keeps the messages of the
    earlier turns. Whatever the model streams, and whether the turn ends or
    raises, the history it leaves is the history it found, unchanged and in
    place, then the message of the user (its content can only have been
    extended, by deltas of the role "user" or of no role that came first),
    then what the turn added; and the log of the turn opens with the call of
    [WeatherChain] on the history found followed by the message of the
    user. *)
Theorem weather_bot_keeps_history
    (llm : string -> list OpenAIChatMessage -> ModelStream)
    (json_loads : string -> JsonValue + JSONDecodeError)
    (json_dumps : JsonValue -> string) (user_input : string) (w : World) :
  let o := run (WeatherBot.weather_bot llm json_loads json_dumps user_input) w in
  turn_history (history w) user_input (history (final o)) /\
  turn_log (trace w) (history w ++ [mkMessage "user" user_input None])
    (trace (final o)).
Proof.
  intros o. subst o. rewrite weather_bot_run. cbv zeta.
  rewrite weather_chain_run. cbv zeta.
  set (ctx := history w ++ [mkMessage "user" user_input None]).
  set (w1 := mkWorld ctx (trace w ++ [ModelCall "WeatherChain" ctx])).
  set (I := fun w' : World =>
              turn_history (history w) user_input (history w') /\
              turn_log (trace w) ctx (trace w')).
  assert (H1 : I w1).
  { split; [apply turn_history_start | apply turn_log_start]. }
  assert (Hupdate : forall d w', I w' -> I (snd (update_delta_on_memory d w')))
    by (intros d w'; apply turn_update).
  assert (Hemit : forall ev w', I w' -> I (snd (emit ev w')))
    by (intros ev w'; apply turn_emit).
  set (g := first_stage_loop json_loads json_dumps
              (chunks (llm "WeatherChain" ctx)) (failure (llm "WeatherChain" ctx))).
  assert (Ho1 : I (final (run g w1))).
  { apply run_keeps; [| exact H1]. now apply keeps_first_stage_loop. }
  destruct (raised (run g w1)); [exact Ho1 |].
  apply (run_keeps I); [| exact Ho1]. now apply keeps_reply.
Qed.

(** X6. A turn of the bot of the second notebook keeps the messages of the
    earlier turns. Whatever the model streams, whether the dispatch or the
    handler raise, the history the turn leaves is the history it found,
    unchanged and in place, then the message of the user, then what the turn
    added; the log of the turn opens with the call of [WeatherChain] on the
    system message, the history found and the message of the user. The
    system message is sent, not stored by the code of the turn. *)
Theorem weather_bot_saving_keeps_history
    (llm : string -> list OpenAIChatMessage -> ModelStream)
    (json_loads : string -> JsonValue + JSONDecodeError)
    (json_dumps : JsonValue -> string) (user_input : string) (w : World) :
  let o := run (WeatherBotErrorHandling.weather_bot llm json_loads json_dumps
                  user_input) w in
  turn_history (history w) user_input (history (final o)) /\
  turn_log (trace w)
    (WeatherBotErrorHandling.system_message
       :: history w ++ [mkMessage "user" user_input None])
    (trace (final o)).
Proof.
  intros o. subst o. rewrite weather_bot_saving_run. cbv zeta.
  rewrite weather_chain_saving_run. cbv zeta.
  set (ctx := WeatherBotErrorHandling.system_message
                :: history w ++ [mkMessage "user" user_input None]).
  set (w1 := mkWorld (history w ++ [mkMessage "user" user_input None])
               (trace w ++ [ModelCall "WeatherChain" ctx])).
  set (I := fun w' : World =>
              turn_history (history w) user_input (history w') /\
              turn_log (trace w) ctx (trace w')).
  assert (H1 : I w1).
  { split; [apply turn_history_start | apply turn_log_start]. }
  assert (Hupdate : forall d w', I w' -> I (snd (update_delta_on_memory d w')))
    by (intros d w'; apply turn_update).
  assert (Hsave : forall m w', I w' -> I (snd (save_message_to_memory m w')))
    by (intros m w'; apply turn_save).
  assert (Hemit : forall ev w', I w' -> I (snd (emit ev w')))
    by (intros ev w'; apply turn_emit).
  match goal with
  | |- context [run ?gen w1] => set (g := gen)
  end.
  assert (Ho1 : I (final (run g w1))).
  { apply run_keeps; [| exact H1]. now apply keeps_guarded. }
  destruct (raised (run g w1)); [exact Ho1 |].
  apply (run_keeps I); [| exact Ho1].
  change (WeatherBotErrorHandling.reply llm (outputs (run g w1)))
    with (WeatherBot.reply llm (outputs (run g w1))).
  now apply keeps_reply.
Qed.

(** The pipeline of the FastAPI notebook, from a state inside a turn. *)
Lemma serving_loop_turn llm json_loads json_dumps h user_input log context
    ds fail w :
  turn_history h user_input (history w) /\ turn_log log context (trace w) ->
  let o := run (serving_loop llm json_loads json_dumps ds fail) w in
  turn_history h user_input (history (final o)) /\
  turn_log log context (trace (final o)).
Proof.
  intros Hw o. subst o.
  set (I := fun w' : World =>
              turn_history h user_input (history w') /\
              turn_log log context (trace w')).
  assert (Hupdate : forall d w', I w' -> I (snd (update_delta_on_memory d w')))
    by (intros d w'; apply turn_update).
  assert (Hemit : forall ev w', I w' -> I (snd (emit ev w')))
    by (intros ev w'; apply turn_emit).
  apply (run_keeps I); [| exact Hw]. now apply keeps_serving_loop.
Qed.

(** X7. A turn of the bot of the FastAPI notebook keeps the messages of the
    earlier turns of the user. Whatever the model streams, and whether the
    turn ends or raises, the history of the [Memory] after the turn is the
    history before it, unchanged and in place, then the message of the
    user, then what the turn added; the log of the turn opens with the call
    of [WeatherChain] on the history found followed by the message of the
    user. *)
Theorem serving_bot_keeps_history
    (llm : string -> list OpenAIChatMessage -> ModelStream)
    (json_loads : string -> JsonValue + JSONDecodeError)
    (json_dumps : JsonValue -> string) (user_input : string) (w : World) :
  let o := run (ServeWithFastAPI.weather_bot llm json_loads json_dumps
                  user_input) w in
  turn_history (history w) user_input (history (final o)) /\
  turn_log (trace w) (history w ++ [mkMessage "user" user_input None])
    (trace (final o)).
Proof.
  intros o. subst o. rewrite serving_bot_run. cbv zeta.
  apply serving_loop_turn. cbn [history trace].
  split; [apply turn_history_start | apply turn_log_start].
Qed.

(** ** Turns in which no function is called *)

Lemma dispatch_result_plain json_loads json_dumps d :
  is_weather_call d = false -> dispatch_result json_loads json_dumps d = Ok d.
Proof.
  intros H. unfold dispatch_result, WeatherBot.dispatch. now rewrite H.
Qed.

Lemma not_function_not_call d :
  delta_role d <> Some "function" -> is_weather_call d = false.
Proof.
  intros H. unfold is_weather_call. now rewrite (bool_decide_eq_false_2 _ H).
Qed.

Lemma first_stage_loop_plain json_loads json_dumps ds fail : forall w,
  history w <> [] ->
  Forall (fun d => is_weather_call d = false) ds ->
  run (first_stage_loop json_loads json_dumps ds fail) w =
    mkOutcome ds fail
      (mkWorld (foldl fold_delta (history w) ds)
         (trace w ++ List.map (Chunk "WeatherChain") ds
            ++ stream_end "WeatherChain" fail)).
Proof.
  induction ds as [|d ds IH]; intros w Hw Hall.
  - now rewrite first_stage_loop_nil.
  - apply Forall_cons in Hall as [Hd Hds].
    rewrite first_stage_loop_cons by exact Hw.
    rewrite (dispatch_result_plain _ _ d Hd). cbv zeta.
    rewrite IH; [| cbn [history]; now apply fold_delta_nonempty | exact Hds].
    cbn [outputs raised final history trace foldl List.map].
    now rewrite <- app_assoc.
Qed.

Lemma streamed_message_roles (a : OpenAIChatDelta) rest r :
  delta_role a = Some r -> r <> "function" ->
  Forall (fun d => delta_role d = None \/ delta_role d = Some r) rest ->
  Forall (fun d => delta_role d <> Some "function") (a :: rest).
Proof.
  intros Ha Hr Hrest. constructor; [congruence |].
  eapply Forall_impl; [exact Hrest |].
  intros d [Hd | Hd]; rewrite Hd; congruence.
Qed.

Lemma Forall_last {A} (P : A -> Prop) l x :
  Forall P l -> last l = Some x -> P x.
Proof.
  intros Hall Hl. apply last_Some in Hl as [init ->].
  apply Forall_app in Hall as [_ Hx]. now apply Forall_cons in Hx as [Hx _].
Qed.

(** X8. A turn of the first notebook in which the model answers with one
    message. When the stream of the model is a first delta of a role other
    than "user" and "function", followed by deltas of no role or of that
    role, and ends, the bot makes the one call of [WeatherChain], yields the
    deltas as they came, and adds two messages to the history: the message
    of the user and one message of the role of the first delta, with its
    name, whose content is the contents of the deltas in their order. *)
Theorem plain_reply_turn
    (llm : string -> list OpenAIChatMessage -> ModelStream)
    (json_loads : string -> JsonValue + JSONDecodeError)
    (json_dumps : JsonValue -> string) (user_input : string) (w : World)
    (a : OpenAIChatDelta) (rest : list OpenAIChatDelta) (r : string) :
  llm "WeatherChain" (history w ++ [mkMessage "user" user_input None])
    = mkStream (a :: rest) None ->
  delta_role a = Some r ->
  r <> "user" ->
  r <> "function" ->
  Forall (fun d => delta_role d = None \/ delta_role d = Some r) rest ->
  run (WeatherBot.weather_bot llm json_loads json_dumps user_input) w =
    mkOutcome (a :: rest) None
      (mkWorld
         (history w ++
            [mkMessage "user" user_input None;
             mkMessage r (contents (a :: rest)) (delta_name a)])
         (trace w ++
            ModelCall "WeatherChain"
              (history w ++ [mkMessage "user" user_input None])
            :: List.map (Chunk "WeatherChain") (a :: rest)
            ++ [StreamEnd "WeatherChain"])).
Proof.
  intros Hllm Ha Huser Hfun Hrest.
  pose proof (streamed_message_roles a rest r Ha Hfun Hrest) as Hroles.
  rewrite weather_bot_run. cbv zeta. rewrite weather_chain_run. cbv zeta.
  rewrite Hllm. cbn [chunks failure].
  rewrite first_stage_loop_plain;
    [| cbn [history]; now destruct (history w)
     | eapply Forall_impl; [exact Hroles | apply not_function_not_call]].
  cbn [outputs raised final history trace stream_end].
  rewrite (foldl_fold_delta_message a rest r _ (mkMessage "user" user_input None));
    [| apply last_snoc | exact (not_eq_sym Huser) | exact Ha | exact Hrest].
  destruct (last (a :: rest)) as [d|] eqn:Hlast.
  - destruct (reply_run llm (a :: rest) d
                (mkWorld
                   ((history w ++ [mkMessage "user" user_input None]) ++
                      [mkMessage r (contents (a :: rest)) (delta_name a)])
                   ((trace w ++
                       [ModelCall "WeatherChain"
                          (history w ++ [mkMessage "user" user_input None])]) ++
                      List.map (Chunk "WeatherChain") (a :: rest)
                      ++ [StreamEnd "WeatherChain"])))
      as (_ & _ & Hplain).
    + cbn [history]. now destruct (history w ++ [mkMessage "user" user_input None]).
    + exact Hlast.
    + rewrite (Hplain (Forall_last _ _ _ Hroles Hlast)).
      now rewrite <- !app_assoc.
  - apply last_None in Hlast. discriminate.
Qed.

Lemma plain_reply_turn_witness :
  let llm := scripted [mkDelta (Some "assistant") "Hello! " None;
                       mkDelta None "How can I assist you today?" None] [] [] in
  let o := run (WeatherBot.weather_bot llm Json.loads Json.dumps "hi there")
             (mkWorld [] []) in
  outputs o = [mkDelta (Some "assistant") "Hello! " None;
               mkDelta None "How can I assist you today?" None] /\
  history (final o) =
    [mkMessage "user" "hi there" None;
     mkMessage "assistant" "Hello! How can I assist you today?" None].
Proof.
  intros llm o. subst o.
  rewrite (plain_reply_turn llm Json.loads Json.dumps "hi there" (mkWorld [] [])
             (mkDelta (Some "assistant") "Hello! " None)
             [mkDelta None "How can I assist you today?" None] "assistant").
  - split; reflexivity.
  - reflexivity.
  - reflexivity.
  - discriminate.
  - discriminate.
  - repeat constructor.
Defined.

Lemma serving_loop_extend llm json_loads json_dumps fail ds : forall w init m,
  history w = init ++ [m] ->
  msg_role m <> "function" ->
  Forall (fun d => delta_role d = None \/ delta_role d = Some (msg_role m)) ds ->
  run (serving_loop llm json_loads json_dumps ds fail) w =
    mkOutcome (List.map delta_content ds) fail
      (mkWorld (init ++ [extend_content (contents_twice ds) m])
         (trace w ++ List.map (Chunk "WeatherChain") ds
            ++ stream_end "WeatherChain" fail)).
Proof.
  induction ds as [|d ds IH]; intros w init m Hw Hm Hall.
  - rewrite serving_loop_nil. cbn [List.map contents_twice foldr].
    now rewrite extend_content_empty, Hw.
  - apply Forall_cons in Hall as [Hd Hds].
    assert (Hrole : delta_role d <> Some "function")
      by (destruct Hd as [Hd | Hd]; rewrite Hd; congruence).
    rewrite serving_loop_cons by (rewrite Hw; now destruct init).
    cbv zeta.
    rewrite (dispatch_result_plain _ _ d (not_function_not_call d Hrole)).
    rewrite (bool_decide_eq_false_2 _ Hrole).
    rewrite (fold_delta_extend (history w) init m d Hw Hd).
    rewrite (fold_delta_extend _ init (extend_content (delta_content d) m) d
               eq_refl Hd).
    rewrite extend_content_twice. cbn [trace].
    rewrite (IH (mkWorld
                   (init ++ [extend_content (delta_content d +:+ delta_content d) m])
                   (trace w ++ [Chunk "WeatherChain" d]))
               init (extend_content (delta_content d +:+ delta_content d) m)
               eq_refl Hm Hds).
    cbn [outputs raised final history trace List.map].
    rewrite extend_content_twice.
    change (contents_twice (d :: ds)) with
      (delta_content d +:+ delta_content d +:+ contents_twice ds).
    now rewrite append_assoc, <- app_assoc.
Qed.

(** X9. A turn of the FastAPI notebook in which the model answers with one
    message: each delta is folded twice. When the stream of the model is a
    first delta of a role other than "user" and "function", followed by
    deltas of no role or of that role, and ends, the bot makes the one call
    of [WeatherChain] and yields the contents of the deltas as they came;
    but [update_delta] is mapped over the chain of the model and again over
    the bot, so the message the turn leaves in the [Memory] of the user has
    the content of each delta twice in a row. *)
Theorem serving_plain_reply_turn
    (llm : string -> list OpenAIChatMessage -> ModelStream)
    (json_loads : string -> JsonValue + JSONDecodeError)
    (json_dumps : JsonValue -> string) (user_input : string) (w : World)
    (a : OpenAIChatDelta) (rest : list OpenAIChatDelta) (r : string) :
  llm "WeatherChain" (history w ++ [mkMessage "user" user_input None])
    = mkStream (a :: rest) None ->
  delta_role a = Some r ->
  r <> "user" ->
  r <> "function" ->
  Forall (fun d => delta_role d = None \/ delta_role d = Some r) rest ->
  run (ServeWithFastAPI.weather_bot llm json_loads json_dumps user_input) w =
    mkOutcome (List.map delta_content (a :: rest)) None
      (mkWorld
         (history w ++
            [mkMessage "user" user_input None;
             mkMessage r (contents_twice (a :: rest)) (delta_name a)])
         (trace w ++
            ModelCall "WeatherChain"
              (history w ++ [mkMessage "user" user_input None])
            :: List.map (Chunk "WeatherChain") (a :: rest)
            ++ [StreamEnd "WeatherChain"])).
Proof.
  intros Hllm Ha Huser Hfun Hrest.
  assert (Hrole : delta_role a <> Some "function") by (rewrite Ha; congruence).
  rewrite serving_bot_run. cbv zeta. rewrite Hllm. cbn [chunks failure].
  rewrite serving_loop_cons by (cbn [history]; now destruct (history w)).
  cbv zeta. cbn [history trace].
  rewrite (dispatch_result_plain _ _ a (not_function_not_call a Hrole)).
  rewrite (bool_decide_eq_false_2 _ Hrole).
  rewrite (fold_delta_append _ (history w) (mkMessage "user" user_input None) a r
             eq_refl Ha (not_eq_sym Huser)).
  rewrite (fold_delta_extend _ (history w ++ [mkMessage "user" user_input None])
             (mkMessage r (delta_content a) (delta_name a)) a eq_refl
             (or_intror Ha)).
  cbn [trace].
  rewrite (serving_loop_extend llm json_loads json_dumps None rest
             (mkWorld
                ((history w ++ [mkMessage "user" user_input None]) ++
                   [extend_content (delta_content a)
                      (mkMessage r (delta_content a) (delta_name a))])
                ((trace w ++
                    [ModelCall "WeatherChain"
                       (history w ++ [mkMessage "user" user_input None])]) ++
                   [Chunk "WeatherChain" a]))
             (history w ++ [mkMessage "user" user_input None])
             (extend_content (delta_content a)
                (mkMessage r (delta_content a) (delta_name a)))
             eq_refl Hfun Hrest).
  cbn [outputs raised final history trace List.map stream_end].
  rewrite extend_content_twice. unfold extend_content.
  cbn [msg_role msg_content msg_name].
  change (contents_twice (a :: rest)) with
    (delta_content a +:+ delta_content a +:+ contents_twice rest).
  rewrite ?append_assoc, <- !app_assoc. reflexivity.
Qed.

Lemma serving_plain_reply_turn_witness :
  let llm := scripted [mkDelta (Some "assistant") "Hello" None;
                       mkDelta None "!" None] [] [] in
  let o := run (ServeWithFastAPI.weather_bot llm Json.loads Json.dumps "hi there")
             (mkWorld [] []) in
  outputs o = ["Hello"; "!"] /\
  history (final o) =
    [mkMessage "user" "hi there" None;
     mkMessage "assistant" "HelloHello!!" None].
Proof.
  intros llm o. subst o.
  rewrite (serving_plain_reply_turn llm Json.loads Json.dumps "hi there"
             (mkWorld [] [])
             (mkDelta (Some "assistant") "Hello" None)
             [mkDelta None "!" None] "assistant").
  - split; reflexivity.
  - reflexivity.
  - reflexivity.
  - discriminate.
  - discriminate.
  - repeat constructor.
Defined.

(** ** Streams that are empty or fail *)

(** X10. A model that answers with no delta at all. When the stream of
    [WeatherChain] ends without a delta, the bots of the first and of the
    second notebook raise [IndexError]: the function given to [and_then]
    takes the last of no outputs. The bot of the FastAPI notebook, which
    loops over the stream, ends with no output and no error. In the three
    cases the message of the user has been saved and the model has been
    called once. *)
Theorem empty_first_stream
    (llm : string -> list OpenAIChatMessage -> ModelStream)
    (json_loads : string -> JsonValue + JSONDecodeError)
    (json_dumps : JsonValue -> string) (user_input : string) (w : World) :
  (forall msgs, llm "WeatherChain" msgs = mkStream [] None) ->
  let user := mkMessage "user" user_input None in
  let err := IndexError "list index out of range" in
  run (WeatherBot.weather_bot llm json_loads json_dumps user_input) w =
    mkOutcome [] (Some err)
      (mkWorld (history w ++ [user])
         (trace w ++ [ModelCall "WeatherChain" (history w ++ [user]);
                      StreamEnd "WeatherChain"]))
  /\
  run (WeatherBotErrorHandling.weather_bot llm json_loads json_dumps user_input) w =
    mkOutcome [] (Some err)
      (mkWorld (history w ++ [user])
         (trace w ++
            [ModelCall "WeatherChain"
               (WeatherBotErrorHandling.system_message :: history w ++ [user]);
             StreamEnd "WeatherChain"]))
  /\
  run (ServeWithFastAPI.weather_bot llm json_loads json_dumps user_input) w =
    mkOutcome [] None
      (mkWorld (history w ++ [user])
         (trace w ++ [ModelCall "WeatherChain" (history w ++ [user]);
                      StreamEnd "WeatherChain"])).
Proof.
  intros Hllm user err. split; [| split].
  - rewrite weather_bot_run. cbv zeta. rewrite weather_chain_run. cbv zeta.
    rewrite Hllm. cbn [chunks failure]. rewrite first_stage_loop_nil.
    cbn [outputs raised final history trace stream_end].
    unfold WeatherBot.reply. cbn [last run]. now rewrite <- app_assoc.
  - rewrite weather_bot_saving_run. cbv zeta.
    rewrite weather_chain_saving_run. cbv zeta.
    rewrite Hllm. cbn [chunks failure]. rewrite guarded_end.
    cbn [outputs raised final history trace].
    unfold WeatherBotErrorHandling.reply. cbn [last run].
    now rewrite <- app_assoc.
  - rewrite serving_bot_run. cbv zeta. rewrite Hllm. cbn [chunks failure].
    rewrite serving_loop_nil. cbn [history trace stream_end].
    now rewrite <- app_assoc.
Qed.

Lemma empty_first_stream_witness :
  let o := run (WeatherBot.weather_bot (scripted [] [] []) Json.loads Json.dumps "hi")
             (mkWorld [] []) in
  raised o = Some (IndexError "list index out of range") /\
  history (final o) = [mkMessage "user" "hi" None].
Proof.
  intros o. subst o.
  destruct (empty_first_stream (scripted [] [] []) Json.loads Json.dumps "hi"
              (mkWorld [] [])) as (H & _ & _).
  - reflexivity.
  - rewrite H. split; reflexivity.
Defined.

(** X11. A stream that fails in the first notebook. When the stream of
    [WeatherChain] raises after deltas none of which is a call of
    [get_current_weather], the turn raises that error and yields nothing,
    though the deltas were received; no further call of the model is made;
    and the deltas received before the error stay folded in the history
    after the message of the user: nothing is rolled back. *)
Theorem stream_failure_turn
    (llm : string -> list OpenAIChatMessage -> ModelStream)
    (json_loads : string -> JsonValue + JSONDecodeError)
    (json_dumps : JsonValue -> string) (user_input : string) (w : World)
    (ds : list OpenAIChatDelta) (e : PyExn) :
  llm "WeatherChain" (history w ++ [mkMessage "user" user_input None])
    = mkStream ds (Some e) ->
  Forall (fun d => is_weather_call d = false) ds ->
  run (WeatherBot.weather_bot llm json_loads json_dumps user_input) w =
    mkOutcome [] (Some e)
      (mkWorld
         (foldl fold_delta (history w ++ [mkMessage "user" user_input None]) ds)
         (trace w ++
            ModelCall "WeatherChain"
              (history w ++ [mkMessage "user" user_input None])
            :: List.map (Chunk "WeatherChain") ds)).
Proof.
  intros Hllm Hds.
  rewrite weather_bot_run. cbv zeta. rewrite weather_chain_run. cbv zeta.
  rewrite Hllm. cbn [chunks failure].
  rewrite first_stage_loop_plain;
    [| cbn [history]; now destruct (history w) | exact Hds].
  cbn [outputs raised final history trace stream_end].
  now rewrite app_nil_r, <- app_assoc.
Qed.

Lemma stream_failure_turn_witness :
  let llm := fun (_ : string) (_ : list OpenAIChatMessage) =>
    mkStream [mkDelta (Some "assistant") "It is" None]
             (Some (OtherException "APIError" "connection reset")) in
  let o := run (WeatherBot.weather_bot llm Json.loads Json.dumps "weather?")
             (mkWorld [] []) in
  outputs o = [] /\
  raised o = Some (OtherException "APIError" "connection reset") /\
  history (final o) =
    [mkMessage "user" "weather?" None; mkMessage "assistant" "It is" None].
Proof.
  intros llm o. subst o.
  rewrite (stream_failure_turn llm Json.loads Json.dumps "weather?" (mkWorld [] [])
             [mkDelta (Some "assistant") "It is" None]
             (OtherException "APIError" "connection reset")).
  - repeat split.
  - reflexivity.
  - repeat constructor.
Defined.

(** ** The first stage of the second notebook *)

(** The recovery inside the first stage: the deltas of [FunctionErrorChain]
    do not go through the dispatch, only through the reducer. *)
Lemma recovery_run llm e w :
  contains "get_current_weather" (str e) = true ->
  let h1 := history w ++ [mkMessage "user" (str e) None] in
  let s := llm "FunctionErrorChain" h1 in
  run (Chain.map_gen update_delta_on_memory
         (WeatherBotErrorHandling.error_handler llm e)) w =
    mkOutcome (chunks s) (failure s)
      (mkWorld (foldl fold_delta h1 (chunks s))
         (trace w ++ ModelCall "FunctionErrorChain" h1
            :: List.map (Chunk "FunctionErrorChain") (chunks s)
            ++ stream_end "FunctionErrorChain" (failure s))).
Proof.
  intros Hc h1 s. unfold WeatherBotErrorHandling.error_handler. rewrite Hc.
  unfold WeatherBotErrorHandling.function_error_chain, OpenAIChatChain.
  cbn [Chain.map_gen run]. unfold WeatherBotErrorHandling.error_messages.
  unfold bind, get_history, save_message_to_memory, bind, get_history,
    set_history, ret. cbn iota beta. unfold emit at 1.
  cbn [fst snd history trace].
  rewrite run_update_stream by (cbn [history]; now destruct (history w)).
  cbn [history trace]. now rewrite <- app_assoc.
Qed.

Lemma guarded_error llm json_loads json_dumps d e ds fail w :
  is_weather_call d = true ->
  dispatch_result json_loads json_dumps d = Raise e ->
  contains "get_current_weather" (str e) = true ->
  let h1 := history w ++
              [mkMessage "function" (delta_content d) (Some "get_current_weather");
               mkMessage "user" (str e) None] in
  let s := llm "FunctionErrorChain" h1 in
  run (Chain.map_gen update_delta_on_memory
         (Chain.on_error_gen
            (Chain.map_gen (WeatherBotErrorHandling.dispatch json_loads json_dumps)
               (stream_gen "WeatherChain" (d :: ds) fail))
            (WeatherBotErrorHandling.error_handler llm))) w =
    mkOutcome (chunks s) (failure s)
      (mkWorld (foldl fold_delta h1 (chunks s))
         (trace w ++ Chunk "WeatherChain" d
            :: ModelCall "FunctionErrorChain" h1
            :: List.map (Chunk "FunctionErrorChain") (chunks s)
            ++ stream_end "FunctionErrorChain" (failure s))).
Proof.
  intros Hcall Hd Hc h1 s.
  cbn [stream_gen Chain.map_gen Chain.on_error_gen run].
  unfold try at 1. unfold emit at 1. cbn [run Chain.map_gen Chain.on_error_gen].
  unfold try at 1. rewrite dispatch_saving_state, Hd, Hcall.
  rewrite (recovery_run llm e _ Hc). cbv zeta. cbn [history trace].
  subst s h1. rewrite <- !app_assoc. reflexivity.
Qed.

(** X12. A call that does not bind, in the first stage of the second
    notebook. When the first delta of the model is a call of
    [get_current_weather] whose arguments parse and the call raises a
    [TypeError] (an argument is missing or unknown, or the arguments are no
    object), the stage leaves in the history, after the message of the user,
    the call with its arguments as a function message and the text of the
    error as a user message, then what the deltas of [FunctionErrorChain]
    fold to. Its outputs are those deltas as the model sent them: they do
    not go through the dispatch. The deltas of the first stream after the
    call are never consumed. *)
Theorem binding_error_turn
    (llm : string -> list OpenAIChatMessage -> ModelStream)
    (json_loads : string -> JsonValue + JSONDecodeError)
    (json_dumps : JsonValue -> string) (user_input : string) (w : World)
    (d : OpenAIChatDelta) (ds : list OpenAIChatDelta) (fail : option PyExn)
    (msg : string) :
  llm "WeatherChain"
      (WeatherBotErrorHandling.system_message
         :: history w ++ [mkMessage "user" user_input None])
    = mkStream (d :: ds) fail ->
  is_weather_call d = true ->
  dispatch_result json_loads json_dumps d = Raise (TypeError msg) ->
  let h1 := history w ++
              [mkMessage "user" user_input None;
               mkMessage "function" (delta_content d) (Some "get_current_weather");
               mkMessage "user" msg None] in
  let s := llm "FunctionErrorChain" h1 in
  let o := run (WeatherBotErrorHandling.weather_chain llm json_loads json_dumps
                  user_input) w in
  outputs o = chunks s /\
  raised o = failure s /\
  history (final o) = foldl fold_delta h1 (chunks s) /\
  trace (final o) =
    trace w ++
      [ModelCall "WeatherChain"
         (WeatherBotErrorHandling.system_message
            :: history w ++ [mkMessage "user" user_input None]);
       Chunk "WeatherChain" d;
       ModelCall "FunctionErrorChain" h1]
      ++ List.map (Chunk "FunctionErrorChain") (chunks s)
      ++ stream_end "FunctionErrorChain" (failure s).
Proof.
  intros Hllm Hcall Hd h1 s o. subst o.
  assert (Hc : contains "get_current_weather" (str (TypeError msg)) = true).
  { destruct (dispatch_result_error _ _ _ _ Hd) as (_ & [(je & _ & Hje) | (m & Hm & Hc)]).
    - discriminate Hje.
    - injection Hm as ->. exact Hc. }
  rewrite weather_chain_saving_run. cbv zeta. rewrite Hllm. cbn [chunks failure].
  rewrite (guarded_error llm json_loads json_dumps d (TypeError msg) ds fail _
             Hcall Hd Hc).
  cbv zeta. cbn [outputs raised final history trace str].
  subst s h1. rewrite <- !app_assoc. repeat split.
Qed.

Lemma binding_error_turn_witness :
  let llm := scripted [weather_call "{}"] []
               [mkDelta (Some "assistant") "Where are you?" None] in
  let o := run (WeatherBotErrorHandling.weather_chain llm Json.loads Json.dumps
                  "it is hot today?") (mkWorld [] []) in
  outputs o = [mkDelta (Some "assistant") "Where are you?" None] /\
  history (final o) =
    [mkMessage "user" "it is hot today?" None;
     mkMessage "function" "{}" (Some "get_current_weather");
     mkMessage "user"
       "get_current_weather() missing 1 required positional argument: 'location'"
       None;
     mkMessage "assistant" "Where are you?" None].
Proof.
  intros llm o.
  destruct (binding_error_turn llm Json.loads Json.dumps "it is hot today?"
              (mkWorld [] []) (weather_call "{}") [] None
              "get_current_weather() missing 1 required positional argument: 'location'")
    as (Hout & _ & Hh & _).
  - reflexivity.
  - reflexivity.
  - vm_compute. reflexivity.
  - split; [exact Hout | exact Hh].
Defined.

(** X13. A call that succeeds, in the second notebook: the call and its
    result end in one message. When the stream of [WeatherChain] is one
    delta, a call of [get_current_weather] that the dispatch answers with
    the result delta, the dispatch has saved the call as a function message
    and the reducer, which sees the same role, extends that message with the
    result. The follow-up call of [FunctionReplyChain] is then made on the
    history found, the message of the user and one function message whose
    content is the arguments of the call followed at once by the text of
    the result; its deltas are the outputs of the turn and are folded after
    that message. *)
Theorem call_and_result_merged
    (llm : string -> list OpenAIChatMessage -> ModelStream)
    (json_loads : string -> JsonValue + JSONDecodeError)
    (json_dumps : JsonValue -> string) (user_input : string) (w : World)
    (d d' : OpenAIChatDelta) :
  llm "WeatherChain"
      (WeatherBotErrorHandling.system_message
         :: history w ++ [mkMessage "user" user_input None])
    = mkStream [d] None ->
  is_weather_call d = true ->
  dispatch_result json_loads json_dumps d = Ok d' ->
  let h1 := history w ++
              [mkMessage "user" user_input None;
               mkMessage "function" (delta_content d +:+ delta_content d')
                         (Some "get_current_weather")] in
  let s := llm "FunctionReplyChain" h1 in
  let o := run (WeatherBotErrorHandling.weather_bot llm json_loads json_dumps
                  user_input) w in
  outputs o = chunks s /\
  raised o = failure s /\
  history (final o) = foldl fold_delta h1 (chunks s) /\
  model_calls (trace (final o)) =
    model_calls (trace w) ++
      [("WeatherChain",
        WeatherBotErrorHandling.system_message
          :: history w ++ [mkMessage "user" user_input None]);
       ("FunctionReplyChain", h1)].
Proof.
  intros Hllm Hcall Hd h1 s o. subst o.
  assert (Hrole : delta_role d' = Some "function").
  { rewrite (dispatch_result_role _ _ _ _ Hd).
    now apply is_weather_call_function in Hcall as [-> _]. }
  rewrite weather_bot_saving_run. cbv zeta.
  rewrite weather_chain_saving_run. cbv zeta. rewrite Hllm. cbn [chunks failure].
  rewrite (guarded_call llm json_loads json_dumps d d' [] None _ Hcall Hd).
  cbv zeta. rewrite guarded_end. cbn [outputs raised final history trace].
  unfold WeatherBotErrorHandling.reply. cbn [last]. rewrite Hrole.
  rewrite bool_decide_eq_true_2 by reflexivity.
  change (WeatherBotErrorHandling.function_reply_chain llm tt)
    with (WeatherBot.function_reply_chain llm tt).
  rewrite function_reply_chain_run
    by (cbn [history]; now destruct (history w ++ [mkMessage "user" user_input None])).
  cbv zeta. cbn [outputs raised final history trace].
  assert (Hh : (history w ++ [mkMessage "user" user_input None]) ++
               [mkMessage "function" (delta_content d +:+ delta_content d')
                          (Some "get_current_weather")] = h1)
    by (subst h1; now rewrite <- app_assoc).
  rewrite Hh. fold s. repeat split.
  rewrite !model_calls_app. simpl.
  rewrite model_calls_app, model_calls_chunks, model_calls_stream_end.
  simpl. rewrite <- ?app_assoc. reflexivity.
Qed.

Lemma call_and_result_merged_witness :
  let llm := scripted [weather_call amsterdam_arguments]
               [mkDelta (Some "assistant") "It is sunny" None] [] in
  let o := run (WeatherBotErrorHandling.weather_bot llm Json.loads Json.dumps
                  "I am in Amsterdam") (mkWorld [] []) in
  history (final o) =
    [mkMessage "user" "I am in Amsterdam" None;
     mkMessage "function" (amsterdam_arguments +:+ amsterdam_result_text)
               (Some "get_current_weather");
     mkMessage "assistant" "It is sunny" None].
Proof.
  intros llm o.
  destruct (call_and_result_merged llm Json.loads Json.dumps "I am in Amsterdam"
              (mkWorld [] []) (weather_call amsterdam_arguments)
              (mkDelta (Some "function") (Json.dumps amsterdam_result)
                 (Some "get_current_weather")))
    as (_ & _ & Hh & _).
  - reflexivity.
  - reflexivity.
  - vm_compute. reflexivity.
  - subst o. rewrite Hh. vm_compute. reflexivity.
Defined.

(** ** The endpoint of the FastAPI notebook *)

Lemma run_blind {A} (g : AsyncGen A) :
  blind g -> forall h t t',
    outputs (run g (mkWorld h t)) = outputs (run g (mkWorld h t')) /\
    raised (run g (mkWorld h t)) = raised (run g (mkWorld h t')) /\
    history (final (run g (mkWorld h t))) = history (final (run g (mkWorld h t'))).
Proof.
  induction g as [| e | a rest IH | X c k IH]; intros Hg h t t'; cbn [run].
  - auto.
  - auto.
  - destruct (IH Hg h t t') as (H1 & H2 & H3).
    cbn [outputs raised final]. rewrite H1. auto.
  - destruct Hg as [Hc Hk]. destruct (Hc h t t') as [Hr Hh].
    destruct (c (mkWorld h t)) as [r [h1 t1]].
    destruct (c (mkWorld h t')) as [r' [h1' t1']].
    cbn [fst snd history] in Hr, Hh. subst r' h1'.
    destruct r as [x | e]; [apply IH, Hk | auto].
Qed.

Lemma blind_update d : log_blind (update_delta_on_memory d).
Proof.
  intros h t t'. unfold update_delta_on_memory, bind, get_history.
  cbn [history]. destruct (last h) as [m|]; [| now split].
  destruct (delta_role d) as [r|]; [destruct (bool_decide _) |]; now split.
Qed.

Lemma blind_save m : log_blind (save_message_to_memory m).
Proof. intros h t t'. now split. Qed.

Lemma blind_emit ev : log_blind (emit ev).
Proof. intros h t t'. now split. Qed.

Lemma blind_dispatch json_loads json_dumps d :
  log_blind (WeatherBot.dispatch json_loads json_dumps d).
Proof. intros h t t'. rewrite !dispatch_state. now split. Qed.

Lemma blind_map_gen {A B} (f : A -> M B) (g : AsyncGen A) :
  (forall a, log_blind (f a)) -> blind g -> blind (Chain.map_gen f g).
Proof.
  intros Hf. induction g as [| e | a rest IH | X c k IH]; intros Hg;
    cbn [Chain.map_gen blind].
  - exact Logic.I.
  - exact Logic.I.
  - split; [apply Hf |]. intros b. now apply IH.
  - destruct Hg as [Hc Hk]. split; [exact Hc |]. intros x. now apply IH.
Qed.

Lemma blind_then_gen {A} (g1 g2 : AsyncGen A) :
  blind g1 -> blind g2 -> blind (then_gen g1 g2).
Proof.
  intros H1 H2. induction g1 as [| e | a rest IH | X c k IH];
    cbn [then_gen blind].
  - exact H2.
  - exact Logic.I.
  - now apply IH.
  - destruct H1 as [Hc Hk]. split; [exact Hc |]. intros x. now apply IH.
Qed.

Lemma blind_stream_gen name ds fail : blind (stream_gen name ds fail).
Proof.
  induction ds as [|d ds IH]; cbn [stream_gen blind].
  - destruct fail; cbn [blind]; [exact Logic.I |].
    split; [apply blind_emit | intros _; exact Logic.I].
  - split; [apply blind_emit | intros _; exact IH].
Qed.

Lemma blind_model_call llm name msgs :
  blind (Do (emit (ModelCall name msgs)) (fun _ =>
         stream_gen name (chunks (llm name msgs)) (failure (llm name msgs)))).
Proof. split; [apply blind_emit | intros _; apply blind_stream_gen]. Qed.

Lemma blind_reply_function_call llm g :
  blind g -> blind (ServeWithFastAPI.reply_function_call llm g).
Proof.
  induction g as [| e | a rest IH | X c k IH]; intros Hg;
    cbn [ServeWithFastAPI.reply_function_call].
  - exact Logic.I.
  - exact Logic.I.
  - destruct (bool_decide _).
    + apply blind_then_gen; [| now apply IH].
      unfold ServeWithFastAPI.function_reply_chain, OpenAIChatChain.
      split; [intros h t t'; now split |]. intros msgs. apply blind_model_call.
    + apply IH. exact Hg.
  - destruct Hg as [Hc Hk]. split; [exact Hc |]. intros x. now apply IH.
Qed.

Lemma blind_serving_bot llm json_loads json_dumps user_input :
  blind (ServeWithFastAPI.weather_bot llm json_loads json_dumps user_input).
Proof.
  unfold ServeWithFastAPI.weather_bot, Chain.map, Chain.pipe.
  apply blind_map_gen; [intros d h t t'; now split |].
  apply blind_map_gen; [apply blind_update |].
  apply blind_reply_function_call.
  unfold ServeWithFastAPI.weather_chain, Chain.map.
  apply blind_map_gen; [apply blind_update |].
  apply blind_map_gen; [apply blind_dispatch |].
  unfold OpenAIChatChain. split; [intros h t t'; now split |].
  intros msgs. apply blind_model_call.
Qed.

(** The [Memory] of a user, new when the user has not written yet. *)
Lemma chat_memory (db : gmap string (list OpenAIChatMessage)) user_id :
  default ServeWithFastAPI.Memory_init
    (match db !! user_id with
     | Some _ => db
     | None => <[user_id := ServeWithFastAPI.Memory_init]> db
     end !! user_id)
  = default [] (db !! user_id).
Proof.
  destruct (db !! user_id) as [h|] eqn:Hdb.
  - now rewrite Hdb.
  - now rewrite lookup_insert_eq.
Qed.

Lemma chat_others (db : gmap string (list OpenAIChatMessage)) user_id other h :
  other <> user_id ->
  <[user_id := h]>
    (match db !! user_id with
     | Some _ => db
     | None => <[user_id := ServeWithFastAPI.Memory_init]> db
     end) !! other
  = db !! other.
Proof.
  intros Hne. rewrite lookup_insert_ne by congruence.
  destruct (db !! user_id); [reflexivity |].
  now rewrite lookup_insert_ne by congruence.
Qed.

Lemma chat_response llm json_loads json_dumps user_input user_id s :
  fst (ServeWithFastAPI.chat llm json_loads json_dumps user_input user_id s) =
    let o := run (ServeWithFastAPI.weather_bot llm json_loads json_dumps user_input)
               (mkWorld
                  (default [] (ServeWithFastAPI.in_memory_database s !! user_id))
                  (ServeWithFastAPI.server_trace s)) in
    ServeWithFastAPI.mkResponse (outputs o) (raised o).
Proof. unfold ServeWithFastAPI.chat. cbn [fst]. now rewrite chat_memory. Qed.

Lemma chat_lookup llm json_loads json_dumps user_input user_id s :
  ServeWithFastAPI.in_memory_database
    (snd (ServeWithFastAPI.chat llm json_loads json_dumps user_input user_id s))
    !! user_id =
  Some (history (final
    (run (ServeWithFastAPI.weather_bot llm json_loads json_dumps user_input)
       (mkWorld (default [] (ServeWithFastAPI.in_memory_database s !! user_id))
          (ServeWithFastAPI.server_trace s))))).
Proof.
  unfold ServeWithFastAPI.chat. cbn [snd ServeWithFastAPI.in_memory_database].
  now rewrite lookup_insert_eq, chat_memory.
Qed.

Lemma chat_lookup_other llm json_loads json_dumps user_input user_id s other :
  other <> user_id ->
  ServeWithFastAPI.in_memory_database
    (snd (ServeWithFastAPI.chat llm json_loads json_dumps user_input user_id s))
    !! other
  = ServeWithFastAPI.in_memory_database s !! other.
Proof.
  intros Hne. unfold ServeWithFastAPI.chat.
  cbn [snd ServeWithFastAPI.in_memory_database]. now apply chat_others.
Qed.

(** X14. What a request does to the memories of the server. A request of
    a user, served to the end, leaves the [Memory] of every other user as
    it was. The [Memory] of the user itself, empty if the user had none, is
    kept in place: after the request it holds the messages it held, then the
    message of the user, then what the turn added, also when the turn
    raised; and the model was first called on the messages it held followed
    by the message of the user. *)
Theorem chat_keeps_memories
    (llm : string -> list OpenAIChatMessage -> ModelStream)
    (json_loads : string -> JsonValue + JSONDecodeError)
    (json_dumps : JsonValue -> string)
    (user_input user_id : string) (s : ServeWithFastAPI.Server) :
  let s' := snd (ServeWithFastAPI.chat llm json_loads json_dumps
                   user_input user_id s) in
  let before :=
    default [] (ServeWithFastAPI.in_memory_database s !! user_id) in
  (forall other, other <> user_id ->
     ServeWithFastAPI.in_memory_database s' !! other
       = ServeWithFastAPI.in_memory_database s !! other) /\
  (exists after,
     ServeWithFastAPI.in_memory_database s' !! user_id = Some after /\
     turn_history before user_input after) /\
  turn_log (ServeWithFastAPI.server_trace s)
    (before ++ [mkMessage "user" user_input None])
    (ServeWithFastAPI.server_trace s').
Proof.
  intros s' before. subst s'. unfold ServeWithFastAPI.chat.
  cbn [snd ServeWithFastAPI.in_memory_database ServeWithFastAPI.server_trace].
  rewrite chat_memory. fold before.
  rewrite serving_bot_run. cbv zeta. cbn [history trace].
  pose proof (serving_loop_turn llm json_loads json_dumps before user_input
                (ServeWithFastAPI.server_trace s)
                (before ++ [mkMessage "user" user_input None])
                (chunks (llm "WeatherChain"
                           (before ++ [mkMessage "user" user_input None])))
                (failure (llm "WeatherChain"
                            (before ++ [mkMessage "user" user_input None])))
                (mkWorld (before ++ [mkMessage "user" user_input None])
                   (ServeWithFastAPI.server_trace s ++
                      [ModelCall "WeatherChain"
                         (before ++ [mkMessage "user" user_input None])])))
    as H.
  cbv zeta in H. cbn [history trace] in H.
  destruct H as [Hh Hl];
    [split; [apply turn_history_start | apply turn_log_start] |].
  split; [| split].
  - intros other Hne. now apply chat_others.
  - eexists. split; [apply lookup_insert_eq | exact Hh].
  - exact Hl.
Qed.

(** X15. The users of the server do not interfere. For the same model, what
    a user is answered (the texts and the error, if any) and the [Memory]
    the request leaves for that user are the same whether or not a request
    of another user was served before. *)
Theorem chat_users_do_not_interfere
    (llm : string -> list OpenAIChatMessage -> ModelStream)
    (json_loads : string -> JsonValue + JSONDecodeError)
    (json_dumps : JsonValue -> string)
    (input_a user_a input_b user_b : string) (s : ServeWithFastAPI.Server) :
  user_a <> user_b ->
  let chat := ServeWithFastAPI.chat llm json_loads json_dumps in
  let alone := chat input_b user_b s in
  let after := chat input_b user_b (snd (chat input_a user_a s)) in
  fst after = fst alone /\
  ServeWithFastAPI.in_memory_database (snd after) !! user_b
    = ServeWithFastAPI.in_memory_database (snd alone) !! user_b.
Proof.
  intros Hne chat alone after. subst alone after chat.
  rewrite !chat_response, !chat_lookup. cbv zeta.
  rewrite (chat_lookup_other llm json_loads json_dumps input_a user_a s user_b)
    by congruence.
  destruct (run_blind _
              (blind_serving_bot llm json_loads json_dumps input_b)
              (default [] (ServeWithFastAPI.in_memory_database s !! user_b))
              (ServeWithFastAPI.server_trace
                 (snd (ServeWithFastAPI.chat llm json_loads json_dumps
                         input_a user_a s)))
              (ServeWithFastAPI.server_trace s)) as (H1 & H2 & H3).
  rewrite H1, H2, H3. split; reflexivity.
Qed.

Lemma chat_users_do_not_interfere_witness :
  let llm := scripted [mkDelta (Some "assistant") "Hello" None] [] [] in
  let chat := ServeWithFastAPI.chat llm Json.loads Json.dumps in
  let s := ServeWithFastAPI.mkServer empty [] in
  fst (chat "hi" "bob" (snd (chat "hello" "alice" s))) = fst (chat "hi" "bob" s).
Proof.
  intros llm chat s.
  apply (chat_users_do_not_interfere llm Json.loads Json.dumps
           "hello" "alice" "hi" "bob" s).
  discriminate.
Defined.

(** ** Calls of the weather function outside the second notebook *)

Lemma dispatch_result_call json_loads json_dumps d d' :
  is_weather_call d = true ->
  dispatch_result json_loads json_dumps d = Ok d' ->
  delta_role d' = Some "function" /\ delta_name d' = Some "get_current_weather".
Proof.
  intros Hcall Hd. unfold dispatch_result, WeatherBot.dispatch in Hd.
  rewrite Hcall in Hd. unfold bind, loads in Hd.
  destruct (json_loads (delta_content d)) as [kwargs | je]; [| discriminate Hd].
  unfold ret in Hd.
  destruct (call_get_current_weather json_dumps kwargs (mkWorld [] []))
    as [[x | e] w'] eqn:Hc; cbn [fst] in Hd; [| discriminate Hd].
  injection Hd as ->. exact (call_result_function _ _ _ _ _ Hc).
Qed.

(** X16. A call of the weather function in the FastAPI notebook. When the
    stream of [WeatherChain] is one delta, a call of [get_current_weather]
    that the dispatch answers with the result delta, the result is stored as
    one function message after the message of the user and is not part of
    the answer; the follow-up call of [FunctionReplyChain] is made on the
    history so extended, and the contents of its deltas are the outputs of
    the bot. These deltas go through [update_delta] once, so the message
    they leave holds each content once. *)
Theorem serving_function_turn
    (llm : string -> list OpenAIChatMessage -> ModelStream)
    (json_loads : string -> JsonValue + JSONDecodeError)
    (json_dumps : JsonValue -> string) (user_input : string) (w : World)
    (d d' : OpenAIChatDelta) :
  llm "WeatherChain" (history w ++ [mkMessage "user" user_input None])
    = mkStream [d] None ->
  is_weather_call d = true ->
  dispatch_result json_loads json_dumps d = Ok d' ->
  let h1 := history w ++
              [mkMessage "user" user_input None;
               mkMessage "function" (delta_content d')
                         (Some "get_current_weather")] in
  let s := llm "FunctionReplyChain" h1 in
  let o := run (ServeWithFastAPI.weather_bot llm json_loads json_dumps
                  user_input) w in
  outputs o = List.map delta_content (chunks s) /\
  raised o = failure s /\
  history (final o) = foldl fold_delta h1 (chunks s) /\
  model_calls (trace (final o)) =
    model_calls (trace w) ++
      [("WeatherChain", history w ++ [mkMessage "user" user_input None]);
       ("FunctionReplyChain", h1)].
Proof.
  intros Hllm Hcall Hd h1 s o. subst o.
  destruct (dispatch_result_call _ _ _ _ Hcall Hd) as [Hrole Hname].
  rewrite serving_bot_run. cbv zeta. rewrite Hllm. cbn [chunks failure].
  rewrite serving_loop_cons by (cbn [history]; now destruct (history w)).
  cbv zeta. cbn [history trace]. rewrite Hd.
  rewrite (bool_decide_eq_true_2 _ Hrole).
  rewrite (fold_delta_append _ (history w) (mkMessage "user" user_input None)
             d' "function" eq_refl Hrole) by discriminate.
  rewrite Hname.
  assert (Hh : (history w ++ [mkMessage "user" user_input None]) ++
               [mkMessage "function" (delta_content d')
                          (Some "get_current_weather")] = h1)
    by (subst h1; now rewrite <- app_assoc).
  rewrite Hh. fold s.
  destruct (failure s) as [e|] eqn:Hfail.
  - cbn [outputs raised final history trace]. repeat split.
    rewrite !model_calls_app. simpl.
    rewrite model_calls_app, model_calls_chunks. simpl.
    rewrite <- ?app_assoc. reflexivity.
  - rewrite serving_loop_nil. cbn [outputs raised final history trace].
    rewrite app_nil_r. repeat split.
    rewrite !model_calls_app. simpl.
    rewrite model_calls_app, model_calls_chunks. simpl.
    rewrite <- ?app_assoc. reflexivity.
Qed.

Lemma serving_function_turn_witness :
  let llm := scripted [weather_call amsterdam_arguments]
               [mkDelta (Some "assistant") "It is " None;
                mkDelta None "sunny" None] [] in
  let o := run (ServeWithFastAPI.weather_bot llm Json.loads Json.dumps
                  "I am in Amsterdam") (mkWorld [] []) in
  outputs o = ["It is "; "sunny"] /\
  history (final o) =
    [mkMessage "user" "I am in Amsterdam" None;
     mkMessage "function" amsterdam_result_text (Some "get_current_weather");
     mkMessage "assistant" "It is sunny" None].
Proof.
  intros llm o.
  destruct (serving_function_turn llm Json.loads Json.dumps "I am in Amsterdam"
              (mkWorld [] []) (weather_call amsterdam_arguments)
              (mkDelta (Some "function") (Json.dumps amsterdam_result)
                 (Some "get_current_weather")))
    as (Hout & _ & Hh & _).
  - reflexivity.
  - reflexivity.
  - vm_compute. reflexivity.
  - subst o. rewrite Hout, Hh. vm_compute. split; reflexivity.
Defined.

(** X17. A call that fails where there is no handler. In the first
    notebook and in the FastAPI notebook, when the first delta of the model
    is a call of [get_current_weather] for which the dispatch raises (the
    arguments do not parse, or the call does not bind), the turn ends with
    that error and no output; the history holds the message of the user and
    nothing of the call; the later deltas of the stream are not consumed and
    the model is not called again. *)
Theorem dispatch_error_ends_turn
    (llm : string -> list OpenAIChatMessage -> ModelStream)
    (json_loads : string -> JsonValue + JSONDecodeError)
    (json_dumps : JsonValue -> string) (user_input : string) (w : World)
    (d : OpenAIChatDelta) (ds : list OpenAIChatDelta) (fail : option PyExn)
    (e : PyExn) :
  llm "WeatherChain" (history w ++ [mkMessage "user" user_input None])
    = mkStream (d :: ds) fail ->
  dispatch_result json_loads json_dumps d = Raise e ->
  let ctx := history w ++ [mkMessage "user" user_input None] in
  let w' := mkWorld ctx
              (trace w ++ [ModelCall "WeatherChain" ctx; Chunk "WeatherChain" d]) in
  run (WeatherBot.weather_bot llm json_loads json_dumps user_input) w
    = mkOutcome [] (Some e) w' /\
  run (ServeWithFastAPI.weather_bot llm json_loads json_dumps user_input) w
    = mkOutcome [] (Some e) w'.
Proof.
  intros Hllm Hd ctx w'. subst w' ctx. split.
  - rewrite weather_bot_run. cbv zeta. rewrite weather_chain_run. cbv zeta.
    rewrite Hllm. cbn [chunks failure].
    rewrite first_stage_loop_cons by (cbn [history]; now destruct (history w)).
    rewrite Hd. cbn [raised final history trace].
    now rewrite <- app_assoc.
  - rewrite serving_bot_run. cbv zeta. rewrite Hllm. cbn [chunks failure].
    rewrite serving_loop_cons by (cbn [history]; now destruct (history w)).
    cbv zeta. rewrite Hd. cbn [history trace].
    now rewrite <- app_assoc.
Qed.

Lemma dispatch_error_ends_turn_witness :
  let llm := scripted [weather_call "{}"; mkDelta (Some "assistant") "ok" None]
               [] [] in
  run (ServeWithFastAPI.weather_bot llm Json.loads Json.dumps "it is hot today?")
      (mkWorld [] []) =
    mkOutcome []
      (Some (TypeError
         "get_current_weather() missing 1 required positional argument: 'location'"))
      (mkWorld [mkMessage "user" "it is hot today?" None]
         [ModelCall "WeatherChain" [mkMessage "user" "it is hot today?" None];
          Chunk "WeatherChain" (weather_call "{}")]).
Proof.
  intros llm.
  apply (dispatch_error_ends_turn llm Json.loads Json.dumps "it is hot today?"
           (mkWorld [] []) (weather_call "{}")
           [mkDelta (Some "assistant") "ok" None] None).
  - reflexivity.
  - vm_compute. reflexivity.
Defined.

(** ** A turn of the second notebook in which nothing fails *)

Lemma guarded_plain llm json_loads json_dumps ds : forall w,
  history w <> [] ->
  Forall (fun d => is_weather_call d = false) ds ->
  run (Chain.map_gen update_delta_on_memory
         (Chain.on_error_gen
            (Chain.map_gen (WeatherBotErrorHandling.dispatch json_loads json_dumps)
               (stream_gen "WeatherChain" ds None))
            (WeatherBotErrorHandling.error_handler llm))) w =
    mkOutcome ds None
      (mkWorld (foldl fold_delta (history w) ds)
         (trace w ++ List.map (Chunk "WeatherChain") ds
            ++ [StreamEnd "WeatherChain"])).
Proof.
  induction ds as [|d ds IH]; intros w Hw Hall.
  - now rewrite guarded_end.
  - apply Forall_cons in Hall as [Hd Hds].
    cbn [stream_gen Chain.map_gen Chain.on_error_gen run].
    unfold try at 1. unfold emit at 1. cbn [run Chain.map_gen Chain.on_error_gen].
    unfold try at 1.
    rewrite dispatch_saving_state, (dispatch_result_plain _ _ d Hd), Hd.
    cbn [run Chain.map_gen Chain.on_error_gen].
    rewrite update_ok by exact Hw. cbn [history trace].
    rewrite IH; [| cbn [history]; now apply fold_delta_nonempty | exact Hds].
    cbn [outputs raised final history trace foldl List.map].
    now rewrite <- app_assoc.
Qed.

(** X18. A turn of the second notebook in which the model answers with one
    message. When the stream of [WeatherChain] is a first delta of a role
    other than "user" and "function", followed by deltas of no role or of
    that role, and ends, the handler is not used: the bot makes the one call
    of [WeatherChain], on the system message, the history and the message of
    the user, yields the deltas as they came, and adds two messages to the
    history, the message of the user and the message of the model. The
    system message is not among them. *)
Theorem plain_reply_turn_saving
    (llm : string -> list OpenAIChatMessage -> ModelStream)
    (json_loads : string -> JsonValue + JSONDecodeError)
    (json_dumps : JsonValue -> string) (user_input : string) (w : World)
    (a : OpenAIChatDelta) (rest : list OpenAIChatDelta) (r : string) :
  llm "WeatherChain"
      (WeatherBotErrorHandling.system_message
         :: history w ++ [mkMessage "user" user_input None])
    = mkStream (a :: rest) None ->
  delta_role a = Some r ->
  r <> "user" ->
  r <> "function" ->
  Forall (fun d => delta_role d = None \/ delta_role d = Some r) rest ->
  run (WeatherBotErrorHandling.weather_bot llm json_loads json_dumps user_input) w =
    mkOutcome (a :: rest) None
      (mkWorld
         (history w ++
            [mkMessage "user" user_input None;
             mkMessage r (contents (a :: rest)) (delta_name a)])
         (trace w ++
            ModelCall "WeatherChain"
              (WeatherBotErrorHandling.system_message
                 :: history w ++ [mkMessage "user" user_input None])
            :: List.map (Chunk "WeatherChain") (a :: rest)
            ++ [StreamEnd "WeatherChain"])).
Proof.
  intros Hllm Ha Huser Hfun Hrest.
  pose proof (streamed_message_roles a rest r Ha Hfun Hrest) as Hroles.
  rewrite weather_bot_saving_run. cbv zeta.
  rewrite weather_chain_saving_run. cbv zeta.
  rewrite Hllm. cbn [chunks failure].
  rewrite guarded_plain;
    [| cbn [history]; now destruct (history w)
     | eapply Forall_impl; [exact Hroles | apply not_function_not_call]].
  cbn [outputs raised final history trace].
  rewrite (foldl_fold_delta_message a rest r _ (mkMessage "user" user_input None));
    [| apply last_snoc | exact (not_eq_sym Huser) | exact Ha | exact Hrest].
  destruct (last (a :: rest)) as [d|] eqn:Hlast.
  - destruct (reply_run llm (a :: rest) d
                (mkWorld
                   ((history w ++ [mkMessage "user" user_input None]) ++
                      [mkMessage r (contents (a :: rest)) (delta_name a)])
                   ((trace w ++
                       [ModelCall "WeatherChain"
                          (WeatherBotErrorHandling.system_message
                             :: history w ++ [mkMessage "user" user_input None])]) ++
                      List.map (Chunk "WeatherChain") (a :: rest)
                      ++ [StreamEnd "WeatherChain"])))
      as (Hsame & _ & Hplain).
    + cbn [history]. now destruct (history w ++ [mkMessage "user" user_input None]).
    + exact Hlast.
    + rewrite Hsame, (Hplain (Forall_last _ _ _ Hroles Hlast)).
      now rewrite <- !app_assoc.
  - apply last_None in Hlast. discriminate.
Qed.

Lemma plain_reply_turn_saving_witness :
  let llm := scripted [mkDelta (Some "assistant") "Hello! " None;
                       mkDelta None "How can I assist you today?" None] [] [] in
  let o := run (WeatherBotErrorHandling.weather_bot llm Json.loads Json.dumps
                  "hi there") (mkWorld [] []) in
  outputs o = [mkDelta (Some "assistant") "Hello! " None;
               mkDelta None "How can I assist you today?" None] /\
  history (final o) =
    [mkMessage "user" "hi there" None;
     mkMessage "assistant" "Hello! How can I assist you today?" None].
Proof.
  intros llm o. subst o.
  rewrite (plain_reply_turn_saving llm Json.loads Json.dumps "hi there"
             (mkWorld [] [])
             (mkDelta (Some "assistant") "Hello! " None)
             [mkDelta None "How can I assist you today?" None] "assistant").
  - split; reflexivity.
  - reflexivity.
  - reflexivity.
  - discriminate.
  - discriminate.
  - repeat constructor.
Defined.

(** ** A function delta in the first notebook *)

(** X19. A turn of the first notebook whose stream is one function delta.
    When the stream of [WeatherChain] is one delta of the role "function"
    that the dispatch answers (a call of [get_current_weather] with its
    result, any other function delta with itself), what the dispatch gave is
    stored as one function message after the message of the user, with its
    content and name; the follow-up call of [FunctionReplyChain] is made on
    the history so extended; its deltas, not the function delta, are the
    outputs of the turn, and they are folded after the function message.
    The model is called twice. *)
Theorem function_call_turn
    (llm : string -> list OpenAIChatMessage -> ModelStream)
    (json_loads : string -> JsonValue + JSONDecodeError)
    (json_dumps : JsonValue -> string) (user_input : string) (w : World)
    (d d' : OpenAIChatDelta) :
  llm "WeatherChain" (history w ++ [mkMessage "user" user_input None])
    = mkStream [d] None ->
  delta_role d = Some "function" ->
  dispatch_result json_loads json_dumps d = Ok d' ->
  let h1 := history w ++
              [mkMessage "user" user_input None;
               mkMessage "function" (delta_content d') (delta_name d')] in
  let s := llm "FunctionReplyChain" h1 in
  let o := run (WeatherBot.weather_bot llm json_loads json_dumps user_input) w in
  outputs o = chunks s /\
  raised o = failure s /\
  history (final o) = foldl fold_delta h1 (chunks s) /\
  model_calls (trace (final o)) =
    model_calls (trace w) ++
      [("WeatherChain", history w ++ [mkMessage "user" user_input None]);
       ("FunctionReplyChain", h1)].
Proof.
  intros Hllm Hfun Hd h1 s o. subst o.
  assert (Hrole : delta_role d' = Some "function")
    by (rewrite (dispatch_result_role _ _ _ _ Hd); exact Hfun).
  rewrite weather_bot_run. cbv zeta. rewrite weather_chain_run. cbv zeta.
  rewrite Hllm. cbn [chunks failure].
  rewrite first_stage_loop_cons by (cbn [history]; now destruct (history w)).
  rewrite Hd. cbv zeta. rewrite first_stage_loop_nil.
  cbn [outputs raised final history trace stream_end].
  rewrite (fold_delta_append _ (history w) (mkMessage "user" user_input None)
             d' "function" eq_refl Hrole) by discriminate.
  unfold WeatherBot.reply. cbn [last]. rewrite Hrole.
  rewrite bool_decide_eq_true_2 by reflexivity.
  rewrite function_reply_chain_run
    by (cbn [history]; now destruct (history w ++ [mkMessage "user" user_input None])).
  cbv zeta. cbn [outputs raised final history trace].
  assert (Hh : (history w ++ [mkMessage "user" user_input None]) ++
               [mkMessage "function" (delta_content d') (delta_name d')] = h1)
    by (subst h1; now rewrite <- app_assoc).
  rewrite Hh. fold s. repeat split.
  rewrite !model_calls_app. simpl.
  rewrite model_calls_app, model_calls_chunks, model_calls_stream_end.
  simpl. rewrite <- ?app_assoc. reflexivity.
Qed.

Lemma function_call_turn_witness :
  let call := mkDelta (Some "function") "{}" (Some "get_time") in
  let llm := scripted [call] [mkDelta (Some "assistant") "I cannot tell" None] [] in
  let o := run (WeatherBot.weather_bot llm Json.loads Json.dumps "what time is it?")
             (mkWorld [] []) in
  outputs o = [mkDelta (Some "assistant") "I cannot tell" None] /\
  history (final o) =
    [mkMessage "user" "what time is it?" None;
     mkMessage "function" "{}" (Some "get_time");
     mkMessage "assistant" "I cannot tell" None].
Proof.
  intros call llm o.
  destruct (function_call_turn llm Json.loads Json.dumps "what time is it?"
              (mkWorld [] []) call call) as (Hout & _ & Hh & _).
  - reflexivity.
  - reflexivity.
  - reflexivity.
  - split; [exact Hout | exact Hh].
Defined.
